(** * OBEX client transfer engine (obexd/client/transfer.c)

    A shallow embedding of the transfer orchestration code: registration,
    the start entry points [transfer_get] and [transfer_put], the four
    continuation handlers installed on the transport handle, and
    [transfer_abort].

    Conventions of the embedding.
    - [struct transfer_data] is declared in transfer.h; the record below has
      the fields transfer.c uses.  Integer fields are modelled in [Z]; the
      handlers do no arithmetic that is meant to wrap.
    - The buffer is a block of bytes whose real extent is the length of the
      list; every access the C code makes through [transfer->buffer] is
      checked against that extent and yields [Fault] when it leaves it.
    - Calls into collaborators (the gw-obex transport, the C library, the
      registered progress callback) are recorded in a trace of [event]s.
      The answers of the collaborators are inputs of the model: arguments of
      the functions that make a bounded number of calls, an explicit world
      for the file-source PUT loop, which makes as many as the file needs.
    - The registered callback is opaque: its invocation is an event, and it
      is taken not to touch the transfer record.
    - A [goto done] is the call of a definition that embeds the code under
      the label; where a statement speaks about one part of a handler, that
      part is a definition of its own, named in the handler's body. *)

From Stdlib Require Import ZArith NArith List Bool String DecimalString Lia.
From Stdlib Require DecimalN DecimalPos DecimalFacts.
From Stdlib Require Import Strings.Byte.
Import ListNotations.
Open Scope string_scope.
Open Scope Z_scope.
Open Scope list_scope.

(** ** Constants *)

Definition TRANSFER_BASEPATH : string := "/org/openobex".

Definition DEFAULT_BUFFER_SIZE : Z := 4096.

(** errno values of <errno.h> (Linux). *)
Definition EALREADY : Z := 114.
Definition ENOTCONN : Z := 107.
Definition ECANCELED : Z := 125.

(** ** Results of memory-touching code *)

Inductive fault : Type :=
| OutOfBounds (off len : Z)   (* access to [off, off+len) leaves the block *)
| Unterminated.               (* strlen found no terminator in the block *)

Inductive result (A : Type) : Type :=
| Ok (a : A)
| Fault (f : fault)
| OutOfFuel.                    (* the model's fuel ran out (loops only) *)

Arguments Ok {A} a.
Arguments Fault {A} f.
Arguments OutOfFuel {A}.

Definition bind {A B : Type} (r : result A) (k : A -> result B) : result B :=
  match r with
  | Ok a => k a
  | Fault f => Fault f
  | OutOfFuel => OutOfFuel
  end.

Notation "x <- r ;; k" := (bind r (fun x => k))
  (at level 61, r at next level, right associativity).

(** ** Byte blocks *)

Definition block := list byte.

Definition NUL : byte := x00.

(** [p[i]] as a read. *)
Definition load (b : block) (i : Z) : result byte :=
  if (0 <=? i) && (i <? Zlength b)
  then Ok (nth (Z.to_nat i) b NUL)
  else Fault (OutOfBounds i 1).

(** Copy [bytes] to [p + off]. *)
Definition store (b : block) (off : Z) (bytes : list byte) : result block :=
  if (0 <=? off) && (off + Zlength bytes <=? Zlength b)
  then Ok (firstn (Z.to_nat off) b ++ bytes
           ++ skipn (Z.to_nat (off + Zlength bytes)) b)
  else Fault (OutOfBounds off (Zlength bytes)).

(** The [len] bytes at [p + off], as handed to a callee that reads them. *)
Definition slice (b : block) (off len : Z) : result (list byte) :=
  if (0 <=? off) && (0 <=? len) && (off + len <=? Zlength b)
  then Ok (firstn (Z.to_nat len) (skipn (Z.to_nat off) b))
  else Fault (OutOfBounds off len).

(** [memmove(p + dst, p + src, n)]. *)
Definition memmove (b : block) (dst src n : Z) : result block :=
  bytes <- slice b src n ;;
  store b dst bytes.

(** Index of the first terminator. *)
Fixpoint strlen (b : block) : result Z :=
  match b with
  | [] => Fault Unterminated
  | c :: b' =>
      if Byte.eqb c NUL then Ok 0
      else n <- strlen b' ;; Ok (n + 1)
  end.

(** [g_new0(char, n)]. *)
Definition g_new0 (n : Z) : block := repeat NUL (Z.to_nat n).

(** [g_realloc(p, n)]: the old content is kept up to [n]; the bytes
    beyond it are whatever the allocator left there, [junk i] at offset [i]. *)
Definition g_realloc (junk : nat -> byte) (b : block) (n : Z) : block :=
  firstn (Z.to_nat n)
         (b ++ map junk (seq (List.length b) (Z.to_nat n - List.length b)%nat)).

(** A [char *] field: [None] is NULL. *)
Definition mem (p : option block) : block :=
  match p with
  | Some b => b
  | None => []
  end.

(** ** The transfer record *)

Definition GwObexXfer := nat.

Record transfer_callback : Type := {
  func : nat;         (* transfer_callback_t, an opaque function *)
  data : nat          (* void *data *)
}.

Record transfer_data : Type := {
  params : option (list byte);
  callback : option transfer_callback;
  path : option string;
  filename : option string;
  name : option string;
  type : option string;
  fd : Z;
  xfer : option GwObexXfer;
  buffer : option block;
  size : Z;
  transferred : Z;
  buffer_len : Z;
  filled : Z;
  err : Z
}.

Definition set_callback (v : option transfer_callback) (t : transfer_data) :=
  {| params := params t; callback := v; path := path t;
     filename := filename t; name := name t; type := type t; fd := fd t;
     xfer := xfer t; buffer := buffer t; size := size t;
     transferred := transferred t; buffer_len := buffer_len t;
     filled := filled t; err := err t |}.

Definition set_fd (v : Z) (t : transfer_data) :=
  {| params := params t; callback := callback t; path := path t;
     filename := filename t; name := name t; type := type t; fd := v;
     xfer := xfer t; buffer := buffer t; size := size t;
     transferred := transferred t; buffer_len := buffer_len t;
     filled := filled t; err := err t |}.

Definition set_xfer (v : option GwObexXfer) (t : transfer_data) :=
  {| params := params t; callback := callback t; path := path t;
     filename := filename t; name := name t; type := type t; fd := fd t;
     xfer := v; buffer := buffer t; size := size t;
     transferred := transferred t; buffer_len := buffer_len t;
     filled := filled t; err := err t |}.

Definition set_buffer (v : option block) (t : transfer_data) :=
  {| params := params t; callback := callback t; path := path t;
     filename := filename t; name := name t; type := type t; fd := fd t;
     xfer := xfer t; buffer := v; size := size t;
     transferred := transferred t; buffer_len := buffer_len t;
     filled := filled t; err := err t |}.

Definition set_size (v : Z) (t : transfer_data) :=
  {| params := params t; callback := callback t; path := path t;
     filename := filename t; name := name t; type := type t; fd := fd t;
     xfer := xfer t; buffer := buffer t; size := v;
     transferred := transferred t; buffer_len := buffer_len t;
     filled := filled t; err := err t |}.

Definition set_transferred (v : Z) (t : transfer_data) :=
  {| params := params t; callback := callback t; path := path t;
     filename := filename t; name := name t; type := type t; fd := fd t;
     xfer := xfer t; buffer := buffer t; size := size t;
     transferred := v; buffer_len := buffer_len t;
     filled := filled t; err := err t |}.

Definition set_buffer_len (v : Z) (t : transfer_data) :=
  {| params := params t; callback := callback t; path := path t;
     filename := filename t; name := name t; type := type t; fd := fd t;
     xfer := xfer t; buffer := buffer t; size := size t;
     transferred := transferred t; buffer_len := v;
     filled := filled t; err := err t |}.

Definition set_filled (v : Z) (t : transfer_data) :=
  {| params := params t; callback := callback t; path := path t;
     filename := filename t; name := name t; type := type t; fd := fd t;
     xfer := xfer t; buffer := buffer t; size := size t;
     transferred := transferred t; buffer_len := buffer_len t;
     filled := v; err := err t |}.

Definition set_err (v : Z) (t : transfer_data) :=
  {| params := params t; callback := callback t; path := path t;
     filename := filename t; name := name t; type := type t; fd := fd t;
     xfer := xfer t; buffer := buffer t; size := size t;
     transferred := transferred t; buffer_len := buffer_len t;
     filled := filled t; err := v |}.

Definition set_path (v : option string) (t : transfer_data) :=
  {| params := params t; callback := callback t; path := v;
     filename := filename t; name := name t; type := type t; fd := fd t;
     xfer := xfer t; buffer := buffer t; size := size t;
     transferred := transferred t; buffer_len := buffer_len t;
     filled := filled t; err := err t |}.

(** ** Lifecycle: registration *)

(** [type != NULL && (strncmp(type, "x-obex/", 7) == 0
                      || strncmp(type, "x-bt/", 5) == 0)] *)
Definition obex_specific_type (type' : option string) : bool :=
  match type' with
  | Some s => String.prefix "x-obex/" s || String.prefix "x-bt/" s
  | None => false
  end.

(** [transfer_register], with the static [counter] (a guint64) passed in and
    out.  [registered] is the answer of g_dbus_register_interface; the
    result is [None] where the C function returns NULL.  The session's
    pending list lives in the session and is not part of this model. *)
Definition transfer_register (counter : N)
    (filename' name' type' : option string) (params' : option (list byte))
    (registered : bool) : option transfer_data * N :=
  let transfer :=
    {| params := params'; callback := None; path := None;
       filename := filename'; name := name'; type := type'; fd := 0;
       xfer := None; buffer := None; size := 0; transferred := 0;
       buffer_len := 0; filled := 0; err := 0 |} in
  if obex_specific_type type' then (Some transfer, counter)
  else
    let transfer :=
      set_path (Some (TRANSFER_BASEPATH ++ "/transfer"
                      ++ NilZero.string_of_uint (N.to_uint counter))%string)
               transfer in
    let counter := ((counter + 1) mod 2 ^ 64)%N in
    if registered then (Some transfer, counter) else (None, counter).

(** ** Interaction trace *)

(** The values a [gw_obex_xfer_cb_t] takes in this file. *)
Inductive progress_cb : Type :=
| cb_get_xfer_listing_progress
| cb_get_xfer_progress
| cb_put_buf_xfer_progress
| cb_put_xfer_progress.

Inductive open_mode : Type :=
| O_WRONLY_CREAT_0600
| O_RDONLY.

Inductive event : Type :=
| SysOpen (pathname : option string) (mode : open_mode) (ret : Z)
| SysFstat (fd : Z) (ret : Z)
| SysClose (fd : Z)
| SysRead (fd : Z) (off count : Z) (ret : Z)
| SysWrite (fd : Z) (bytes : list byte) (ret : Z)
| ObexGetAsync (name type : option string) (apparam : option (list byte))
               (ret : option GwObexXfer)
| ObexPutAsync (name type : option string) (size : Z)
               (ret : option GwObexXfer)
| XferSetCallback (x : GwObexXfer) (cb : progress_cb)
| XferRead (x : GwObexXfer) (off bsize : Z) (ret : bool) (bread : Z)
| XferObjectSize (x : GwObexXfer) (ret : Z)
| XferWrite (x : GwObexXfer) (bytes : list byte) (ret : bool) (written : Z)
| XferFlush (x : GwObexXfer)
| XferAbort (x : GwObexXfer)
| XferFree (x : GwObexXfer)
| Callback (cb : transfer_callback) (transferred : Z) (err : Z).

Definition trace := list event.

(** [if (callback) callback->func(transfer, n, e, callback->data);] *)
Definition invoke (cb : option transfer_callback) (n e : Z) : trace :=
  match cb with
  | Some c => [Callback c n e]
  | None => []
  end.

Definition is_callback (e : event) : bool :=
  match e with
  | Callback _ _ _ => true
  | _ => false
  end.

(** The callback deliveries of a trace. *)
Definition callbacks (tr : trace) : trace := filter is_callback tr.

Definition is_set_callback (e : event) : bool :=
  match e with
  | XferSetCallback _ _ => true
  | _ => false
  end.

(** The continuations installed on a transport handle during a trace. *)
Definition scheduled (tr : trace) : trace := filter is_set_callback tr.

Definition is_flush (e : event) : bool :=
  match e with
  | XferFlush _ => true
  | _ => false
  end.

Definition is_sys_write (e : event) : bool :=
  match e with
  | SysWrite _ _ _ => true
  | _ => false
  end.

Definition is_xfer_write (e : event) : bool :=
  match e with
  | XferWrite _ _ _ _ => true
  | _ => false
  end.

(** ** Lifecycle: abort *)

Definition transfer_abort (t : transfer_data) : transfer_data * trace :=
  let callback' := callback t in
  match xfer t with
  | None => (t, [])
  | Some x =>
      let t := set_xfer None t in
      (t, [XferAbort x; XferFree x]
            ++ invoke callback' (transferred t) (- ECANCELED))
  end.

(** ** Lifecycle: start *)

(** [g_strcmp0(s, lit) == 0] for a non-NULL literal. *)
Definition g_strcmp0_eq (s : option string) (lit : string) : bool :=
  match s with
  | Some s' => String.eqb s' lit
  | None => false
  end.

(** [transfer_set_callback]: the previous pair is released and replaced. *)
Definition transfer_set_callback (func' user_data : nat) (t : transfer_data)
  : transfer_data :=
  set_callback (Some {| func := func'; data := user_data |}) t.

(** What the collaborators answer during a start call: [open_ret] is the
    result of open() and [open_errno] the value of errno after it;
    [fstat_ret], [fstat_errno] and [st_size] likewise for fstat(); [begun]
    is the handle returned by gw_obex_get_async* / gw_obex_put_async. *)
Record start_env : Type := {
  open_ret : Z;
  open_errno : Z;
  fstat_ret : Z;
  fstat_errno : Z;
  st_size : Z;
  begun : option GwObexXfer
}.

Definition transfer_get (t : transfer_data) (func' : option nat)
    (user_data : nat) (e : start_env) : Z * transfer_data * trace :=
  match xfer t with
  | Some _ => (- EALREADY, t, [])
  | None =>
      let begin (t : transfer_data) (cb : progress_cb) (tr : trace) :=
        let t := set_xfer (begun e) t in
        let tr := tr ++ [ObexGetAsync (filename t) (type t) (params t)
                                      (begun e)] in
        match xfer t with
        | None => (- ENOTCONN, t, tr)
        | Some x =>
            let t := match func' with
                     | Some f => transfer_set_callback f user_data t
                     | None => t
                     end in
            (0, t, tr ++ [XferSetCallback x cb])
        end in
      if g_strcmp0_eq (type t) "x-bt/vcard-listing"
         || g_strcmp0_eq (type t) "x-obex/folder-listing"
      then begin t cb_get_xfer_listing_progress []
      else
        let fd' := open_ret e in
        let tr := [SysOpen (match name t with
                            | Some n => Some n
                            | None => filename t
                            end) O_WRONLY_CREAT_0600 fd'] in
        (* if (transfer->fd < 0) return -errno;  transfer->fd = fd; *)
        if fd t <? 0
        then (- open_errno e, t, tr)
        else begin (set_fd fd' t) cb_get_xfer_progress tr
  end.

Definition transfer_put (t : transfer_data) (func' : option nat)
    (user_data : nat) (e : start_env) : Z * transfer_data * trace :=
  match xfer t with
  | Some _ => (- EALREADY, t, [])
  | None =>
      let done (t : transfer_data) (cb : progress_cb) (tr : trace) :=
        let t := set_xfer (begun e) t in
        let tr := tr ++ [ObexPutAsync (name t) (type t) (size t) (begun e)] in
        match xfer t with
        | None => (- ENOTCONN, t, tr)
        | Some x =>
            let t := match func' with
                     | Some f => transfer_set_callback f user_data t
                     | None => t
                     end in
            (0, t, tr ++ [XferSetCallback x cb])
        end in
      match buffer t with
      | Some _ => done t cb_put_buf_xfer_progress []
      | None =>
          let fd' := open_ret e in
          let tr := [SysOpen (filename t) O_RDONLY fd'] in
          (* if (fd < 0) return -errno; *)
          if fd' <? 0
          then (- open_errno e, t, tr)
          else
            let tr := tr ++ [SysFstat fd' (fstat_ret e)] in
            if fstat_ret e <? 0
            then (- fstat_errno e, t, tr ++ [SysClose fd'])
            else
              let t := set_fd fd' t in
              let t := set_size (st_size e) t in
              done t cb_put_xfer_progress tr
      end
  end.

(** ** Continuation handlers *)

(** Answers of the transport to the calls a handler makes. *)
Inductive xfer_read_res : Type :=
| XferReadOk (chunk : list byte)   (* TRUE, *bread = length of the chunk *)
| XferReadFail (e : Z).            (* FALSE, *err = e *)

Inductive xfer_write_res : Type :=
| XferWriteOk (written : Z)        (* TRUE, *written set *)
| XferWriteFail (e : Z).           (* FALSE, *err = e *)

Inductive xfer_flush_res : Type :=
| XferFlushOk
| XferFlushFail (e : Z).

(** Replace the content of the block [transfer->buffer] points to. *)
Definition with_block (b : block) (t : transfer_data) : transfer_data :=
  match buffer t with
  | Some _ => set_buffer (Some b) t
  | None => t
  end.

(** A store through [transfer->buffer]; the pointer itself is unchanged. *)
Definition poke (t : transfer_data) (off : Z) (bytes : list byte)
  : result transfer_data :=
  b <- store (mem (buffer t)) off bytes ;;
  Ok (with_block b t).

(** [buffer_len += DEFAULT_BUFFER_SIZE; buffer = g_realloc(buffer, buffer_len)] *)
Definition grow (junk : nat -> byte) (t : transfer_data) : transfer_data :=
  let t := set_buffer_len (buffer_len t + DEFAULT_BUFFER_SIZE) t in
  set_buffer (Some (g_realloc junk (mem (buffer t)) (buffer_len t))) t.

(** *** GET, listing accumulation *)

(** The [done:] label of [get_xfer_listing_progress]. *)
Definition listing_done (t : transfer_data) (tr : trace)
  : result (transfer_data * trace) :=
  n <- strlen (mem (buffer t)) ;;
  let t := set_size n t in
  Ok (t, tr ++ invoke (callback t) (size t) (err t)).

(** The block guarded by [if (gw_obex_xfer_object_done(xfer))]. *)
Definition listing_terminate (junk : nat -> byte) (t : transfer_data)
    (tr : trace) : result (transfer_data * trace) :=
  c <- load (mem (buffer t)) (filled t - 1) ;;
  if Byte.eqb c NUL then listing_done t tr
  else
    let bsize := buffer_len t - filled t in
    let t := if bsize <? 1 then grow junk t else t in
    t <- poke t (filled t) [NUL] ;;
    listing_done t tr.

(** The first lines of the handler: headroom below the increment is topped
    up before the read.  Returns the transfer and [bsize]. *)
Definition listing_reserve (junk : nat -> byte) (t : transfer_data)
  : transfer_data * Z :=
  let bsize := buffer_len t - filled t in
  if bsize <? DEFAULT_BUFFER_SIZE
  then (grow junk t, bsize + DEFAULT_BUFFER_SIZE)
  else (t, bsize).

(** A chunk of [bread] bytes has arrived at [buffer + filled]. *)
Definition listing_accept (t : transfer_data) (chunk : list byte)
  : result transfer_data :=
  t <- poke t (filled t) chunk ;;
  Ok (set_filled (filled t + Zlength chunk) t).

Definition get_xfer_listing_progress (junk : nat -> byte) (x : GwObexXfer)
    (t : transfer_data) (rd : xfer_read_res) (object_done : bool)
  : result (transfer_data * trace) :=
  let '(t, bsize) := listing_reserve junk t in
  match rd with
  | XferReadFail e =>
      listing_done (set_err e t) [XferRead x (filled t) bsize false 0]
  | XferReadOk chunk =>
      let tr := [XferRead x (filled t) bsize true (Zlength chunk)] in
      t <- listing_accept t chunk ;;
      if object_done then listing_terminate junk t tr
      else Ok (t, tr)
  end.

(** *** GET, file streaming *)

(** The [done:] label shared by the three handlers below. *)
Definition progress_done (t : transfer_data) (e : Z) (tr : trace)
  : transfer_data * trace :=
  (t, tr ++ invoke (callback t) (transferred t) e).

(** [write_ret]/[write_errno]: result of write() and errno after it. *)
Definition get_xfer_progress (x : GwObexXfer) (t : transfer_data)
    (rd : xfer_read_res) (object_size write_ret write_errno : Z)
  : result (transfer_data * trace) :=
  let t := if buffer_len t =? 0
           then set_buffer (Some (g_new0 DEFAULT_BUFFER_SIZE))
                           (set_buffer_len DEFAULT_BUFFER_SIZE t)
           else t in
  let bsize := buffer_len t - filled t in
  match rd with
  | XferReadFail e =>
      let t := set_err e t in
      Ok (progress_done t (err t) [XferRead x (filled t) bsize false 0])
  | XferReadOk chunk =>
      let bread := Zlength chunk in
      let tr := [XferRead x (filled t) bsize true bread] in
      t <- poke t (filled t) chunk ;;
      let t := set_filled (filled t + bread) t in
      let t := set_transferred (transferred t + bread) t in
      let '(t, tr) :=
        if size t =? 0
        then (set_size object_size t, tr ++ [XferObjectSize x object_size])
        else (t, tr) in
      let finish (t : transfer_data) (tr : trace) :=
        if transferred t =? size t
        then Ok (progress_done t (err t) tr)
        else Ok (progress_done t (err t) (tr ++ [XferFlush x])) in
      if 0 <? fd t then
        (* w = write(transfer->fd, transfer->buffer, bread); *)
        bytes <- slice (mem (buffer t)) 0 bread ;;
        let w := write_ret in
        let tr := tr ++ [SysWrite (fd t) bytes w] in
        if w <? 0 then
          let t := set_err (- write_errno) t in
          Ok (progress_done t (err t) tr)
        else finish (set_filled 0 t) tr
      else finish t tr
  end.

(** *** PUT, buffer source *)

Definition put_buf_xfer_progress (x : GwObexXfer) (t : transfer_data)
    (wr : xfer_write_res) (fl : xfer_flush_res)
  : result (transfer_data * trace) :=
  if transferred t =? size t
  then Ok (progress_done t (err t) [])
  else
    bytes <- slice (mem (buffer t)) (transferred t)
                   (size t - transferred t) ;;
    match wr with
    | XferWriteFail e =>
        let t := set_err e t in
        Ok (progress_done t (err t) [XferWrite x bytes false 0])
    | XferWriteOk written =>
        let tr := [XferWrite x bytes true written] in
        match fl with
        | XferFlushFail e =>
            let t := set_err e t in
            Ok (progress_done t (err t) (tr ++ [XferFlush x]))
        | XferFlushOk =>
            let tr := tr ++ [XferFlush x] in
            let t := set_transferred (transferred t + written) t in
            Ok (progress_done t (err t) tr)
        end
    end.

(** *** PUT, file source *)

Inductive sys_read_res : Type :=
| SysReadOk (bytes : list byte)    (* returns the length, bytes stored *)
| SysReadFail (errno : Z).         (* returns -1 *)

(** The path by which [put_xfer_progress] reaches its [done:] label. *)
Inductive loop_exit : Type :=
| ReadFailed (errno : Z)     (* len < 0 *)
| Exhausted                  (* filled == 0 after the read *)
| WriteFailed (e : Z)        (* gw_obex_xfer_write returned FALSE *)
| LoopEnded (written : Z).   (* filled != 0 after the write *)

(** The value of the local [err] at [done:]. *)
Definition exit_err (ex : loop_exit) : Z :=
  match ex with
  | ReadFailed errno => - errno
  | Exhausted => 0
  | WriteFailed e => e
  | LoopEnded _ => 0
  end.

Section PutFile.

(** Everything outside the transfer record: the local file behind
    [transfer->fd] and the transport. *)
Variable world : Type.

(** [read(fd, _, count)] *)
Variable sys_read : world -> Z -> Z -> world * sys_read_res.

(** [gw_obex_xfer_write(xfer, bytes, len, &written, &err)] *)
Variable xfer_write : world -> GwObexXfer -> list byte
                      -> world * xfer_write_res.

(** The [do ... while (transfer->filled == 0)] loop; the trace returned
    is that of the iterations run. *)
Fixpoint put_xfer_loop (fuel : nat) (w : world) (x : GwObexXfer)
    (t : transfer_data)
  : result (world * transfer_data * trace * loop_exit) :=
  match fuel with
  | O => OutOfFuel
  | S fuel' =>
      let count := buffer_len t - filled t in
      let '(w, r) := sys_read w (fd t) count in
      match r with
      | SysReadFail errno =>
          Ok (w, t, [SysRead (fd t) (filled t) count (-1)],
              ReadFailed errno)
      | SysReadOk bytes =>
          let len := Zlength bytes in
          let tr := [SysRead (fd t) (filled t) count len] in
          t <- poke t (filled t) bytes ;;
          let t := set_filled (filled t + len) t in
          if filled t =? 0 then Ok (w, t, tr, Exhausted)
          else
            (* gw_obex_xfer_write(xfer, buffer, filled, &written, &err) *)
            offered <- slice (mem (buffer t)) 0 (filled t) ;;
            let '(w, r) := xfer_write w x offered in
            match r with
            | XferWriteFail e =>
                Ok (w, t, tr ++ [XferWrite x offered false 0],
                    WriteFailed e)
            | XferWriteOk written =>
                let tr := tr ++ [XferWrite x offered true written] in
                let t := set_filled (filled t - written) t in
                let t := set_transferred (transferred t + written) t in
                if filled t =? 0
                then
                  r <- put_xfer_loop fuel' w x t ;;
                  let '(w, t, tr', ex) := r in
                  Ok (w, t, tr ++ tr', ex)
                else Ok (w, t, tr, LoopEnded written)
            end
      end
  end.

Definition put_xfer_progress (fuel : nat) (w : world) (x : GwObexXfer)
    (t : transfer_data)
  : result (world * transfer_data * trace * loop_exit) :=
  let t := if buffer_len t =? 0
           then set_buffer (Some (g_new0 DEFAULT_BUFFER_SIZE))
                           (set_buffer_len DEFAULT_BUFFER_SIZE t)
           else t in
  r <- put_xfer_loop fuel w x t ;;
  let '(w, t, tr, ex) := r in
  t <- match ex with
       | LoopEnded written =>
           (* memmove(buffer, buffer + written, filled); *)
           b <- memmove (mem (buffer t)) 0 written (filled t) ;;
           Ok (with_block b t)
       | _ => Ok t
       end ;;
  let '(t, tr) := progress_done t (exit_err ex) tr in
  Ok (w, t, tr, ex).

End PutFile.

Arguments put_xfer_loop {world}.
Arguments put_xfer_progress {world}.

(** *** A regular file and a flow-controlled sink *)

(** The bytes of the source file not yet read, and the most the transport
    accepts per write. *)
Record file_world : Type := {
  rest : list byte;
  window : Z
}.

Definition file_read (w : file_world) (fd count : Z)
  : file_world * sys_read_res :=
  ({| rest := skipn (Z.to_nat count) (rest w); window := window w |},
   SysReadOk (firstn (Z.to_nat count) (rest w))).

Definition sink_write (w : file_world) (x : GwObexXfer) (bytes : list byte)
  : file_world * xfer_write_res :=
  (w, XferWriteOk (Z.max 0 (Z.min (Zlength bytes) (window w)))).

(** ** Example transfers *)

Definition example_callback : transfer_callback := {| func := 1; data := 2 |}.

(** [g_new0(struct transfer_data, 1)] *)
Definition blank_transfer : transfer_data :=
  {| params := None; callback := None; path := None; filename := None;
     name := None; type := None; fd := 0; xfer := None; buffer := None;
     size := 0; transferred := 0; buffer_len := 0; filled := 0; err := 0 |}.

(** The transfer a successful [transfer_register] returns. *)
Definition registered (r : option transfer_data * N) : transfer_data :=
  match fst r with
  | Some t => t
  | None => blank_transfer
  end.

(** A registered transfer of a plain file, not yet started: the remote
    object "card.vcf" is to be stored as "/tmp/card.vcf". *)
Definition created_file_transfer : transfer_data :=
  registered (transfer_register 0 (Some "card.vcf") (Some "/tmp/card.vcf")
                                None None true).

(** The same transfer after a successful start: descriptor 3, handle 7. *)
Definition started_file_transfer : transfer_data :=
  set_callback (Some example_callback)
    (set_xfer (Some 7%nat) (set_fd 3 created_file_transfer)).

Definition refusing_env : start_env :=
  {| open_ret := 4; open_errno := 0; fstat_ret := 0; fstat_errno := 0;
     st_size := 5000; begun := Some 8%nat |}.

(** EACCES, the errno of an open() refused for lack of permission. *)
Definition EACCES : Z := 13.

Definition unwritable_env : start_env :=
  {| open_ret := -1; open_errno := EACCES; fstat_ret := 0; fstat_errno := 0;
     st_size := 0; begun := Some 7%nat |}.

(** The destination cannot be opened and the transport refuses the
    exchange. *)
Definition unwritable_refusing_env : start_env :=
  {| open_ret := -1; open_errno := EACCES; fstat_ret := 0; fstat_errno := 0;
     st_size := 0; begun := None |}.

(** ** Vocabulary of the statements *)

(** The transport handle, the registered callback and the descriptor of
    [t'] are those of [t]. *)
Definition same_handles (t t' : transfer_data) : Prop :=
  xfer t' = xfer t /\ callback t' = callback t /\ fd t' = fd t.


(** One continuation invocation by the transport: any of the four handlers
    runs to its end on [t], leaving [t'] and the trace [tr]. *)
Inductive continuation_step : transfer_data -> transfer_data -> trace -> Prop :=
| step_get_listing (junk : nat -> byte) (x : GwObexXfer) (t : transfer_data)
    (rd : xfer_read_res) (object_done : bool)
    (t' : transfer_data) (tr : trace) :
    get_xfer_listing_progress junk x t rd object_done = Ok (t', tr) ->
    continuation_step t t' tr
| step_get (x : GwObexXfer) (t : transfer_data) (rd : xfer_read_res)
    (object_size write_ret write_errno : Z)
    (t' : transfer_data) (tr : trace) :
    get_xfer_progress x t rd object_size write_ret write_errno
      = Ok (t', tr) ->
    continuation_step t t' tr
| step_put_buf (x : GwObexXfer) (t : transfer_data) (wr : xfer_write_res)
    (fl : xfer_flush_res) (t' : transfer_data) (tr : trace) :
    put_buf_xfer_progress x t wr fl = Ok (t', tr) ->
    continuation_step t t' tr
| step_put (world : Type)
    (sys_read : world -> Z -> Z -> world * sys_read_res)
    (xfer_write : world -> GwObexXfer -> list byte -> world * xfer_write_res)
    (fuel : nat) (w : world) (x : GwObexXfer) (t : transfer_data)
    (w' : world) (t' : transfer_data) (tr : trace) (ex : loop_exit) :
    put_xfer_progress sys_read xfer_write fuel w x t = Ok (w', t', tr, ex) ->
    continuation_step t t' tr.

(** A GET of a 10000-byte file after two chunks of 4096 bytes: 8192 bytes
    received and written, the last 1808 still to come. *)
Definition receiving_file_transfer : transfer_data :=
  set_buffer (Some (g_new0 DEFAULT_BUFFER_SIZE))
    (set_buffer_len DEFAULT_BUFFER_SIZE
       (set_size 10000 (set_transferred 8192 started_file_transfer))).

Definition last_chunk : list byte := repeat "v"%byte 1808.

(** A started GET of a vCard listing, no chunk received yet. *)
Definition started_listing_transfer : transfer_data :=
  set_callback (Some example_callback)
    (set_xfer (Some 7%nat)
       (registered (transfer_register 1 (Some "telecom/pb") None
                                      (Some "x-bt/vcard-listing") None
                                      true))).

(** Fresh heap memory as the examples find it. *)
Definition example_junk (i : nat) : byte := "?"%byte.

(** A chunk that fills the 4096 bytes of headroom, none of them zero. *)
Definition full_chunk : list byte := repeat "x"%byte 4096.

(** The listing of Scenario C: "Alice", then NUL "Bob" marked final. *)
Definition alice_chunk : list byte := list_byte_of_string "Alice".
Definition bob_chunk : list byte := NUL :: list_byte_of_string "Bob".

(** The listing transfer once "Alice" has been accumulated. *)
Definition alice_listing_transfer : transfer_data :=
  match get_xfer_listing_progress example_junk 7%nat
          started_listing_transfer (XferReadOk alice_chunk) false with
  | Ok (t, _) => t
  | _ => started_listing_transfer
  end.

(** The buffer invariant: [buffer_len] is the extent of the block and
    [buffer[0..filled)] lies inside it. *)
Definition buffer_ok (t : transfer_data) : Prop :=
  0 <= filled t <= buffer_len t /\ Zlength (mem (buffer t)) = buffer_len t.

(** A started GET of a file of 100 bytes, nothing received yet, with its
    4096-byte buffer, and a first chunk of ten bytes. *)
Definition short_write_transfer : transfer_data :=
  set_buffer (Some (g_new0 DEFAULT_BUFFER_SIZE))
    (set_buffer_len DEFAULT_BUFFER_SIZE
       (set_size 100 started_file_transfer)).

Definition ten_bytes : list byte := list_byte_of_string "0123456789".

(** EIO and ENOSPC, errno values a failing write() or flush reports. *)
Definition EIO : Z := 5.
Definition ENOSPC : Z := 28.

(** A started PUT of the eleven bytes "hello world" from memory. *)
Definition memory_put_transfer : transfer_data :=
  set_callback (Some example_callback)
    (set_xfer (Some 7%nat)
       (set_size 11
          (set_buffer (Some (list_byte_of_string "hello world"))
             (registered (transfer_register 1 None (Some "note.txt") None
                                            None true))))).

(** The bytes the transport accepted during a trace: the sum of the counts
    reported by its successful writes. *)
Fixpoint accepted (tr : trace) : Z :=
  match tr with
  | [] => 0
  | XferWrite _ _ true written :: tr' => written + accepted tr'
  | _ :: tr' => accepted tr'
  end.

(** [filled] after a trace that started with [f] buffered bytes: local
    reads add what they returned, transport writes remove what they
    accepted. *)
Fixpoint filled_after (f : Z) (tr : trace) : Z :=
  match tr with
  | [] => f
  | SysRead _ _ _ ret :: tr' =>
      filled_after (if ret <? 0 then f else f + ret) tr'
  | XferWrite _ _ true written :: tr' => filled_after (f - written) tr'
  | _ :: tr' => filled_after f tr'
  end.

(** A trace keeps to a buffer of [cap] bytes holding [f] bytes at its
    start: every local read is asked to fill exactly the free space
    [f, cap), every transport write is offered exactly the [f] buffered
    bytes. *)
Fixpoint buffered (cap f : Z) (tr : trace) : Prop :=
  match tr with
  | [] => True
  | SysRead fd' off count ret :: tr' =>
      off = f /\ count = cap - f /\
      buffered cap (filled_after f [SysRead fd' off count ret]) tr'
  | XferWrite x bytes ok written :: tr' =>
      Zlength bytes = f /\
      buffered cap (filled_after f [XferWrite x bytes ok written]) tr'
  | _ :: tr' => buffered cap f tr'
  end.

(** Scenario B: a started PUT of a local file of 5000 bytes through a
    transport that accepts at most 2000 bytes per write. *)
Definition file_put_transfer : transfer_data :=
  set_callback (Some example_callback)
    (set_xfer (Some 7%nat)
       (set_size 5000
          (set_fd 3
             (registered (transfer_register 2 (Some "/tmp/photo.jpg")
                                            (Some "photo.jpg") None None
                                            true))))).

Definition scenario_b_world : file_world :=
  {| rest := repeat "p"%byte 5000; window := 2000 |}.

(** [n] continuation steps in a row; for each the bytes the transport
    accepted, [transferred] after the step and the exit taken. *)
Fixpoint file_put_steps (n : nat) (w : file_world) (t : transfer_data)
  : list (Z * Z * loop_exit) :=
  match n with
  | O => []
  | S n' =>
      match put_xfer_progress file_read sink_write
              (List.length (rest w) + 2) w 7%nat t with
      | Ok (w', t', tr, ex) =>
          (accepted tr, transferred t', ex) :: file_put_steps n' w' t'
      | _ => []
      end
  end.

(** ** Lifecycle: the session side of registration, release, cancel *)

(** The heap blocks [transfer_free] hands to g_free: the members of the
    record and the record itself. *)
Inductive member : Type :=
| MParams
| MCallback
| MFilename
| MName
| MType
| MPath
| MBuffer
| MSelf.

(** What registration and release do outside the transfer record.  [Io]
    carries the calls that are [event]s already (gw_obex_xfer_free,
    close). *)
Inductive life_event : Type :=
| SessionRef
| SessionUnref
| DBusRegister (path : string) (ok : bool)
| DBusUnregister (path : string)
| XferClose (x : GwObexXfer)
| GFree (m : member)
| Io (e : event).

(** [g_slist_remove(list, data)]: the first element equal to [data] goes. *)
Fixpoint g_slist_remove (l : list nat) (x : nat) : list nat :=
  match l with
  | [] => []
  | y :: l' => if Nat.eqb y x then l' else y :: g_slist_remove l' x
  end.

(** [g_slist_append(list, data)] *)
Definition g_slist_append (l : list nat) (x : nat) : list nat := l ++ [x].

(** [m] when the pointer [p] is not NULL. *)
Definition held {A : Type} (p : option A) (m : member) : list member :=
  match p with
  | Some _ => [m]
  | None => []
  end.

(** The blocks released at the end of [transfer_free], in the order of its
    g_free calls; g_free(NULL) does nothing and is left out.  [params] is
    the pointer the caller of [transfer_register] passed in. *)
Definition released (t : transfer_data) : list member :=
  held (params t) MParams ++ held (callback t) MCallback
  ++ held (filename t) MFilename ++ held (name t) MName
  ++ held (type t) MType ++ held (path t) MPath
  ++ held (buffer t) MBuffer ++ [MSelf].

(** [transfer_free]: [self] is the address of the transfer, [pending] the
    session's list.  The record is gone afterwards; what is left is the
    session's list and the calls made. *)
Definition transfer_free (self : nat) (t : transfer_data)
    (pending : list nat) : list nat * list life_event :=
  let tr :=
    match xfer t with
    | Some x => [XferClose x; Io (XferFree x)]
    | None => []
    end in
  let tr := tr ++ (if 0 <? fd t then [Io (SysClose (fd t))] else []) in
  (g_slist_remove pending self,
   tr ++ [SessionUnref] ++ map GFree (released t)).

Definition transfer_unregister (self : nat) (t : transfer_data)
    (pending : list nat) : list nat * list life_event :=
  let tr :=
    match path t with
    | Some p => [DBusUnregister p]
    | None => []
    end in
  let '(pending, tr') := transfer_free self t pending in
  (pending, tr ++ tr').

(** The object path of the transfer numbered [counter]. *)
Definition transfer_path (counter : N) : string :=
  (TRANSFER_BASEPATH ++ "/transfer"
   ++ NilZero.string_of_uint (N.to_uint counter))%string.

(** [transfer_register] with its effects on the session: the reference
    taken, the D-Bus registration and the pending list.  The transfer and
    the counter are those of [transfer_register]. *)
Definition transfer_register_session (self : nat) (pending : list nat)
    (counter : N) (filename' name' type' : option string)
    (params' : option (list byte)) (registered : bool)
  : option transfer_data * N * list nat * list life_event :=
  let transfer :=
    {| params := params'; callback := None; path := None;
       filename := filename'; name := name'; type := type'; fd := 0;
       xfer := None; buffer := None; size := 0; transferred := 0;
       buffer_len := 0; filled := 0; err := 0 |} in
  let tr := [SessionRef] in
  if obex_specific_type type'
  then (Some transfer, counter, g_slist_append pending self, tr)
  else
    let p := transfer_path counter in
    let transfer := set_path (Some p) transfer in
    let counter := ((counter + 1) mod 2 ^ 64)%N in
    let tr := tr ++ [DBusRegister p registered] in
    if registered
    then (Some transfer, counter, g_slist_append pending self, tr)
    else
      let '(pending, tr') := transfer_free self transfer pending in
      (None, counter, pending, tr ++ tr').

(** The reply of a D-Bus method handler; a NULL reply is [None]. *)
Inductive dbus_reply : Type :=
| ErrorReply (error_name message : string)
| MethodReturn.

(** [transfer_cancel], the handler of the Cancel method: [sender] is the
    sender of the message, [agent] the session's agent (both non-NULL, as
    g_str_equal needs them), [reply_ok] whether
    dbus_message_new_method_return could build the reply. *)
Definition transfer_cancel (t : transfer_data) (sender agent : string)
    (reply_ok : bool) : option dbus_reply * transfer_data * trace :=
  if negb (String.eqb sender agent)
  then (Some (ErrorReply "org.openobex.Error.NotAuthorized"
                         "Not Authorized"), t, [])
  else if negb reply_ok then (None, t, [])
  else
    let '(t, tr) := transfer_abort t in
    (Some MethodReturn, t, tr).

(** How often a call occurs among the calls of registration and release. *)
Definition life_event_eqb_free (x : GwObexXfer) (e : life_event) : bool :=
  match e with
  | Io (XferFree y) => Nat.eqb x y
  | _ => false
  end.

Definition life_event_eqb_close (d : Z) (e : life_event) : bool :=
  match e with
  | Io (SysClose d') => Z.eqb d d'
  | _ => false
  end.

Definition is_g_free (e : life_event) : bool :=
  match e with
  | GFree _ => true
  | _ => false
  end.

Definition is_session_ref (e : life_event) : bool :=
  match e with
  | SessionRef => true
  | _ => false
  end.

Definition is_session_unref (e : life_event) : bool :=
  match e with
  | SessionUnref => true
  | _ => false
  end.

Definition is_dbus (e : life_event) : bool :=
  match e with
  | DBusRegister _ _ | DBusUnregister _ => true
  | _ => false
  end.

(** The times the transport handle [x] is freed. *)
Definition frees (x : GwObexXfer) (tr : list life_event) : nat :=
  List.length (filter (life_event_eqb_free x) tr).

(** The times the descriptor [d] is closed. *)
Definition closes (d : Z) (tr : list life_event) : nat :=
  List.length (filter (life_event_eqb_close d) tr).

(** The callback a successful start leaves registered: the pair given, or
    the one already there when the caller passes no function. *)
Definition callback_after_start (func' : option nat) (user_data : nat)
    (t : transfer_data) : option transfer_callback :=
  match func' with
  | Some f => Some {| func := f; data := user_data |}
  | None => callback t
  end.

(** ** Runs of continuation steps *)

(** Continuation steps of a listing GET that do not end the object, one per
    chunk the transport delivers. *)
Fixpoint listing_chunks (junk : nat -> byte) (x : GwObexXfer)
    (t : transfer_data) (chunks : list (list byte))
  : result (transfer_data * trace) :=
  match chunks with
  | [] => Ok (t, [])
  | c :: cs =>
      r <- get_xfer_listing_progress junk x t (XferReadOk c) false ;;
      let '(t1, tr1) := r in
      r' <- listing_chunks junk x t1 cs ;;
      let '(t2, tr2) := r' in
      Ok (t2, tr1 ++ tr2)
  end.

(** A whole listing GET: the chunks of [chunks], then [last] with the
    object reported done. *)
Definition listing_get (junk : nat -> byte) (x : GwObexXfer)
    (t : transfer_data) (chunks : list (list byte)) (last : list byte)
  : result (transfer_data * trace) :=
  r <- listing_chunks junk x t chunks ;;
  let '(t1, tr1) := r in
  r' <- get_xfer_listing_progress junk x t1 (XferReadOk last) true ;;
  let '(t2, tr2) := r' in
  Ok (t2, tr1 ++ tr2).

(** The transport keeps to the [bsize] it is offered at each step. *)
Fixpoint offered_fits (junk : nat -> byte) (x : GwObexXfer)
    (t : transfer_data) (chunks : list (list byte)) : Prop :=
  match chunks with
  | [] => True
  | c :: cs =>
      Zlength c <= snd (listing_reserve junk t) /\
      match get_xfer_listing_progress junk x t (XferReadOk c) false with
      | Ok (t1, _) => offered_fits junk x t1 cs
      | _ => True
      end
  end.

(** The length of a byte sequence read as a C string: up to the first
    terminator, or all of it when there is none. *)
Fixpoint cstrlen (s : list byte) : Z :=
  match s with
  | [] => 0
  | c :: s' => if Byte.eqb c NUL then 0 else cstrlen s' + 1
  end.

(** The accumulated bytes of a transfer: [buffer[0..filled)]. *)
Definition buffered_bytes (t : transfer_data) : list byte :=
  firstn (Z.to_nat (filled t)) (mem (buffer t)).

(** What the collaborators answer during one step of a file-streaming GET
    whose read succeeds. *)
Record get_step : Type := {
  step_chunk : list byte;
  step_object_size : Z;
  step_write_ret : Z;
  step_write_errno : Z
}.

(** Successive continuation steps of a file-streaming GET. *)
Fixpoint get_chunks (x : GwObexXfer) (t : transfer_data)
    (steps : list get_step) : result (transfer_data * trace) :=
  match steps with
  | [] => Ok (t, [])
  | s :: steps' =>
      r <- get_xfer_progress x t (XferReadOk (step_chunk s))
             (step_object_size s) (step_write_ret s)
             (step_write_errno s) ;;
      let '(t1, tr1) := r in
      r' <- get_chunks x t1 steps' ;;
      let '(t2, tr2) := r' in
      Ok (t2, tr1 ++ tr2)
  end.

(** The bytes handed to write(), in order. *)
Fixpoint written_bytes (tr : trace) : list byte :=
  match tr with
  | [] => []
  | SysWrite _ bytes _ :: tr' => bytes ++ written_bytes tr'
  | _ :: tr' => written_bytes tr'
  end.

(** [start + n1], [start + n1 + n2], ... *)
Fixpoint running_totals (start : Z) (ns : list Z) : list Z :=
  match ns with
  | [] => []
  | n :: ns' => (start + n) :: running_totals (start + n) ns'
  end.

(** The capacity of the file-streaming buffer: what is there, or the
    default the handler allocates on its first run. *)
Definition capacity (t : transfer_data) : Z :=
  if buffer_len t =? 0 then DEFAULT_BUFFER_SIZE else buffer_len t.

(** Scenario A: 10000 bytes arriving as 4096 + 4096 + 1808, each chunk
    written in full by write(). *)
Definition scenario_a_steps : list get_step :=
  [ {| step_chunk := full_chunk; step_object_size := 10000;
       step_write_ret := 4096; step_write_errno := 0 |};
    {| step_chunk := repeat "y"%byte 4096; step_object_size := 10000;
       step_write_ret := 4096; step_write_errno := 0 |};
    {| step_chunk := last_chunk; step_object_size := 10000;
       step_write_ret := 1808; step_write_errno := 0 |} ].

(** ** Runs of PUT steps *)

(** The bytes the transport took during a trace: of each successful write,
    the first [written] of the bytes offered. *)
Fixpoint sent (tr : trace) : list byte :=
  match tr with
  | [] => []
  | XferWrite _ bytes true written :: tr' =>
      firstn (Z.to_nat written) bytes ++ sent tr'
  | _ :: tr' => sent tr'
  end.

(** Successive continuation steps of a PUT from memory, the transport
    accepting [ws] bytes in turn and every flush succeeding. *)
Fixpoint put_buf_steps (x : GwObexXfer) (t : transfer_data) (ws : list Z)
  : result (transfer_data * trace) :=
  match ws with
  | [] => Ok (t, [])
  | w :: ws' =>
      r <- put_buf_xfer_progress x t (XferWriteOk w) XferFlushOk ;;
      let '(t1, tr1) := r in
      r' <- put_buf_steps x t1 ws' ;;
      let '(t2, tr2) := r' in
      Ok (t2, tr1 ++ tr2)
  end.

(** The transport never reports more bytes taken than it was offered:
    each count of [ws] lies within what is left of [remaining]. *)
Fixpoint within_budget (remaining : Z) (ws : list Z) : Prop :=
  match ws with
  | [] => True
  | w :: ws' => 0 <= w <= remaining /\ within_budget (remaining - w) ws'
  end.

Definition total (ns : list Z) : Z := fold_right Z.add 0 ns.

Section PutFileRun.

Variable world : Type.
Variable sys_read : world -> Z -> Z -> world * sys_read_res.
Variable xfer_write : world -> GwObexXfer -> list byte
                      -> world * xfer_write_res.

(** [n] continuation steps of a PUT from a local file in a row: the world
    and the transfer they leave, the whole trace, the exit of each step. *)
Fixpoint put_file_run (n fuel : nat) (w : world) (x : GwObexXfer)
    (t : transfer_data)
  : result (world * transfer_data * trace * list loop_exit) :=
  match n with
  | O => Ok (w, t, [], [])
  | S n' =>
      r <- put_xfer_progress sys_read xfer_write fuel w x t ;;
      let '(w1, t1, tr1, ex1) := r in
      r' <- put_file_run n' fuel w1 x t1 ;;
      let '(w2, t2, tr2, exs) := r' in
      Ok (w2, t2, tr1 ++ tr2, ex1 :: exs)
  end.

End PutFileRun.

Arguments put_file_run {world}.

(** What the buffer holds for the transport when the loop is left: after a
    short write the bytes behind the [written] ones, not moved yet. *)
Definition pending_bytes (t : transfer_data) (ex : loop_exit) : list byte :=
  match ex with
  | LoopEnded written =>
      skipn (Z.to_nat written)
        (firstn (Z.to_nat (filled t + written)) (mem (buffer t)))
  | _ => buffered_bytes t
  end.

(** A local file as the bytes not yet read, and a transport that takes at
    most [limit] bytes per write. *)
Definition plain_read (w : list byte) (fd count : Z)
  : list byte * sys_read_res :=
  (skipn (Z.to_nat count) w, SysReadOk (firstn (Z.to_nat count) w)).

Definition paced_write (limit : Z) (w : list byte) (x : GwObexXfer)
    (bytes : list byte) : list byte * xfer_write_res :=
  (w, XferWriteOk (Z.min (Zlength bytes) limit)).

(** A started PUT of a local file of ten bytes. *)
Definition small_file_put_transfer : transfer_data :=
  set_size 10 file_put_transfer.

(** * hcid: expansion of the device name *)

Definition PERCENT : byte := x25.
Definition BACKSLASH : byte := x5c.
Definition LETTER_d : byte := x64.
Definition LETTER_h : byte := x68.

(** The characters [%d] prints. *)
Definition decimal (n : Z) : list byte :=
  list_byte_of_string (NilZero.string_of_int (Z.to_int n)).

(** [sprintf(buf, "%d", dev_id)] into [char buf[10]]: the characters and
    their terminator have to fit; [strlen(buf)] is then their number. *)
Definition sprintf_d (n : Z) : result (list byte) :=
  if Zlength (decimal n) + 1 <=? 10 then Ok (decimal n)
  else Fault (OutOfBounds 0 (Zlength (decimal n) + 1)).

(** The [while (np < size - 1 && str[sp])] loop of [expand_name];
    [host_name] is the string in [hcid.host_name], up to its terminator.
    The result is the destination and [np] at the exit.  [sp], [np] and
    [olen] are C ints bounded by the lengths of the strings at hand; they
    are integers here. *)
Fixpoint expand_loop (fuel : nat) (host_name : list byte) (size : Z)
    (str : block) (dev_id : Z) (dst : block) (sp np : Z)
  : result (block * Z) :=
  match fuel with
  | O => OutOfFuel
  | S fuel' =>
      let next := expand_loop fuel' host_name size str dev_id in
      (* olen = strlen(opt); if (np + olen < size - 1) memcpy(...);
         np += olen; sp += 2; *)
      let substitute (opt : list byte) :=
        let olen := Zlength opt in
        dst <- (if np + olen <? size - 1 then store dst np opt
                else Ok dst) ;;
        next dst (sp + 2) (np + olen) in
      if np <? size - 1
      then
        c <- load str sp ;;
        if Byte.eqb c NUL then Ok (dst, np)
        else if Byte.eqb c PERCENT
        then
          c1 <- load str (sp + 1) ;;
          if Byte.eqb c1 LETTER_d
          then opt <- sprintf_d dev_id ;; substitute opt
          else if Byte.eqb c1 LETTER_h
          then substitute host_name
          else if Byte.eqb c1 PERCENT
          then
            (* dst[np++] = str[sp++]; sp++; *)
            dst <- store dst np [c] ;;
            next dst (sp + 2) (np + 1)
          else next dst (sp + 1) np
        else if Byte.eqb c BACKSLASH
        then
          (* sp++; dst[np++] = str[sp++]; *)
          c1 <- load str (sp + 1) ;;
          dst <- store dst np [c1] ;;
          next dst (sp + 2) (np + 1)
        else
          dst <- store dst np [c] ;;
          next dst (sp + 1) (np + 1)
      else Ok (dst, np)
  end.

(** [expand_name(dst, size, str, dev_id)]; [None] is NULL.  Every turn of
    the loop moves [sp] on and a read outside [str] stops it, so the
    length of [str] bounds the turns. *)
Definition expand_name (host_name : list byte) (dst : option block)
    (size : Z) (str : option block) (dev_id : Z) : result (option block) :=
  match str, dst with
  | None, None => Ok None
  | _, _ =>
      r <- expand_loop (S (List.length (mem str))) host_name size (mem str)
                       dev_id (mem dst) 0 0 ;;
      let '(d, np) := r in
      d <- store d np [NUL] ;;
      Ok (Some d)
  end.

(** What a name stands for: [%d] the device id, [%h] the host name, [%%] a
    percent sign, a backslash the character after it; a percent sign
    before anything else is dropped. *)
Fixpoint expansion (host_name : list byte) (dev_id : Z) (s : list byte)
  : list byte :=
  match s with
  | [] => []
  | c :: s' =>
      if Byte.eqb c PERCENT
      then
        match s' with
        | [] => []
        | c1 :: s'' =>
            if Byte.eqb c1 LETTER_d
            then decimal dev_id ++ expansion host_name dev_id s''
            else if Byte.eqb c1 LETTER_h
            then host_name ++ expansion host_name dev_id s''
            else if Byte.eqb c1 PERCENT
            then c :: expansion host_name dev_id s''
            else expansion host_name dev_id s'
        end
      else if Byte.eqb c BACKSLASH
      then
        match s' with
        | [] => []
        | c1 :: s'' => c1 :: expansion host_name dev_id s''
        end
      else c :: expansion host_name dev_id s'
  end.

(** The name ends in a backslash that escapes nothing. *)
Fixpoint dangling (s : list byte) : bool :=
  match s with
  | [] => false
  | c :: s' =>
      if Byte.eqb c PERCENT
      then
        match s' with
        | [] => false
        | c1 :: s'' =>
            if Byte.eqb c1 LETTER_d || Byte.eqb c1 LETTER_h
               || Byte.eqb c1 PERCENT
            then dangling s''
            else dangling s'
        end
      else if Byte.eqb c BACKSLASH
      then
        match s' with
        | [] => true
        | _ :: s'' => dangling s''
        end
      else dangling s'
  end.

(** A character that stands for itself. *)
Definition is_plain (c : byte) : bool :=
  negb (Byte.eqb c NUL || Byte.eqb c PERCENT || Byte.eqb c BACKSLASH).

(** [bytes] laid over [dst] from offset [np] on. *)
Definition placed (dst : block) (np : Z) (bytes : list byte) : block :=
  firstn (Z.to_nat np) dst ++ bytes
  ++ skipn (Z.to_nat (np + Zlength bytes)) dst.

(** The name [BlueZ (%h) %d%%] and its terminator; the host [box]. *)
Definition example_name : list byte :=
  list_byte_of_string "BlueZ (%h) %d%%".

Definition example_host : list byte := list_byte_of_string "box".

(** * hcid: per-device options *)

Section DeviceOptions.

(** [struct device_opts]; of its fields these functions read [discovto]
    only. *)
Variable device_opts : Type.
Variable discovto : device_opts -> Z.
Variable HCID_DEFAULT_DISCOVERABLE_TIMEOUT : Z.

(** [struct device_list]: reference string and options, newest first. *)
Definition device_list : Type := list (string * device_opts).

(** [alloc_device_opts(ref)]: a new head holding a copy of the defaults
    (the name duplicated by strdup, which is taken to succeed); [None] when
    malloc fails and the daemon exits. *)
Definition alloc_device_opts (malloc_ok : bool)
    (default_device : device_opts) (l : device_list) (ref : string)
  : option (device_list * device_opts) :=
  if malloc_ok
  then Some ((ref, default_device) :: l, default_device)
  else None.

Fixpoint find_device_opts (l : device_list) (ref : string)
  : option device_opts :=
  match l with
  | [] => None
  | (r, o) :: l' =>
      if String.eqb ref r then Some o else find_device_opts l' ref
  end.

(** [snprintf(ref, sizeof(ref) - 1, "hci%d", hdev)] with [char ref[8]]:
    at most six characters are kept. *)
Definition hci_ref (hdev : Z) : string :=
  substring 0 6 ("hci" ++ NilZero.string_of_int (Z.to_int hdev))%string.

(** [get_device_opts(sock, hdev)]; [ioctl_ret] and [addr] are what
    HCIGETDEVINFO returns and the address it reports, as a string. *)
Definition get_device_opts (default_device : device_opts) (l : device_list)
    (ioctl_ret : Z) (addr : string) (hdev : Z) : device_opts :=
  let o := if ioctl_ret =? 0 then find_device_opts l addr else None in
  let o := match o with
           | Some _ => o
           | None => find_device_opts l (hci_ref hdev)
           end in
  match o with
  | Some o => o
  | None => default_device
  end.

(** [get_discoverable_timeout(hdev)]; [sock] is what hci_open_dev returns,
    [read_ret] and [timeout] what read_discoverable_timeout returns and
    stores. *)
Definition get_discoverable_timeout (default_device : device_opts)
    (l : device_list) (sock ioctl_ret : Z) (addr : string)
    (read_ret timeout : Z) (hdev : Z) : Z :=
  if hdev <? 0 then HCID_DEFAULT_DISCOVERABLE_TIMEOUT
  else
    let no_address (o : option device_opts) :=
      let o := match o with
               | Some _ => o
               | None => find_device_opts l (hci_ref hdev)
               end in
      discovto (match o with
                | Some o => o
                | None => default_device
                end) in
    if sock <? 0 then no_address None
    else if ioctl_ret <? 0 then no_address None
    else if read_ret =? 0 then timeout
    else no_address (find_device_opts l addr).

End DeviceOptions.

Arguments alloc_device_opts {device_opts}.
Arguments find_device_opts {device_opts}.
Arguments get_device_opts {device_opts}.
Arguments get_discoverable_timeout {device_opts}.
(** * Properties *)

(** ** Reasoning about [result] *)

Lemma bind_Ok {A B : Type} (r : result A) (k : A -> result B) (b : B) :
  bind r k = Ok b -> exists a, r = Ok a /\ k a = Ok b.
Proof.
  destruct r as [a | f | ]; simpl; intros H; try discriminate.
  exists a; split; [reflexivity | exact H].
Qed.

(** Split a hypothesis [x <- r ;; k = Ok v] into its two halves. *)
Ltac bind_inv H :=
  let a := fresh "a" in
  let Ha := fresh "Ha" in
  apply bind_Ok in H; destruct H as (a & Ha & H).

Ltac ok_inv H := injection H as H; subst.

(** ** Abort *)

Lemma transfer_abort_unset (t : transfer_data) :
  xfer t = None -> transfer_abort t = (t, []).
Proof. unfold transfer_abort; intros ->; reflexivity. Qed.

Lemma transfer_abort_set (t : transfer_data) (x : GwObexXfer) :
  xfer t = Some x ->
  transfer_abort t =
    (set_xfer None t,
     [XferAbort x; XferFree x]
       ++ invoke (callback t) (transferred t) (- ECANCELED)).
Proof. unfold transfer_abort; intros ->; reflexivity. Qed.

Lemma transfer_abort_clears (t : transfer_data) :
  xfer (fst (transfer_abort t)) = None.
Proof.
  unfold transfer_abort; destruct (xfer t) eqn:E; simpl; auto.
Qed.

(** ** Start *)

(** C9: with the transport handle already set, both start entry points
    return -EALREADY, leave the transfer as it was and call nothing. *)
Theorem start_rejected_when_started (t : transfer_data) (func' : option nat)
    (user_data : nat) (e : start_env) :
  xfer t <> None ->
  transfer_get t func' user_data e = (- EALREADY, t, []) /\
  transfer_put t func' user_data e = (- EALREADY, t, []).
Proof.
  intros H. unfold transfer_get, transfer_put.
  destruct (xfer t); [split; reflexivity | contradiction].
Qed.

Lemma start_rejected_when_started_witness :
  transfer_get started_file_transfer (Some 5%nat) 6%nat refusing_env
    = (- EALREADY, started_file_transfer, []) /\
  transfer_put started_file_transfer (Some 5%nat) 6%nat refusing_env
    = (- EALREADY, started_file_transfer, []).
Proof.
  apply (start_rejected_when_started started_file_transfer).
  simpl. discriminate.
Defined.

(** An error code returned by a start call never comes with a continuation
    installed on a transport handle. *)
Lemma transfer_get_schedules_only_on_success (t : transfer_data)
    (func' : option nat) (user_data : nat) (e : start_env) :
  scheduled (snd (transfer_get t func' user_data e)) <> [] ->
  fst (fst (transfer_get t func' user_data e)) = 0.
Proof.
  unfold transfer_get.
  destruct (xfer t); simpl; [congruence | ].
  destruct (_ || _); simpl.
  - destruct (begun e); simpl; congruence.
  - destruct (fd t <? 0); simpl; [congruence | ].
    destruct (begun e); simpl; congruence.
Qed.

Lemma transfer_put_schedules_only_on_success (t : transfer_data)
    (func' : option nat) (user_data : nat) (e : start_env) :
  scheduled (snd (transfer_put t func' user_data e)) <> [] ->
  fst (fst (transfer_put t func' user_data e)) = 0.
Proof.
  unfold transfer_put.
  destruct (xfer t); simpl; [congruence | ].
  destruct (buffer t); simpl.
  - destruct (begun e); simpl; congruence.
  - destruct (open_ret e <? 0); simpl; [congruence | ].
    destruct (fstat_ret e <? 0); simpl; [congruence | ].
    destruct (begun e); simpl; congruence.
Qed.

(** A transport that refuses to begin the exchange: -ENOTCONN from PUT, and
    from GET whenever the stored descriptor is not negative. *)
Lemma transfer_get_refused (t : transfer_data) (func' : option nat)
    (user_data : nat) (e : start_env) :
  xfer t = None -> begun e = None -> 0 <= fd t ->
  fst (fst (transfer_get t func' user_data e)) = - ENOTCONN /\
  scheduled (snd (transfer_get t func' user_data e)) = [].
Proof.
  intros Hx Hb Hfd. unfold transfer_get. rewrite Hx.
  destruct (_ || _); simpl.
  - rewrite Hb; simpl; auto.
  - destruct (fd t <? 0) eqn:E; [apply Z.ltb_lt in E; lia | ].
    rewrite Hb; simpl; auto.
Qed.

(** PUT from a file: a failed open or fstat is returned as -errno, the
    transfer is left as it was and the transport is not contacted. *)
Lemma transfer_put_local_failure (t : transfer_data) (func' : option nat)
    (user_data : nat) (e : start_env) :
  xfer t = None -> buffer t = None ->
  (open_ret e < 0 ->
   transfer_put t func' user_data e
   = (- open_errno e, t, [SysOpen (filename t) O_RDONLY (open_ret e)])) /\
  (0 <= open_ret e -> fstat_ret e < 0 ->
   transfer_put t func' user_data e
   = (- fstat_errno e, t,
      [SysOpen (filename t) O_RDONLY (open_ret e);
       SysFstat (open_ret e) (fstat_ret e); SysClose (open_ret e)])).
Proof.
  intros Hx Hb. unfold transfer_put. rewrite Hx, Hb. split.
  - intros H. apply Z.ltb_lt in H. rewrite H. reflexivity.
  - intros H1 H2. apply Z.ltb_lt in H2.
    destruct (open_ret e <? 0) eqn:E; [apply Z.ltb_lt in E; lia | ].
    rewrite H2. reflexivity.
Qed.

Lemma transfer_put_refused (t : transfer_data) (func' : option nat)
    (user_data : nat) (e : start_env) :
  xfer t = None -> begun e = None ->
  0 <= open_ret e -> 0 <= fstat_ret e ->
  fst (fst (transfer_put t func' user_data e)) = - ENOTCONN /\
  scheduled (snd (transfer_put t func' user_data e)) = [].
Proof.
  intros Hx Hb Ho Hf. unfold transfer_put. rewrite Hx.
  destruct (buffer t); simpl.
  - rewrite Hb; simpl; auto.
  - destruct (open_ret e <? 0) eqn:E; [apply Z.ltb_lt in E; lia | ].
    destruct (fstat_ret e <? 0) eqn:E'; [apply Z.ltb_lt in E'; lia | ].
    simpl. rewrite Hb; simpl; auto.
Qed.

(** GET of a plain file: the test after open() reads the descriptor stored
    in the transfer, not the one open() just returned.  On a transfer whose
    stored descriptor is not negative a failed open is therefore not
    noticed: -1 is stored, the exchange is begun and the call returns what
    the transport decides. *)
Lemma transfer_get_open_failure_unnoticed (t : transfer_data)
    (func' : option nat) (user_data : nat) (e : start_env)
    (x : GwObexXfer) :
  xfer t = None ->
  g_strcmp0_eq (type t) "x-bt/vcard-listing" = false ->
  g_strcmp0_eq (type t) "x-obex/folder-listing" = false ->
  0 <= fd t -> open_ret e < 0 -> begun e = Some x ->
  let '(code, t', tr) := transfer_get t func' user_data e in
  code = 0 /\ fd t' = open_ret e /\ xfer t' = Some x /\
  scheduled tr = [XferSetCallback x cb_get_xfer_progress].
Proof.
  intros Hx H1 H2 Hfd Ho Hb. unfold transfer_get.
  rewrite Hx, H1, H2. simpl.
  destruct (fd t <? 0) eqn:E; [apply Z.ltb_lt in E; lia | ].
  simpl. rewrite Hb. destruct func'; simpl; auto.
Qed.

(** C3 (the code departs from it): the first GET start of a plain-file
    transfer whose destination cannot be opened (open() returns -1 with
    EACCES) returns 0, stores -1 as the descriptor, begins the exchange and
    installs [get_xfer_progress] on the handle. *)
Theorem transfer_get_failed_open_returns_success :
  transfer_get created_file_transfer (Some 1%nat) 2%nat unwritable_env
  = (0,
     set_callback (Some example_callback)
       (set_xfer (Some 7%nat) (set_fd (-1) created_file_transfer)),
     [SysOpen (Some "/tmp/card.vcf") O_WRONLY_CREAT_0600 (-1);
      ObexGetAsync (Some "card.vcf") None None (Some 7%nat);
      XferSetCallback 7%nat cb_get_xfer_progress]).
Proof. reflexivity. Qed.

(** The sibling entry point at the same failure. *)
Example transfer_put_failed_open_returns_errno :
  transfer_put created_file_transfer (Some 1%nat) 2%nat unwritable_env
  = (- EACCES, created_file_transfer,
     [SysOpen (Some "card.vcf") O_RDONLY (-1)]).
Proof. reflexivity. Qed.

(** ** Byte blocks *)

Lemma Zlength_nonneg {A : Type} (l : list A) : 0 <= Zlength l.
Proof. rewrite Zlength_correct. lia. Qed.

Lemma Zlength_app {A : Type} (l l' : list A) :
  Zlength (l ++ l') = Zlength l + Zlength l'.
Proof. rewrite !Zlength_correct, length_app. lia. Qed.

Lemma store_Ok (b : block) (off : Z) (bytes : list byte) (b' : block) :
  store b off bytes = Ok b' ->
  0 <= off /\ off + Zlength bytes <= Zlength b /\
  b' = firstn (Z.to_nat off) b ++ bytes
       ++ skipn (Z.to_nat (off + Zlength bytes)) b.
Proof.
  unfold store.
  destruct (0 <=? off) eqn:E1; simpl; [ | discriminate].
  destruct (off + Zlength bytes <=? Zlength b) eqn:E2; [ | discriminate].
  intros H; injection H as <-.
  apply Z.leb_le in E1, E2. auto.
Qed.

Lemma store_safe (b : block) (off : Z) (bytes : list byte) :
  0 <= off -> off + Zlength bytes <= Zlength b ->
  exists b', store b off bytes = Ok b'.
Proof.
  intros H1 H2. unfold store.
  apply Z.leb_le in H1, H2. rewrite H1, H2. simpl. eexists; reflexivity.
Qed.

Lemma store_Zlength (b : block) (off : Z) (bytes : list byte) (b' : block) :
  store b off bytes = Ok b' -> Zlength b' = Zlength b.
Proof.
  intros H. apply store_Ok in H. destruct H as (H1 & H2 & ->).
  pose proof (Zlength_nonneg bytes) as Hb.
  rewrite !Zlength_correct in *.
  rewrite !length_app, length_firstn, length_skipn. lia.
Qed.

Lemma store_prefix (b : block) (off : Z) (bytes : list byte) (b' : block) :
  store b off bytes = Ok b' ->
  firstn (Z.to_nat off) b' = firstn (Z.to_nat off) b.
Proof.
  intros H. apply store_Ok in H. destruct H as (H1 & H2 & ->).
  pose proof (Zlength_nonneg bytes) as Hb.
  rewrite !Zlength_correct in *.
  rewrite firstn_app.
  replace (Z.to_nat off - List.length (firstn (Z.to_nat off) b))%nat
    with O by (rewrite length_firstn; lia).
  simpl. rewrite app_nil_r. rewrite firstn_firstn. f_equal. lia.
Qed.

Lemma store_written (b : block) (off : Z) (bytes : list byte) (b' : block) :
  store b off bytes = Ok b' ->
  firstn (List.length bytes) (skipn (Z.to_nat off) b') = bytes.
Proof.
  intros H. apply store_Ok in H. destruct H as (H1 & H2 & ->).
  pose proof (Zlength_nonneg bytes) as Hb.
  rewrite !Zlength_correct in *.
  rewrite skipn_app.
  replace (Z.to_nat off - List.length (firstn (Z.to_nat off) b))%nat
    with O by (rewrite length_firstn; lia).
  rewrite skipn_all2 by (rewrite length_firstn; lia).
  simpl. rewrite firstn_app, Nat.sub_diag. simpl.
  rewrite firstn_all, app_nil_r. reflexivity.
Qed.

Lemma store_extends (b : block) (off : Z) (bytes : list byte) (b' : block) :
  store b off bytes = Ok b' ->
  firstn (Z.to_nat (off + Zlength bytes)) b'
  = firstn (Z.to_nat off) b ++ bytes.
Proof.
  intros H. apply store_Ok in H. destruct H as (H1 & H2 & ->).
  pose proof (Zlength_nonneg bytes) as Hb.
  rewrite !Zlength_correct in *.
  rewrite app_assoc. rewrite firstn_app.
  replace (Z.to_nat (off + Z.of_nat (List.length bytes))
           - List.length (firstn (Z.to_nat off) b ++ bytes))%nat
    with O by (rewrite length_app, length_firstn; lia).
  simpl. rewrite app_nil_r. apply firstn_all2.
  rewrite length_app, length_firstn. lia.
Qed.

Lemma load_Ok (b : block) (i : Z) (c : byte) :
  load b i = Ok c ->
  0 <= i < Zlength b /\ c = nth (Z.to_nat i) b NUL.
Proof.
  unfold load.
  destruct (0 <=? i) eqn:E1; simpl; [ | discriminate].
  destruct (i <? Zlength b) eqn:E2; [ | discriminate].
  intros H; injection H as <-.
  apply Z.leb_le in E1. apply Z.ltb_lt in E2. auto.
Qed.

Lemma slice_Ok (b : block) (off len : Z) (bytes : list byte) :
  slice b off len = Ok bytes ->
  0 <= off /\ 0 <= len /\ off + len <= Zlength b /\
  bytes = firstn (Z.to_nat len) (skipn (Z.to_nat off) b).
Proof.
  unfold slice.
  destruct (0 <=? off) eqn:E1; simpl; [ | discriminate].
  destruct (0 <=? len) eqn:E2; simpl; [ | discriminate].
  destruct (off + len <=? Zlength b) eqn:E3; [ | discriminate].
  intros H; injection H as <-.
  apply Z.leb_le in E1, E2, E3. auto.
Qed.

Lemma slice_Zlength (b : block) (off len : Z) (bytes : list byte) :
  slice b off len = Ok bytes -> Zlength bytes = len.
Proof.
  intros H. apply slice_Ok in H. destruct H as (H1 & H2 & H3 & ->).
  rewrite !Zlength_correct in *.
  rewrite length_firstn, length_skipn. lia.
Qed.

(** ** Fields a store or a growth leaves alone *)

Lemma with_block_fields (b : block) (t : transfer_data) :
  params (with_block b t) = params t /\
  callback (with_block b t) = callback t /\
  fd (with_block b t) = fd t /\
  xfer (with_block b t) = xfer t /\
  size (with_block b t) = size t /\
  transferred (with_block b t) = transferred t /\
  buffer_len (with_block b t) = buffer_len t /\
  filled (with_block b t) = filled t /\
  err (with_block b t) = err t.
Proof.
  unfold with_block. destruct (buffer t); simpl; repeat split.
Qed.

Lemma poke_Ok (t : transfer_data) (off : Z) (bytes : list byte)
    (t' : transfer_data) :
  poke t off bytes = Ok t' ->
  exists b, store (mem (buffer t)) off bytes = Ok b /\
            t' = with_block b t /\ mem (buffer t') = b.
Proof.
  unfold poke. intros H. bind_inv H. ok_inv H.
  exists a. repeat split; auto.
  unfold with_block. destruct (buffer t) eqn:E; simpl; auto.
  rewrite E. simpl in *.
  apply store_Zlength in Ha. rewrite Zlength_nil in Ha.
  destruct a; auto. rewrite Zlength_cons in Ha.
  pose proof (Zlength_nonneg a). lia.
Qed.

Lemma poke_fields (t : transfer_data) (off : Z) (bytes : list byte)
    (t' : transfer_data) :
  poke t off bytes = Ok t' ->
  params t' = params t /\ callback t' = callback t /\ fd t' = fd t /\
  xfer t' = xfer t /\ size t' = size t /\
  transferred t' = transferred t /\ buffer_len t' = buffer_len t /\
  filled t' = filled t /\ err t' = err t.
Proof.
  intros H. apply poke_Ok in H. destruct H as (b & _ & -> & _).
  apply with_block_fields.
Qed.

(** ** The handlers leave the handle, the callback and the descriptor alone *)

Lemma same_handles_refl (t : transfer_data) : same_handles t t.
Proof. repeat split. Qed.

Lemma same_handles_trans (t1 t2 t3 : transfer_data) :
  same_handles t1 t2 -> same_handles t2 t3 -> same_handles t1 t3.
Proof.
  unfold same_handles. intros (A1 & A2 & A3) (B1 & B2 & B3).
  repeat split; congruence.
Qed.

Lemma poke_same_handles (t : transfer_data) (off : Z) (bytes : list byte)
    (t' : transfer_data) :
  poke t off bytes = Ok t' -> same_handles t t'.
Proof.
  intros H. apply poke_fields in H. unfold same_handles. tauto.
Qed.

Lemma with_block_same_handles (b : block) (t : transfer_data) :
  same_handles t (with_block b t).
Proof.
  pose proof (with_block_fields b t). unfold same_handles. tauto.
Qed.

Lemma listing_done_same_handles (t : transfer_data) (tr : trace)
    (t' : transfer_data) (tr' : trace) :
  listing_done t tr = Ok (t', tr') -> same_handles t t'.
Proof.
  unfold listing_done. intros H. bind_inv H. ok_inv H. repeat split.
Qed.

Lemma listing_terminate_same_handles (junk : nat -> byte)
    (t : transfer_data) (tr : trace) (t' : transfer_data) (tr' : trace) :
  listing_terminate junk t tr = Ok (t', tr') -> same_handles t t'.
Proof.
  unfold listing_terminate. intros H. bind_inv H.
  destruct (Byte.eqb a NUL).
  - eapply listing_done_same_handles; eauto.
  - bind_inv H.
    apply listing_done_same_handles in H.
    apply poke_same_handles in Ha0.
    eapply same_handles_trans; [ | exact H].
    eapply same_handles_trans; [ | exact Ha0].
    destruct (_ <? 1); repeat split.
Qed.

Lemma get_xfer_listing_progress_same_handles (junk : nat -> byte)
    (x : GwObexXfer) (t : transfer_data) (rd : xfer_read_res) (od : bool)
    (t' : transfer_data) (tr : trace) :
  get_xfer_listing_progress junk x t rd od = Ok (t', tr) ->
  same_handles t t'.
Proof.
  unfold get_xfer_listing_progress, listing_reserve.
  set (t0 := fst (if buffer_len t - filled t <? DEFAULT_BUFFER_SIZE
                  then (grow junk t, buffer_len t - filled t
                                     + DEFAULT_BUFFER_SIZE)
                  else (t, buffer_len t - filled t))).
  assert (H0 : same_handles t t0)
    by (subst t0; destruct (_ <? _); repeat split).
  destruct (if buffer_len t - filled t <? DEFAULT_BUFFER_SIZE
            then _ else _) as [t1 bsize] eqn:E.
  simpl in t0. subst t0.
  destruct rd as [chunk | e]; intros H.
  - bind_inv H. unfold listing_accept in Ha. bind_inv Ha. ok_inv Ha.
    apply poke_same_handles in Ha0.
    assert (H1 : same_handles t (set_filled (filled a0 + Zlength chunk) a0)).
    { eapply same_handles_trans; [exact H0 | ].
      eapply same_handles_trans; [exact Ha0 | repeat split]. }
    destruct od.
    + apply listing_terminate_same_handles in H.
      eapply same_handles_trans; eauto.
    + ok_inv H. exact H1.
  - apply listing_done_same_handles in H.
    eapply same_handles_trans; [exact H0 | ].
    eapply same_handles_trans; [ | exact H]. repeat split.
Qed.

Lemma get_xfer_progress_same_handles (x : GwObexXfer) (t : transfer_data)
    (rd : xfer_read_res) (osz w errno : Z)
    (t' : transfer_data) (tr : trace) :
  get_xfer_progress x t rd osz w errno = Ok (t', tr) -> same_handles t t'.
Proof.
  unfold get_xfer_progress, progress_done.
  set (t0 := if buffer_len t =? 0 then _ else t).
  assert (H0 : same_handles t t0)
    by (subst t0; destruct (_ =? 0); repeat split).
  clearbody t0.
  destruct rd as [chunk | e]; intros H.
  - bind_inv H. apply poke_same_handles in Ha.
    assert (H1 : same_handles t a)
      by (eapply same_handles_trans; eauto).
    clear H0 Ha.
    destruct H1 as (A1 & A2 & A3).
    simpl in H.
    destruct (size a =? 0); simpl in H;
      (destruct (0 <? fd a); simpl in H;
       [ bind_inv H; destruct (w <? 0); simpl in H | ];
       repeat match type of H with
              | (if ?c then _ else _) = _ => destruct c
              end;
       ok_inv H; repeat split; simpl; assumption).
  - ok_inv H. destruct H0 as (A1 & A2 & A3). repeat split; assumption.
Qed.

Lemma put_buf_xfer_progress_same_handles (x : GwObexXfer)
    (t : transfer_data) (wr : xfer_write_res) (fl : xfer_flush_res)
    (t' : transfer_data) (tr : trace) :
  put_buf_xfer_progress x t wr fl = Ok (t', tr) -> same_handles t t'.
Proof.
  unfold put_buf_xfer_progress, progress_done.
  destruct (transferred t =? size t); intros H.
  - ok_inv H. repeat split.
  - bind_inv H. destruct wr; [destruct fl | ]; ok_inv H; repeat split.
Qed.

Section PutFileFrame.

Variable world : Type.
Variable sys_read : world -> Z -> Z -> world * sys_read_res.
Variable xfer_write : world -> GwObexXfer -> list byte
                      -> world * xfer_write_res.

Lemma put_xfer_loop_same_handles (fuel : nat) :
  forall (w : world) (x : GwObexXfer) (t : transfer_data)
         (w' : world) (t' : transfer_data) (tr : trace) (ex : loop_exit),
    put_xfer_loop sys_read xfer_write fuel w x t = Ok (w', t', tr, ex) ->
    same_handles t t'.
Proof.
  induction fuel as [ | fuel IH]; intros w x t w' t' tr ex H;
    simpl in H; [discriminate | ].
  destruct (sys_read w (fd t) (buffer_len t - filled t)) as [w1 r].
  destruct r as [bytes | errno].
  - bind_inv H. apply poke_same_handles in Ha.
    simpl in H.
    destruct (filled a + Zlength bytes =? 0).
    + ok_inv H. eapply same_handles_trans; [exact Ha | repeat split].
    + bind_inv H.
      destruct (xfer_write w1 x a0) as [w2 r2].
      destruct r2 as [written | e].
      * simpl in H.
        destruct (filled a + Zlength bytes - written =? 0).
        -- bind_inv H. destruct a1 as [[[w3 t3] tr3] ex3].
           ok_inv H. apply IH in Ha1.
           eapply same_handles_trans; [exact Ha | ].
           eapply same_handles_trans; [ | exact Ha1]. repeat split.
        -- ok_inv H.
           eapply same_handles_trans; [exact Ha | repeat split].
      * ok_inv H. eapply same_handles_trans; [exact Ha | repeat split].
  - ok_inv H. apply same_handles_refl.
Qed.

Lemma put_xfer_progress_same_handles (fuel : nat) (w : world)
    (x : GwObexXfer) (t : transfer_data)
    (w' : world) (t' : transfer_data) (tr : trace) (ex : loop_exit) :
  put_xfer_progress sys_read xfer_write fuel w x t = Ok (w', t', tr, ex) ->
  same_handles t t'.
Proof.
  unfold put_xfer_progress, progress_done.
  set (t0 := if buffer_len t =? 0 then _ else t).
  assert (H0 : same_handles t t0)
    by (subst t0; destruct (_ =? 0); repeat split).
  clearbody t0. intros H.
  bind_inv H. destruct a as [[[w1 t1] tr1] ex1].
  apply put_xfer_loop_same_handles in Ha.
  bind_inv H. ok_inv H.
  eapply same_handles_trans; [exact H0 | ].
  eapply same_handles_trans; [exact Ha | ].
  destruct ex; try (ok_inv Ha0; apply same_handles_refl).
  bind_inv Ha0. ok_inv Ha0. apply with_block_same_handles.
Qed.

End PutFileFrame.

(** ** The transport handle across continuation steps *)

Lemma continuation_step_same_handles (t t' : transfer_data) (tr : trace) :
  continuation_step t t' tr -> same_handles t t'.
Proof.
  intros H. destruct H as [ ? ? ? ? ? ? ? H | ? ? ? ? ? ? ? ? H
                          | ? ? ? ? ? ? H | ? ? ? ? ? ? ? ? ? ? ? H ].
  - eapply get_xfer_listing_progress_same_handles; eauto.
  - eapply get_xfer_progress_same_handles; eauto.
  - eapply put_buf_xfer_progress_same_handles; eauto.
  - eapply put_xfer_progress_same_handles; eauto.
Qed.

(** C2 (as amended): no continuation step clears the transport handle, not
    even one that reports completion or an error through the callback; the
    handle is cleared by abort.  An abort after such a step therefore still
    finds the handle, tears it down and delivers one cancellation callback;
    only a further abort is a no-op with no callback. *)
Theorem transport_handle_cleared_by_abort_only
    (t t' : transfer_data) (tr : trace) :
  continuation_step t t' tr ->
  xfer t' = xfer t /\
  xfer (fst (transfer_abort t')) = None /\
  (forall x cb,
      xfer t = Some x -> callback t = Some cb ->
      snd (transfer_abort t')
      = [XferAbort x; XferFree x;
         Callback cb (transferred t') (- ECANCELED)] /\
      transfer_abort (fst (transfer_abort t'))
      = (fst (transfer_abort t'), [])).
Proof.
  intros H. apply continuation_step_same_handles in H.
  destruct H as (Hx & Hcb & _).
  split; [exact Hx | ]. split; [apply transfer_abort_clears | ].
  intros x cb Ex Ecb.
  rewrite (transfer_abort_set t' x) by congruence.
  rewrite Hcb, Ecb. simpl. split; reflexivity.
Qed.

Lemma transport_handle_cleared_by_abort_only_witness :
  exists t' tr,
    continuation_step receiving_file_transfer t' tr /\
    xfer t' = Some 7%nat /\
    snd (transfer_abort t')
    = [XferAbort 7%nat; XferFree 7%nat;
       Callback example_callback (transferred t') (- ECANCELED)].
Proof.
  destruct (get_xfer_progress 7%nat receiving_file_transfer
              (XferReadOk last_chunk) 10000 1808 0)
    as [[t' tr] | | ] eqn:E; try (vm_compute in E; discriminate).
  assert (S : continuation_step receiving_file_transfer t' tr)
    by (eapply step_get; exact E).
  exists t', tr. split; [exact S | ].
  destruct (transport_handle_cleared_by_abort_only _ _ _ S)
    as (Hx & _ & Habort).
  split; [rewrite Hx; reflexivity | ].
  exact (proj1 (Habort 7%nat example_callback eq_refl eq_refl)).
Defined.

(** C2 (as stated) fails: the step that receives the last 1808 bytes of a
    10000-byte file reports completion (transferred = size = 10000, error 0,
    no further request), yet the handle is still set afterwards and an abort
    delivers a cancellation callback. *)
Lemma abort_after_completion_delivers_cancel :
  match get_xfer_progress 7%nat receiving_file_transfer
          (XferReadOk last_chunk) 10000 1808 0 with
  | Ok (t', tr) =>
      transferred t' = size t' /\
      callbacks tr = [Callback example_callback 10000 0] /\
      filter is_flush tr = [] /\
      xfer t' = Some 7%nat /\
      callbacks (snd (transfer_abort t'))
      = [Callback example_callback 10000 (- ECANCELED)]
  | _ => False
  end.
Proof. vm_compute. repeat split. Qed.

(** C1 (as amended): abort without a transport handle changes nothing and
    invokes no callback.  No handle is present on a transfer just registered
    and on one already aborted; a continuation step never clears the handle,
    so a transfer whose exchange completed or failed still has it and abort
    is no no-op there.  Abort with a handle aborts and frees the handle,
    clears it and invokes the callback, when one is registered, once with
    the current transferred count and -ECANCELED; a second abort right after
    it is the no-op, so both together deliver the cancellation callback
    exactly once, or not at all when none is registered. *)
Theorem transfer_abort_exactly_once (t : transfer_data) :
  (xfer t = None -> transfer_abort t = (t, [])) /\
  (forall counter filename' name' type' params' registered c,
      transfer_register counter filename' name' type' params' registered
      = (Some t, c) ->
      xfer t = None) /\
  (forall t' tr, continuation_step t t' tr -> xfer t' = xfer t) /\
  (forall x,
      xfer t = Some x ->
      let cancel := invoke (callback t) (transferred t) (- ECANCELED) in
      let (t1, tr1) := transfer_abort t in
      let (t2, tr2) := transfer_abort t1 in
      t1 = set_xfer None t /\ xfer t1 = None /\
      tr1 = [XferAbort x; XferFree x] ++ cancel /\
      t2 = t1 /\ tr2 = [] /\
      callbacks (tr1 ++ tr2) = cancel).
Proof.
  split; [apply transfer_abort_unset | ]. split; [ | split].
  - intros counter filename' name' type' params' registered c H.
    unfold transfer_register in H.
    destruct (obex_specific_type type');
      [ | destruct registered; [ | discriminate H]];
      injection H as <- _; reflexivity.
  - intros t' tr H. apply continuation_step_same_handles in H.
    exact (proj1 H).
  - intros x Hx.
    rewrite (transfer_abort_set t x Hx).
    rewrite transfer_abort_unset by reflexivity.
    repeat split; try reflexivity.
    destruct (callback t); reflexivity.
Qed.

Lemma transfer_abort_exactly_once_witness :
  transfer_abort created_file_transfer = (created_file_transfer, []) /\
  callbacks (snd (transfer_abort started_file_transfer)
             ++ snd (transfer_abort
                       (fst (transfer_abort started_file_transfer))))
  = [Callback example_callback 0 (- ECANCELED)] /\
  snd (transfer_abort (set_callback None started_file_transfer))
  = [XferAbort 7%nat; XferFree 7%nat].
Proof.
  split; [ | split].
  - exact (proj1 (transfer_abort_exactly_once created_file_transfer)
                 eq_refl).
  - pose proof (proj2 (proj2 (proj2 (transfer_abort_exactly_once
                                       started_file_transfer)))
                      7%nat eq_refl) as H.
    simpl in H. destruct H as (_ & _ & _ & _ & _ & H). exact H.
  - pose proof (proj2 (proj2 (proj2 (transfer_abort_exactly_once
                                       (set_callback None
                                          started_file_transfer))))
                      7%nat eq_refl) as H.
    simpl in H. destruct H as (_ & _ & H & _). exact H.
Defined.

(** C1 (as stated) fails for an already-terminal state: a GET whose read
    fails reports the error through the callback and asks for nothing more,
    yet the handle is still set afterwards, and an abort is no no-op: it
    clears the handle and delivers a cancellation callback. *)
Lemma abort_after_failure_is_not_a_noop :
  match get_xfer_progress 7%nat receiving_file_transfer
          (XferReadFail EIO) 10000 0 0 with
  | Ok (t', tr) =>
      callbacks tr = [Callback example_callback 8192 EIO] /\
      filter is_flush tr = [] /\
      xfer t' = Some 7%nat /\
      xfer (fst (transfer_abort t')) = None /\
      snd (transfer_abort t')
      = [XferAbort 7%nat; XferFree 7%nat;
         Callback example_callback 8192 (- ECANCELED)]
  | _ => False
  end.
Proof. vm_compute. repeat split. Qed.

(** ** strlen *)

Lemma strlen_Ok (b : block) (n : Z) :
  strlen b = Ok n ->
  0 <= n < Zlength b /\
  nth (Z.to_nat n) b NUL = NUL /\
  forall i, (i < Z.to_nat n)%nat -> nth i b NUL <> NUL.
Proof.
  revert n. induction b as [ | c b IH]; intros n H; cbn [strlen] in H.
  - discriminate.
  - rewrite Zlength_cons.
    destruct (Byte.eqb c NUL) eqn:E.
    + ok_inv H. pose proof (Zlength_nonneg b).
      split; [lia | split].
      * simpl. apply Byte.byte_dec_bl in E. exact E.
      * intros i Hi. simpl in Hi. lia.
    + bind_inv H. ok_inv H. destruct (IH _ Ha) as (H1 & H2 & H3).
      split; [lia | split].
      * replace (Z.to_nat (a + 1)) with (S (Z.to_nat a)) by lia. exact H2.
      * intros i Hi.
        replace (Z.to_nat (a + 1)) with (S (Z.to_nat a)) in Hi by lia.
        destruct i as [ | i]; simpl.
        -- intros ->. vm_compute in E. discriminate.
        -- apply H3. lia.
Qed.

(** A terminator at index [k] bounds the string length by [k]. *)
Lemma strlen_le (b : block) (k n : Z) :
  load b k = Ok NUL -> strlen b = Ok n -> n <= k.
Proof.
  intros Hl Hs. apply load_Ok in Hl. destruct Hl as (Hk & Hn).
  apply strlen_Ok in Hs. destruct Hs as (H1 & _ & H3).
  destruct (Z_le_gt_dec n k) as [ | G]; [assumption | exfalso].
  apply (H3 (Z.to_nat k)); [lia | congruence].
Qed.


(** ** GET, listing accumulation *)

Lemma store_one_load (b : block) (off : Z) (c : byte) (b' : block) :
  store b off [c] = Ok b' -> load b' off = Ok c.
Proof.
  intros H. pose proof (store_Zlength _ _ _ _ H) as HL.
  apply store_Ok in H. destruct H as (H1 & H2 & ->).
  change (Zlength [c]) with 1 in *.
  unfold load.
  destruct (0 <=? off) eqn:E1; [ | apply Z.leb_gt in E1; lia].
  destruct (off <? Zlength _) eqn:E2; [ | apply Z.ltb_ge in E2; lia].
  simpl. f_equal.
  rewrite app_nth2; rewrite length_firstn;
    rewrite Zlength_correct in H2; [ | lia].
  replace (Z.to_nat off - Nat.min (Z.to_nat off) (List.length b))%nat
    with O by lia.
  reflexivity.
Qed.

Lemma g_realloc_prefix (junk : nat -> byte) (b : block) (m : Z) (n : nat) :
  (n <= List.length b)%nat ->
  (n <= List.length (g_realloc junk b m))%nat ->
  firstn n (g_realloc junk b m) = firstn n b.
Proof.
  unfold g_realloc. intros H1 H2.
  rewrite length_firstn in H2.
  rewrite firstn_firstn.
  replace (Nat.min n (Z.to_nat m)) with n by lia.
  rewrite firstn_app.
  replace (n - List.length b)%nat with O by lia.
  simpl. apply app_nil_r.
Qed.

Lemma g_new0_Zlength (n : Z) : 0 <= n -> Zlength (g_new0 n) = n.
Proof.
  intros H. unfold g_new0. rewrite Zlength_correct, repeat_length. lia.
Qed.

Lemma g_realloc_Zlength (junk : nat -> byte) (b : block) (m : Z) :
  Zlength (g_realloc junk b m) = Z.max 0 m.
Proof.
  unfold g_realloc. rewrite Zlength_correct.
  rewrite length_firstn, length_app, length_map, length_seq. lia.
Qed.

Lemma listing_accept_Ok (t : transfer_data) (chunk : list byte)
    (t1 : transfer_data) :
  listing_accept t chunk = Ok t1 ->
  store (mem (buffer t)) (filled t) chunk = Ok (mem (buffer t1)) /\
  filled t1 = filled t + Zlength chunk /\
  0 <= filled t /\ filled t1 <= Zlength (mem (buffer t1)) /\
  buffer_len t1 = buffer_len t /\ err t1 = err t /\
  callback t1 = callback t.
Proof.
  unfold listing_accept. intros H. bind_inv H. ok_inv H.
  pose proof (poke_fields _ _ _ _ Ha) as F.
  apply poke_Ok in Ha. destruct Ha as (b & Hs & -> & Hb).
  simpl. rewrite Hb.
  pose proof (store_Zlength _ _ _ _ Hs) as HL.
  pose proof (store_Ok _ _ _ _ Hs) as (H1 & H2 & _).
  repeat split; try tauto; try lia.
Qed.

Lemma listing_done_Ok (t : transfer_data) (tr : trace)
    (t' : transfer_data) (tr' : trace) :
  listing_done t tr = Ok (t', tr') ->
  strlen (mem (buffer t)) = Ok (size t') /\
  t' = set_size (size t') t /\
  tr' = tr ++ invoke (callback t) (size t') (err t).
Proof.
  unfold listing_done. intros H. bind_inv H. ok_inv H. simpl. auto.
Qed.

(** What the handler does once the object is fully delivered. *)
Lemma listing_terminate_Ok (junk : nat -> byte) (t : transfer_data)
    (tr : trace) (t' : transfer_data) (tr' : trace) :
  listing_terminate junk t tr = Ok (t', tr') ->
  let n := filled t in
  let last := nth (Z.to_nat (n - 1)) (mem (buffer t)) NUL in
  1 <= n <= Zlength (mem (buffer t)) /\
  filled t' = n /\
  (last = NUL -> buffer t' = buffer t /\ buffer_len t' = buffer_len t) /\
  (last <> NUL ->
   load (mem (buffer t')) n = Ok NUL /\
   firstn (Z.to_nat n) (mem (buffer t'))
   = firstn (Z.to_nat n) (mem (buffer t)) /\
   buffer_len t' = if buffer_len t - n <? 1
                   then buffer_len t + DEFAULT_BUFFER_SIZE
                   else buffer_len t) /\
  strlen (mem (buffer t')) = Ok (size t') /\
  0 <= size t' <= n /\
  tr' = tr ++ invoke (callback t) (size t') (err t).
Proof.
  intros H n last. unfold listing_terminate in H. bind_inv H.
  pose proof (load_Ok _ _ _ Ha) as (Hbound & Hlast).
  fold n in Hbound, Hlast. fold last in Hlast. subst a.
  split; [lia | ].
  destruct (Byte.eqb last NUL) eqn:E.
  - apply Byte.byte_dec_bl in E.
    apply listing_done_Ok in H. destruct H as (Hs & Ht & Htr).
    assert (B : buffer t' = buffer t) by (rewrite Ht; reflexivity).
    assert (BL : buffer_len t' = buffer_len t) by (rewrite Ht; reflexivity).
    assert (FL : filled t' = n) by (rewrite Ht; reflexivity).
    rewrite B.
    split; [exact FL | ]. split; [auto | ].
    split; [intros C; contradiction | ].
    split; [exact Hs | ]. split; [ | exact Htr].
    pose proof (strlen_Ok _ _ Hs) as (? & _).
    assert (size t' <= n - 1); [ | lia].
    eapply strlen_le; [ | exact Hs]. rewrite <- E. exact Ha.
  - assert (Hne : last <> NUL)
      by (intros C; rewrite C in E; vm_compute in E; discriminate).
    bind_inv H.
    set (t2 := if buffer_len t - filled t <? 1 then grow junk t else t)
      in *.
    assert (F2 : filled t2 = n /\ err t2 = err t /\
                 callback t2 = callback t /\
                 buffer_len t2 = (if buffer_len t - n <? 1
                                  then buffer_len t + DEFAULT_BUFFER_SIZE
                                  else buffer_len t)).
    { subst t2 n. destruct (_ <? 1); simpl; auto. }
    destruct F2 as (F21 & F22 & F23 & F24).
    pose proof (poke_fields _ _ _ _ Ha0) as F.
    apply poke_Ok in Ha0. destruct Ha0 as (b & Hs & Ha0 & Hb).
    apply listing_done_Ok in H. destruct H as (Hlen & Ht & Htr).
    rewrite F21 in Hs.
    assert (Hload : load (mem (buffer a)) n = Ok NUL)
      by (rewrite Hb; eapply store_one_load; eauto).
    assert (Hpre : firstn (Z.to_nat n) (mem (buffer a))
                   = firstn (Z.to_nat n) (mem (buffer t))).
    { rewrite Hb. rewrite (store_prefix _ _ _ _ Hs).
      pose proof (store_Ok _ _ _ _ Hs) as (_ & Hfit & _).
      change (Zlength [NUL]) with 1 in Hfit.
      subst t2. destruct (buffer_len t - filled t <? 1); [ | reflexivity].
      simpl in *. rewrite Zlength_correct in Hfit.
      apply g_realloc_prefix; [ | lia].
      rewrite Zlength_correct in Hbound. lia. }
    assert (B : buffer t' = buffer a) by (rewrite Ht; reflexivity).
    assert (BL : buffer_len t' = buffer_len a) by (rewrite Ht; reflexivity).
    assert (FL : filled t' = filled a) by (rewrite Ht; reflexivity).
    rewrite B, BL, FL.
    split; [lia | ]. split; [intros C; contradiction | ].
    split.
    { intros _. split; [exact Hload | ]. split; [exact Hpre | lia]. }
    split; [exact Hlen | ]. split.
    + pose proof (strlen_Ok _ _ Hlen) as (? & _).
      pose proof (strlen_le _ _ _ Hload Hlen). lia.
    + rewrite Htr. destruct F as (_ & -> & _ & _ & _ & _ & _ & _ & ->).
      rewrite F22, F23. reflexivity.
Qed.

Lemma listing_reserve_fields (junk : nat -> byte) (t : transfer_data) :
  filled (fst (listing_reserve junk t)) = filled t /\
  err (fst (listing_reserve junk t)) = err t /\
  callback (fst (listing_reserve junk t)) = callback t.
Proof.
  unfold listing_reserve. destruct (_ <? _); simpl; auto.
Qed.


(** Scenario C: "Alice" followed by NUL "Bob" marked final.  The last byte
    is not a terminator, so one is appended after the nine accumulated
    bytes, and the reported size is 5, the length up to the first one. *)
Example scenario_c :
  match get_xfer_listing_progress example_junk 7%nat alice_listing_transfer
          (XferReadOk bob_chunk) true with
  | Ok (t', tr) =>
      firstn 10 (mem (buffer t'))
      = alice_chunk ++ bob_chunk ++ [NUL] /\
      filled t' = 9 /\ size t' = 5 /\
      callbacks tr = [Callback example_callback 5 0]
  | _ => False
  end.
Proof. vm_compute. repeat split. Qed.

Lemma load_safe (b : block) (i : Z) :
  0 <= i < Zlength b -> exists c, load b i = Ok c.
Proof.
  intros (H1 & H2). unfold load.
  apply Z.leb_le in H1. apply Z.ltb_lt in H2. rewrite H1, H2. simpl.
  eexists; reflexivity.
Qed.

Lemma load_Fault (b : block) (i : Z) (f : fault) :
  load b i = Fault f -> f = OutOfBounds i 1 /\ ~ 0 <= i < Zlength b.
Proof.
  unfold load.
  destruct (0 <=? i) eqn:E1; destruct (i <? Zlength b) eqn:E2; simpl;
    intros H; try discriminate; injection H as <-;
    (split; [reflexivity | ]);
    try apply Z.leb_gt in E1; try apply Z.ltb_ge in E2; lia.
Qed.

Lemma listing_done_Fault (t : transfer_data) (tr : trace) (f : fault) :
  listing_done t tr = Fault f -> f = Unterminated.
Proof.
  unfold listing_done.
  assert (S : forall b f', strlen b = Fault f' -> f' = Unterminated).
  { induction b as [ | c b IH]; simpl; intros f' H.
    - injection H as <-. reflexivity.
    - destruct (Byte.eqb c NUL); [discriminate | ].
      destruct (strlen b) eqn:E; simpl in H; try discriminate.
      injection H as <-. apply IH. reflexivity. }
  destruct (strlen (mem (buffer t))) eqn:E; simpl; intros H;
    try discriminate.
  injection H as <-. eapply S; eauto.
Qed.

Lemma poke_Fault (t : transfer_data) (off : Z) (bytes : list byte)
    (f : fault) :
  poke t off bytes = Fault f -> f = OutOfBounds off (Zlength bytes).
Proof.
  unfold poke, store.
  destruct (_ && _); simpl; intros H; [discriminate | ].
  injection H as <-. reflexivity.
Qed.

(** C10: once the object is fully delivered the terminator check reads the
    buffer at index filled - 1, filled counting the bytes accumulated so
    far, this chunk included.  The read is inside the buffer exactly when
    filled >= 1; otherwise the handler faults on that index, and a listing
    that completes with zero accumulated bytes reads index -1. *)
Theorem listing_terminator_check_bounds
    (junk : nat -> byte) (x : GwObexXfer) (t : transfer_data)
    (chunk : list byte) :
  (forall t1,
      listing_accept (fst (listing_reserve junk t)) chunk = Ok t1 ->
      filled t1 = filled t + Zlength chunk /\
      (1 <= filled t1 <->
       exists c, load (mem (buffer t1)) (filled t1 - 1) = Ok c) /\
      (filled t1 < 1 <->
       get_xfer_listing_progress junk x t (XferReadOk chunk) true
       = Fault (OutOfBounds (filled t1 - 1) 1))) /\
  (filled t = 0 -> chunk = [] ->
   get_xfer_listing_progress junk x t (XferReadOk chunk) true
   = Fault (OutOfBounds (-1) 1)).
Proof.
  assert (Main : forall t1,
      listing_accept (fst (listing_reserve junk t)) chunk = Ok t1 ->
      filled t1 = filled t + Zlength chunk /\
      (1 <= filled t1 <->
       exists c, load (mem (buffer t1)) (filled t1 - 1) = Ok c) /\
      (filled t1 < 1 <->
       get_xfer_listing_progress junk x t (XferReadOk chunk) true
       = Fault (OutOfBounds (filled t1 - 1) 1))).
  { intros t1 H.
    pose proof (listing_reserve_fields junk t) as (R1 & _).
    pose proof (listing_accept_Ok _ _ _ H) as (_ & A1 & A2 & A3 & _).
    rewrite R1 in A1, A2.
    unfold get_xfer_listing_progress.
    destruct (listing_reserve junk t) as [t0 bsize]. simpl in H.
    rewrite H. simpl. unfold listing_terminate.
    split; [exact A1 | ]. split; [split | split].
    - intros G. apply load_safe. lia.
    - intros (c & Hc). apply load_Ok in Hc. lia.
    - intros G.
      destruct (load (mem (buffer t1)) (filled t1 - 1)) as [c | f | ] eqn:E.
      + apply load_Ok in E. lia.
      + apply load_Fault in E. destruct E as (-> & _). reflexivity.
      + unfold load in E. destruct (_ && _); discriminate.
    - intros G.
      destruct (load (mem (buffer t1)) (filled t1 - 1)) as [c | f | ] eqn:E.
      + exfalso. simpl in G.
        destruct (Byte.eqb c NUL).
        * apply listing_done_Fault in G. discriminate.
        * set (t2 := if buffer_len t1 - filled t1 <? 1
                     then grow junk t1 else t1) in *.
          assert (F2 : filled t2 = filled t1)
            by (subst t2; destruct (_ <? 1); reflexivity).
          destruct (poke t2 (filled t2) [NUL]) as [t3 | f | ] eqn:P;
            simpl in G.
          -- apply listing_done_Fault in G. discriminate.
          -- apply poke_Fault in P. subst f. injection G as G. lia.
          -- discriminate.
      + apply load_Fault in E. destruct E as (_ & E).
        destruct (Z_lt_ge_dec (filled t1) 1); [assumption | lia].
      + discriminate. }
  split; [exact Main | ].
  intros Hf ->.
  pose proof (listing_reserve_fields junk t) as (R1 & _).
  destruct (listing_accept (fst (listing_reserve junk t)) [])
    as [t1 | f | ] eqn:E.
  - destruct (Main t1 eq_refl) as (M1 & _ & M3).
    change (Zlength []) with 0 in M1.
    replace (-1) with (filled t1 - 1) by lia. apply M3. lia.
  - exfalso. unfold listing_accept in E.
    destruct (poke _ _ _) eqn:P; simpl in E; try discriminate.
    unfold poke in P.
    destruct (store_safe (mem (buffer (fst (listing_reserve junk t))))
                (filled (fst (listing_reserve junk t))) [])
      as (b' & Hb').
    + lia.
    + change (Zlength []) with 0. pose proof (Zlength_nonneg
        (mem (buffer (fst (listing_reserve junk t))))). lia.
    + rewrite Hb' in P. discriminate.
  - exfalso. unfold listing_accept, poke, store in E.
    destruct (_ && _); discriminate.
Qed.

Lemma listing_terminator_check_bounds_witness :
  get_xfer_listing_progress example_junk 7%nat started_listing_transfer
    (XferReadOk []) true = Fault (OutOfBounds (-1) 1) /\
  exists t1,
    listing_accept (fst (listing_reserve example_junk
                           alice_listing_transfer)) bob_chunk = Ok t1 /\
    filled t1 = 9 /\
    exists c, load (mem (buffer t1)) (filled t1 - 1) = Ok c.
Proof.
  split.
  - exact (proj2 (listing_terminator_check_bounds example_junk 7%nat
                    started_listing_transfer []) eq_refl eq_refl).
  - destruct (listing_accept (fst (listing_reserve example_junk
                                     alice_listing_transfer)) bob_chunk)
      as [t1 | | ] eqn:E; try (vm_compute in E; discriminate).
    exists t1. split; [reflexivity | ].
    destruct (proj1 (listing_terminator_check_bounds example_junk 7%nat
                       alice_listing_transfer bob_chunk) t1 E)
      as (Hf & Hin & _).
    assert (F : filled t1 = 9) by (rewrite Hf; reflexivity).
    split; [exact F | ]. apply (proj1 Hin). rewrite F. lia.
Defined.

Lemma strlen_total (b : block) (i : nat) :
  (i < List.length b)%nat -> nth i b NUL = NUL ->
  exists n, strlen b = Ok n.
Proof.
  revert i. induction b as [ | c b IH]; intros i Hi Hn; simpl in *.
  - lia.
  - destruct (Byte.eqb c NUL) eqn:E; [eexists; reflexivity | ].
    destruct i as [ | i].
    + subst c. vm_compute in E. discriminate.
    + destruct (IH i) as (n & Hs); [lia | assumption | ].
      rewrite Hs. simpl. eexists; reflexivity.
Qed.

Lemma listing_done_safe (t : transfer_data) (tr : trace) (k : Z) :
  load (mem (buffer t)) k = Ok NUL ->
  exists n, listing_done t tr
            = Ok (set_size n t, tr ++ invoke (callback t) n (err t)).
Proof.
  intros H. apply load_Ok in H. destruct H as (Hk & Hn).
  destruct (strlen_total (mem (buffer t)) (Z.to_nat k)) as (n & Hs).
  - rewrite Zlength_correct in Hk. lia.
  - congruence.
  - exists n. unfold listing_done. rewrite Hs. reflexivity.
Qed.

(** With the buffer invariant, a chunk no longer than the [bsize] offered
    to the transport and at least one accumulated byte, the listing handler
    runs to its end and re-establishes the invariant. *)
Lemma get_xfer_listing_progress_safe (junk : nat -> byte) (x : GwObexXfer)
    (t : transfer_data) (chunk : list byte) (od : bool) :
  buffer_ok t ->
  Zlength chunk <= snd (listing_reserve junk t) ->
  1 <= filled t + Zlength chunk ->
  exists t' tr,
    get_xfer_listing_progress junk x t (XferReadOk chunk) od = Ok (t', tr)
    /\ buffer_ok t'.
Proof.
  intros ((I1 & I2) & I3) Hfit Hone.
  unfold get_xfer_listing_progress.
  assert (R : buffer_ok (fst (listing_reserve junk t)) /\
              filled (fst (listing_reserve junk t)) = filled t /\
              filled t + snd (listing_reserve junk t)
              <= buffer_len (fst (listing_reserve junk t))).
  { unfold listing_reserve, buffer_ok.
    destruct (buffer_len t - filled t <? DEFAULT_BUFFER_SIZE) eqn:E;
      simpl.
    - rewrite g_realloc_Zlength. unfold DEFAULT_BUFFER_SIZE. lia.
    - lia. }
  destruct (listing_reserve junk t) as [t0 bsize]. simpl in *.
  destruct R as (((J1 & J2) & J3) & J4 & J5).
  destruct (store_safe (mem (buffer t0)) (filled t0) chunk) as (b & Hb);
    [lia | lia | ].
  assert (A : listing_accept t0 chunk
              = Ok (set_filled (filled t0 + Zlength chunk)
                               (with_block b t0)))
    by (unfold listing_accept, poke; rewrite Hb; simpl;
        destruct (with_block_fields b t0) as (_ & _ & _ & _ & _ & _ & _
                                              & -> & _); reflexivity).
  rewrite A. simpl.
  set (t1 := set_filled (filled t0 + Zlength chunk) (with_block b t0)).
  assert (K : buffer_ok t1 /\ filled t1 = filled t + Zlength chunk).
  { pose proof (listing_accept_Ok _ _ _ A) as (S1 & S2 & _ & S4 & S5 & _).
    fold t1 in S1, S2, S4, S5.
    pose proof (store_Zlength _ _ _ _ S1).
    pose proof (Zlength_nonneg chunk).
    clearbody t1. unfold buffer_ok. lia. }
  destruct K as (((K1 & K2) & K3) & K4). clearbody t1.
  destruct od; [ | exists t1; eexists; split;
                   [reflexivity | unfold buffer_ok; lia]].
  unfold listing_terminate.
  destruct (load_safe (mem (buffer t1)) (filled t1 - 1)) as (c & Hc);
    [lia | ].
  rewrite Hc. simpl.
  destruct (Byte.eqb c NUL) eqn:E.
  - apply Byte.byte_dec_bl in E. subst c.
    destruct (listing_done_safe t1
                [XferRead x (filled t0) bsize true (Zlength chunk)] _ Hc)
      as (n & Hn).
    rewrite Hn. do 2 eexists. split; [reflexivity | ].
    unfold buffer_ok. simpl. lia.
  - set (t2 := if buffer_len t1 - filled t1 <? 1
               then grow junk t1 else t1).
    assert (G : filled t2 = filled t1 /\
                Zlength (mem (buffer t2)) = buffer_len t2 /\
                filled t2 + 1 <= buffer_len t2).
    { subst t2. destruct (buffer_len t1 - filled t1 <? 1) eqn:E2; simpl.
      - rewrite g_realloc_Zlength. unfold DEFAULT_BUFFER_SIZE. lia.
      - apply Z.ltb_ge in E2. lia. }
    destruct G as (G1 & G2 & G3).
    destruct (store_safe (mem (buffer t2)) (filled t2) [NUL])
      as (b2 & Hb2); [lia | change (Zlength [NUL]) with 1; lia | ].
    assert (P : poke t2 (filled t2) [NUL] = Ok (with_block b2 t2))
      by (unfold poke; rewrite Hb2; reflexivity).
    rewrite P. simpl.
    pose proof (poke_fields _ _ _ _ P) as F.
    apply poke_Ok in P. destruct P as (b3 & Hb3 & _ & Hm).
    rewrite Hb2 in Hb3. injection Hb3 as <-.
    assert (L : load (mem (buffer (with_block b2 t2))) (filled t2)
                = Ok NUL)
      by (rewrite Hm; eapply store_one_load; eauto).
    destruct (listing_done_safe (with_block b2 t2)
                [XferRead x (filled t0) bsize true (Zlength chunk)] _ L)
      as (n & Hn).
    rewrite Hn. do 2 eexists. split; [reflexivity | ].
    pose proof (store_Zlength _ _ _ _ Hb2).
    destruct F as (_ & _ & _ & _ & _ & _ & F1 & F2 & _).
    unfold buffer_ok. simpl. rewrite Hm, F1, F2. lia.
Qed.

(** ** GET, file streaming *)

(** The handler after a successful read, path by path. *)
Lemma get_xfer_progress_read (x : GwObexXfer) (t : transfer_data)
    (chunk : list byte) (osz w errno : Z)
    (t' : transfer_data) (tr : trace) :
  get_xfer_progress x t (XferReadOk chunk) osz w errno = Ok (t', tr) ->
  let bread := Zlength chunk in
  let t0 := if buffer_len t =? 0
            then set_buffer (Some (g_new0 DEFAULT_BUFFER_SIZE))
                            (set_buffer_len DEFAULT_BUFFER_SIZE t)
            else t in
  let sz := if size t =? 0 then osz else size t in
  let tr1 := XferRead x (filled t) (buffer_len t0 - filled t) true bread
             :: (if size t =? 0 then [XferObjectSize x osz] else []) in
  let fin := if transferred t + bread =? sz then [] else [XferFlush x] in
  exists t1,
    poke t0 (filled t0) chunk = Ok t1 /\
    transferred t' = transferred t + bread /\ size t' = sz /\
    buffer t' = buffer t1 /\
    if 0 <? fd t then
      exists bytes,
        slice (mem (buffer t1)) 0 bread = Ok bytes /\
        if w <? 0 then
          err t' = - errno /\ filled t' = filled t + bread /\
          tr = tr1 ++ [SysWrite (fd t) bytes w]
                   ++ invoke (callback t) (transferred t') (- errno)
        else
          err t' = err t /\ filled t' = 0 /\
          tr = tr1 ++ [SysWrite (fd t) bytes w] ++ fin
                   ++ invoke (callback t) (transferred t') (err t)
    else
      err t' = err t /\ filled t' = filled t + bread /\
      tr = tr1 ++ fin ++ invoke (callback t) (transferred t') (err t).
Proof.
  intros H bread t0 sz tr1 fin.
  unfold get_xfer_progress in H. fold t0 in H.
  assert (F0 : filled t0 = filled t /\ size t0 = size t /\ fd t0 = fd t /\
               transferred t0 = transferred t /\ err t0 = err t /\
               callback t0 = callback t)
    by (subst t0; destruct (buffer_len t =? 0); simpl; auto 10).
  destruct F0 as (F1 & F2 & F3 & F4 & F5 & F6).
  clearbody t0.
  bind_inv H. exists a. split; [exact Ha | ].
  apply poke_fields in Ha.
  destruct Ha as (_ & P1 & P2 & _ & P3 & P4 & P5 & P6 & P7).
  subst tr1 fin sz bread. simpl in H.
  rewrite P3, F2 in H.
  destruct (size t =? 0); simpl in H;
    rewrite ?P2, ?P3, ?P4, ?P6, ?F1, ?F2, ?F3, ?F4 in H;
    destruct (0 <? fd t); simpl in H;
    try (bind_inv H; destruct (w <? 0); simpl in H);
    repeat match type of H with
           | (if ?c then _ else _) = _ => destruct c
           end;
    ok_inv H; simpl;
    rewrite ?P1, ?P2, ?P3, ?P4, ?P6, ?P7, ?F1, ?F2, ?F3, ?F4, ?F5, ?F6;
    (split; [reflexivity | ]); (split; [reflexivity | ]);
    (split; [reflexivity | ]);
    try (eexists; split; [eassumption | ]);
    repeat split; rewrite <- ?app_assoc; reflexivity.
Qed.

Lemma get_xfer_progress_read_fail (x : GwObexXfer) (t : transfer_data)
    (e osz w errno : Z) (t' : transfer_data) (tr : trace) :
  get_xfer_progress x t (XferReadFail e) osz w errno = Ok (t', tr) ->
  transferred t' = transferred t /\ size t' = size t /\ err t' = e /\
  filled t' = filled t /\
  exists bsize,
    tr = XferRead x (filled t) bsize false 0
         :: invoke (callback t) (transferred t) e.
Proof.
  unfold get_xfer_progress, progress_done. intros H. ok_inv H.
  destruct (buffer_len t =? 0); simpl; repeat split;
    eexists; reflexivity.
Qed.

(** Scenario A: a 10000-byte object arriving as 4096 + 4096 + 1808 bytes
    gives callbacks with 4096, 8192 and 10000, the first two followed by a
    request for the next chunk. *)
Example scenario_a_first_chunk :
  match get_xfer_progress 7%nat started_file_transfer
          (XferReadOk full_chunk) 10000 4096 0 with
  | Ok (t', tr) =>
      transferred t' = 4096 /\ size t' = 10000 /\ filled t' = 0 /\
      tr = [XferRead 7%nat 0 4096 true 4096; XferObjectSize 7%nat 10000;
            SysWrite 3 full_chunk 4096; XferFlush 7%nat;
            Callback example_callback 4096 0]
  | _ => False
  end.
Proof. vm_compute. repeat split. Qed.

(** Scenario D: abort after the first chunk delivers one callback with
    4096 and -ECANCELED; a second abort delivers nothing. *)
Example scenario_d :
  match get_xfer_progress 7%nat started_file_transfer
          (XferReadOk full_chunk) 10000 4096 0 with
  | Ok (t', _) =>
      let (t1, tr1) := transfer_abort t' in
      let (t2, tr2) := transfer_abort t1 in
      tr1 = [XferAbort 7%nat; XferFree 7%nat;
             Callback example_callback 4096 (- ECANCELED)] /\
      tr2 = [] /\ t2 = t1
  | _ => False
  end.
Proof. vm_compute. repeat split. Qed.

(** C6 (as amended): with an open destination descriptor, a continuation
    step whose read succeeded hands the first bread bytes of the buffer to
    one write call, bread being the size of the chunk just read; these are
    the whole filled region, the chunk itself, when filled was 0 on entry.
    Only a negative return of write is a local I/O failure: the error field
    becomes -errno, it is reported through the callback, nothing is retried
    or requested and filled keeps the chunk.  Any other return, a short
    count included, counts as success: filled is reset to 0 and the error
    field is left alone. *)
Theorem get_xfer_progress_local_write
    (x : GwObexXfer) (t : transfer_data) (chunk : list byte)
    (osz w errno : Z) (t' : transfer_data) (tr : trace) :
  0 < fd t ->
  get_xfer_progress x t (XferReadOk chunk) osz w errno = Ok (t', tr) ->
  exists bytes,
    filter is_sys_write tr = [SysWrite (fd t) bytes w] /\
    bytes = firstn (Z.to_nat (Zlength chunk)) (mem (buffer t')) /\
    (filled t = 0 -> bytes = chunk) /\
    (w < 0 ->
     err t' = - errno /\ filled t' = filled t + Zlength chunk /\
     filter is_flush tr = [] /\
     callbacks tr = invoke (callback t) (transferred t') (- errno)) /\
    (0 <= w -> filled t' = 0 /\ err t' = err t).
Proof.
  intros Hfd H. apply get_xfer_progress_read in H. cbv zeta in H.
  destruct H as (t1 & Hp & Ht & Hs & Hb & H).
  apply Z.ltb_lt in Hfd. rewrite Hfd in H.
  destruct H as (bytes & Hsl & H). exists bytes.
  assert (F0 : filled (if buffer_len t =? 0
                       then set_buffer (Some (g_new0 DEFAULT_BUFFER_SIZE))
                              (set_buffer_len DEFAULT_BUFFER_SIZE t)
                       else t) = filled t)
    by (destruct (buffer_len t =? 0); reflexivity).
  rewrite F0 in Hp.
  assert (Hbytes : bytes
                   = firstn (Z.to_nat (Zlength chunk)) (mem (buffer t'))).
  { apply slice_Ok in Hsl. destruct Hsl as (_ & _ & _ & ->).
    rewrite Hb. reflexivity. }
  assert (Hchunk : filled t = 0 -> bytes = chunk).
  { intros Z0. rewrite Z0 in Hp. apply poke_Ok in Hp.
    destruct Hp as (b & Hst & _ & Hm).
    apply store_written in Hst. simpl in Hst.
    rewrite Hbytes, Hb, Hm, Zlength_correct, Nat2Z.id. exact Hst. }
  destruct (w <? 0) eqn:Ew.
  - apply Z.ltb_lt in Ew. destruct H as (He & Hf & ->).
    split; [ | split; [exact Hbytes | split; [exact Hchunk | split]]].
    + destruct (size t =? 0); destruct (callback t); reflexivity.
    + intros _. split; [exact He | ]. split; [exact Hf | ].
      split; destruct (size t =? 0); destruct (callback t); reflexivity.
    + intros G. lia.
  - apply Z.ltb_ge in Ew. destruct H as (He & Hf & ->).
    split; [ | split; [exact Hbytes | split; [exact Hchunk | split]]].
    + destruct (size t =? 0);
        destruct (transferred t + Zlength chunk =? _);
        destruct (callback t); reflexivity.
    + intros G. lia.
    + intros _. split; assumption.
Qed.

Lemma get_xfer_progress_local_write_witness :
  exists t' tr,
    get_xfer_progress 7%nat short_write_transfer (XferReadOk ten_bytes)
                      100 (-1) ENOSPC = Ok (t', tr) /\
    filter is_sys_write tr = [SysWrite 3 ten_bytes (-1)] /\
    err t' = - ENOSPC /\ filled t' = 10 /\
    callbacks tr = [Callback example_callback 10 (- ENOSPC)].
Proof.
  destruct (get_xfer_progress 7%nat short_write_transfer
              (XferReadOk ten_bytes) 100 (-1) ENOSPC)
    as [[t' tr] | | ] eqn:E; try (vm_compute in E; discriminate).
  exists t', tr. split; [reflexivity | ].
  assert (Hfd : 0 < fd short_write_transfer) by (vm_compute; reflexivity).
  destruct (get_xfer_progress_local_write
              7%nat short_write_transfer ten_bytes 100 (-1) ENOSPC t' tr
              Hfd E)
    as (bytes & Hw & _ & Hchunk & Hfail & _).
  rewrite (Hchunk eq_refl) in Hw.
  destruct Hfail as (He & Hf & _ & Hcb); [lia | ].
  assert (Ht : transferred t' = 10)
    by (vm_compute in E; injection E as <- <-; reflexivity).
  rewrite Ht in Hcb.
  repeat split; assumption.
Defined.

(** C6 (as stated) fails on the short write: write() accepting 4 of the 10
    bytes offered is not treated as a failure.  The error field stays 0,
    filled is reset to 0 (the six unwritten bytes are dropped), the next
    chunk is requested and the callback reports 10 bytes with error 0. *)
Lemma short_local_write_is_not_a_failure :
  match get_xfer_progress 7%nat short_write_transfer (XferReadOk ten_bytes)
          100 4 0 with
  | Ok (t', tr) =>
      filter is_sys_write tr = [SysWrite 3 ten_bytes 4] /\
      err t' = 0 /\ filled t' = 0 /\
      filter is_flush tr = [XferFlush 7%nat] /\
      callbacks tr = [Callback example_callback 10 0]
  | _ => False
  end.
Proof. vm_compute. repeat split. Qed.

(** ** PUT, buffer source *)

(** C7 (as amended): a continuation step entered with transferred equal to
    size performs no transport write and changes nothing; the test comes
    before the write.  A step that writes offers the unsent rest of the
    source buffer; when the write and the flush after it both succeed,
    transferred advances by exactly the count the write reported as
    accepted; when the write or the flush fails, transferred stays as it
    was, whatever the write accepted, and the error is recorded.  Either
    way the callback gets the resulting count. *)
Theorem put_buf_xfer_progress_advance
    (x : GwObexXfer) (t : transfer_data) (wr : xfer_write_res)
    (fl : xfer_flush_res) (t' : transfer_data) (tr : trace) :
  put_buf_xfer_progress x t wr fl = Ok (t', tr) ->
  (transferred t = size t ->
   t' = t /\ filter is_xfer_write tr = []) /\
  (transferred t <> size t ->
   exists bytes,
     slice (mem (buffer t)) (transferred t) (size t - transferred t)
     = Ok bytes /\
     match wr, fl with
     | XferWriteOk written, XferFlushOk =>
         transferred t' = transferred t + written /\ err t' = err t /\
         filter is_xfer_write tr = [XferWrite x bytes true written]
     | XferWriteOk written, XferFlushFail e =>
         transferred t' = transferred t /\ err t' = e /\
         filter is_xfer_write tr = [XferWrite x bytes true written]
     | XferWriteFail e, _ =>
         transferred t' = transferred t /\ err t' = e /\
         filter is_xfer_write tr = [XferWrite x bytes false 0]
     end) /\
  callbacks tr = invoke (callback t) (transferred t') (err t').
Proof.
  unfold put_buf_xfer_progress, progress_done. intros H.
  destruct (transferred t =? size t) eqn:E.
  - apply Z.eqb_eq in E. injection H as <- <-.
    split; [intros _ | split; [intros C; contradiction | ]].
    + split; [reflexivity | ]. destruct (callback t); reflexivity.
    + destruct (callback t); reflexivity.
  - apply Z.eqb_neq in E. bind_inv H.
    split; [intros C; contradiction | ].
    destruct wr as [written | e]; [destruct fl as [ | e] | ];
      injection H as <- <-;
      simpl; (split; [intros _; exists a; split; [exact Ha | ] | ]);
      destruct (callback t); simpl; repeat split.
Qed.

Lemma put_buf_xfer_progress_advance_witness :
  exists t' tr,
    put_buf_xfer_progress 7%nat memory_put_transfer (XferWriteOk 4)
                          XferFlushOk = Ok (t', tr) /\
    transferred t' = 4 /\
    filter is_xfer_write tr
    = [XferWrite 7%nat (list_byte_of_string "hello world") true 4] /\
    callbacks tr = [Callback example_callback 4 0].
Proof.
  destruct (put_buf_xfer_progress 7%nat memory_put_transfer
              (XferWriteOk 4) XferFlushOk)
    as [[t' tr] | | ] eqn:E; try (vm_compute in E; discriminate).
  exists t', tr. split; [reflexivity | ].
  destruct (put_buf_xfer_progress_advance
              7%nat memory_put_transfer (XferWriteOk 4) XferFlushOk
              t' tr E)
    as (_ & Hw & Hcb).
  destruct Hw as (bytes & Hsl & Ht & He & Hwr);
    [vm_compute; discriminate | ].
  vm_compute in Hsl. injection Hsl as <-.
  split; [exact Ht | ]. split; [exact Hwr | ].
  rewrite Hcb, Ht, He. reflexivity.
Defined.

(** C7 (as stated) fails when the flush after the write fails: the
    transport accepts 4 bytes in the write, the flush reports -EIO, and
    transferred stays 0; the callback gets (0, -EIO). *)
Lemma accepted_bytes_not_counted_when_flush_fails :
  match put_buf_xfer_progress 7%nat memory_put_transfer (XferWriteOk 4)
          (XferFlushFail (- EIO)) with
  | Ok (t', tr) =>
      filter is_xfer_write tr
      = [XferWrite 7%nat (list_byte_of_string "hello world") true 4] /\
      transferred memory_put_transfer = 0 /\
      transferred t' = 0 /\
      transferred t' <> transferred memory_put_transfer + 4 /\
      callbacks tr = [Callback example_callback 0 (- EIO)]
  | _ => False
  end.
Proof. vm_compute. repeat split. discriminate. Qed.

(** ** PUT, file source *)

Lemma accepted_app (tr1 tr2 : trace) :
  accepted (tr1 ++ tr2) = accepted tr1 + accepted tr2.
Proof.
  induction tr1 as [ | e tr1 IH]; simpl; [reflexivity | ].
  destruct e; try exact IH. destruct ret; rewrite IH; lia.
Qed.

Lemma filled_after_app (f : Z) (tr1 tr2 : trace) :
  filled_after f (tr1 ++ tr2) = filled_after (filled_after f tr1) tr2.
Proof.
  revert f. induction tr1 as [ | e tr1 IH]; intros f; simpl;
    [reflexivity | ].
  destruct e; try apply IH. destruct ret; apply IH.
Qed.

Lemma buffered_app (cap f : Z) (tr1 tr2 : trace) :
  buffered cap f (tr1 ++ tr2) <->
  buffered cap f tr1 /\ buffered cap (filled_after f tr1) tr2.
Proof.
  revert f. induction tr1 as [ | e tr1 IH]; intros f; simpl.
  - tauto.
  - destruct e; try apply IH.
    + rewrite IH. tauto.
    + destruct ret; rewrite IH; tauto.
Qed.

Section PutFileSpec.

Variable world : Type.
Variable sys_read : world -> Z -> Z -> world * sys_read_res.
Variable xfer_write : world -> GwObexXfer -> list byte
                      -> world * xfer_write_res.

(** The loop, iteration by iteration. *)
Lemma put_xfer_loop_spec (fuel : nat) :
  forall (w : world) (x : GwObexXfer) (t : transfer_data)
         (w' : world) (t' : transfer_data) (tr : trace) (ex : loop_exit),
    put_xfer_loop sys_read xfer_write fuel w x t = Ok (w', t', tr, ex) ->
    buffer_len t' = buffer_len t /\
    (exists r rest,
        tr = SysRead (fd t) (filled t) (buffer_len t - filled t) r
             :: rest) /\
    buffered (buffer_len t) (filled t) tr /\
    filled t' = filled_after (filled t) tr /\
    transferred t' = transferred t + accepted tr /\
    match ex with
    | ReadFailed _ =>
        exists tr0 off count, tr = tr0 ++ [SysRead (fd t) off count (-1)]
    | Exhausted =>
        filled t' = 0 /\
        exists tr0 count, tr = tr0 ++ [SysRead (fd t) 0 count 0]
    | WriteFailed _ =>
        exists tr0 offered, tr = tr0 ++ [XferWrite x offered false 0]
    | LoopEnded written =>
        filled t' <> 0 /\
        exists tr0 offered,
          tr = tr0 ++ [XferWrite x offered true written] /\
          slice (mem (buffer t')) 0 (filled t' + written) = Ok offered
    end.
Proof.
  induction fuel as [ | fuel IH]; intros w x t w' t' tr ex H;
    simpl in H; [discriminate | ].
  destruct (sys_read w (fd t) (buffer_len t - filled t)) as [w1 r].
  destruct r as [bytes | errno].
  - bind_inv H.
    pose proof (poke_fields _ _ _ _ Ha)
      as (_ & _ & P2 & _ & _ & P4 & P5 & P6 & _).
    pose proof (poke_Ok _ _ _ _ Ha) as (b & Hst & _ & _).
    apply store_Ok in Hst. destruct Hst as (Hpos & _ & _).
    pose proof (Zlength_nonneg bytes) as Hlen.
    assert (Hnn : (Zlength bytes <? 0) = false) by (apply Z.ltb_ge; lia).
    simpl in H. rewrite P6 in H.
    destruct (filled t + Zlength bytes =? 0) eqn:E0.
    + apply Z.eqb_eq in E0. injection H as <- <- <- <-. simpl.
      rewrite ?Hnn, ?P5, ?P4, ?P6.
      assert (F0 : filled t = 0) by lia.
      assert (L0 : Zlength bytes = 0) by lia.
      repeat split; try lia; try (do 2 eexists; reflexivity).
      exists [], (buffer_len t - filled t).
      rewrite F0, L0. reflexivity.
    + apply Z.eqb_neq in E0. bind_inv H.
      pose proof (slice_Zlength _ _ _ _ Ha0) as Hoff.
      destruct (xfer_write w1 x a0) as [w2 r2].
      destruct r2 as [written | e].
      * simpl in H.
        destruct (filled t + Zlength bytes - written =? 0) eqn:E1.
        -- apply Z.eqb_eq in E1. bind_inv H.
           destruct a1 as [[[w3 t3] tr3] ex3].
           injection H as <- <- <- <-.
           apply IH in Ha1. simpl in Ha1.
           destruct Ha1 as (I1 & I2 & I3 & I4 & I5 & I6).
           rewrite P5 in I1, I2, I3. rewrite P4 in I5. rewrite P2 in I2, I6.
           rewrite E1 in I3, I4.
           simpl. rewrite Hnn. simpl.
           split; [exact I1 | ].
           split; [do 2 eexists; reflexivity | ].
           split; [repeat split; try lia; rewrite E1; exact I3 | ].
           split; [rewrite E1; exact I4 | ].
           split; [lia | ].
           destruct ex3.
           ++ destruct I6 as (tr0 & off & count & ->).
              eexists (_ :: _ :: tr0), off, count. reflexivity.
           ++ destruct I6 as (I6 & tr0 & count & ->).
              split; [exact I6 | ].
              eexists (_ :: _ :: tr0), count. reflexivity.
           ++ destruct I6 as (tr0 & offered & ->).
              eexists (_ :: _ :: tr0), offered. reflexivity.
           ++ destruct I6 as (I6 & tr0 & offered & -> & Hs).
              split; [exact I6 | ].
              eexists (_ :: _ :: tr0), offered.
              split; [reflexivity | exact Hs].
        -- apply Z.eqb_neq in E1. injection H as <- <- <- <-. simpl.
           rewrite ?Hnn, ?P5, ?P4, ?P6. simpl.
           split; [reflexivity | ].
           split; [do 2 eexists; reflexivity | ].
           split; [repeat split; lia | ].
           split; [reflexivity | ].
           split; [lia | ].
           split; [exact E1 | ].
           eexists [_], a0. split; [reflexivity | ].
           replace (filled t + Zlength bytes - written + written)
             with (filled t + Zlength bytes) by lia.
           exact Ha0.
      * injection H as <- <- <- <-. simpl.
        rewrite ?Hnn, ?P5, ?P4, ?P6. simpl.
        split; [reflexivity | ].
        split; [do 2 eexists; reflexivity | ].
        split; [repeat split; lia | ].
        split; [reflexivity | ].
        split; [lia | ].
        eexists [_], a0. reflexivity.
  - injection H as <- <- <- <-. simpl.
    split; [reflexivity | ].
    split; [do 2 eexists; reflexivity | ].
    split; [repeat split | ].
    split; [reflexivity | ].
    split; [lia | ].
    exists [], (filled t), (buffer_len t - filled t). reflexivity.
Qed.

End PutFileSpec.

Lemma with_block_mem (b : block) (t : transfer_data) :
  Zlength b = Zlength (mem (buffer t)) ->
  mem (buffer (with_block b t)) = b.
Proof.
  unfold with_block. destruct (buffer t) eqn:E; simpl; [reflexivity | ].
  rewrite E. simpl. rewrite Zlength_nil. intros H.
  symmetry. apply Zlength_nil_inv. exact H.
Qed.

(** After [memmove(buffer, buffer + written, n)] the first [n] bytes are
    those that followed the first [written] of the [written + n] bytes at
    the front of the buffer. *)
Lemma memmove_front (b : block) (written n : Z) (b' : block)
    (offered : list byte) :
  memmove b 0 written n = Ok b' ->
  slice b 0 (n + written) = Ok offered ->
  Zlength b' = Zlength b /\
  firstn (Z.to_nat n) b' = skipn (Z.to_nat written) offered.
Proof.
  unfold memmove. intros H Hs. bind_inv H.
  pose proof (slice_Zlength _ _ _ _ Ha) as Hl.
  apply slice_Ok in Ha. destruct Ha as (H1 & H2 & H3 & ->).
  apply slice_Ok in Hs. destruct Hs as (_ & _ & _ & ->).
  split; [eapply store_Zlength; eauto | ].
  apply store_written in H. simpl in H.
  rewrite Zlength_correct in Hl.
  replace (Z.to_nat n)
    with (List.length (firstn (Z.to_nat n) (skipn (Z.to_nat written) b)))
    at 1 by lia.
  rewrite H. simpl.
  rewrite firstn_skipn_comm. f_equal. f_equal. lia.
Qed.

Section PutFileStep.

Variable world : Type.
Variable sys_read : world -> Z -> Z -> world * sys_read_res.
Variable xfer_write : world -> GwObexXfer -> list byte
                      -> world * xfer_write_res.



End PutFileStep.

(** ** The file-source PUT step returns *)

Lemma poke_returns (t : transfer_data) (off : Z) (bytes : list byte) :
  poke t off bytes <> OutOfFuel.
Proof. unfold poke, store. destruct (_ && _); discriminate. Qed.

Lemma slice_returns (b : block) (off len : Z) :
  slice b off len <> OutOfFuel.
Proof. unfold slice. destruct (_ && _); discriminate. Qed.

Lemma slice_safe (b : block) (off len : Z) :
  0 <= off -> 0 <= len -> off + len <= Zlength b ->
  exists bytes, slice b off len = Ok bytes.
Proof.
  intros H1 H2 H3. unfold slice.
  apply Z.leb_le in H1, H2, H3. rewrite H1, H2, H3. simpl.
  eexists; reflexivity.
Qed.

Section PutFileReturns.

Variable world : Type.
Variable sys_read : world -> Z -> Z -> world * sys_read_res.
Variable xfer_write : world -> GwObexXfer -> list byte
                      -> world * xfer_write_res.

(** The source is a file of finite length: [remaining w] bytes are left
    to read, each read consumes what it returns, and the transport does
    not put bytes back. *)
Variable remaining : world -> nat.

Hypothesis read_consumes :
  forall w fd' count w' bytes,
    sys_read w fd' count = (w', SysReadOk bytes) ->
    (remaining w' + List.length bytes <= remaining w)%nat.

Hypothesis write_keeps :
  forall w x bytes w' r,
    xfer_write w x bytes = (w', r) -> (remaining w' <= remaining w)%nat.

Lemma put_xfer_loop_returns (fuel : nat) :
  forall (w : world) (x : GwObexXfer) (t : transfer_data),
    (remaining w + (if (filled t =? 0)%Z then 1 else 2) <= fuel)%nat ->
    put_xfer_loop sys_read xfer_write fuel w x t <> OutOfFuel.
Proof.
  induction fuel as [ | fuel IH]; intros w x t Hfuel.
  - destruct (filled t =? 0); lia.
  - simpl.
    destruct (sys_read w (fd t) (buffer_len t - filled t))
      as [w1 r] eqn:Er.
    destruct r as [bytes | errno]; [ | discriminate].
    apply read_consumes in Er.
    destruct (poke t (filled t) bytes) as [a | f | ] eqn:Ep;
      simpl; [ | discriminate | destruct (poke_returns _ _ _ Ep)].
    apply poke_fields in Ep.
    destruct Ep as (_ & _ & _ & _ & _ & _ & _ & P6 & _). rewrite P6.
    destruct (filled t + Zlength bytes =? 0) eqn:E0; [discriminate | ].
    destruct (slice (mem (buffer a)) 0 (filled t + Zlength bytes))
      as [offered | f | ] eqn:Es;
      simpl; [ | discriminate | destruct (slice_returns _ _ _ Es)].
    destruct (xfer_write w1 x offered) as [w2 r2] eqn:Ew.
    apply write_keeps in Ew.
    destruct r2 as [written | e]; [ | discriminate].
    simpl.
    destruct (filled t + Zlength bytes - written =? 0) eqn:E1;
      [ | discriminate].
    match goal with
    | |- bind ?r _ <> _ => assert (Hr : r <> OutOfFuel)
    end.
    { apply IH. simpl. rewrite E1.
      apply Z.eqb_neq in E0.
      destruct (filled t =? 0) eqn:Ef; [ | lia].
      apply Z.eqb_eq in Ef. rewrite Zlength_correct in E0. lia. }
    match goal with
    | |- bind ?r _ <> _ => destruct r as [[[[w3 t3] tr3] ex3] | | ]
    end; simpl; [discriminate | discriminate | contradiction].
Qed.

(** The transport and the file keep to their contracts: a read returns at
    most [count] bytes, a write accepts between nothing and all of what
    it was offered. *)
Hypothesis read_bounded :
  forall w fd' count w' bytes,
    sys_read w fd' count = (w', SysReadOk bytes) ->
    0 <= count -> Zlength bytes <= count.

Hypothesis write_bounded :
  forall w x bytes w' written,
    xfer_write w x bytes = (w', XferWriteOk written) ->
    0 <= written <= Zlength bytes.

Lemma put_xfer_loop_safe (fuel : nat) :
  forall (w : world) (x : GwObexXfer) (t : transfer_data),
    buffer_ok t ->
    match put_xfer_loop sys_read xfer_write fuel w x t with
    | Ok (_, t', _, ex) =>
        buffer_ok t' /\
        match ex with
        | LoopEnded written => 0 <= written
        | _ => True
        end
    | Fault _ => False
    | OutOfFuel => True
    end.
Proof.
  induction fuel as [ | fuel IH]; intros w x t ((I1 & I2) & I3);
    simpl; [exact I | ].
  destruct (sys_read w (fd t) (buffer_len t - filled t))
    as [w1 r] eqn:Er.
  destruct r as [bytes | errno];
    [ | split; [split; [split | ]; assumption | exact I]].
  apply read_bounded in Er; [ | lia].
  pose proof (Zlength_nonneg bytes) as Hlen.
  destruct (store_safe (mem (buffer t)) (filled t) bytes) as (b & Hb);
    [lia | lia | ].
  assert (P : poke t (filled t) bytes = Ok (with_block b t))
    by (unfold poke; rewrite Hb; reflexivity).
  rewrite P. simpl.
  pose proof (poke_fields _ _ _ _ P)
    as (_ & _ & _ & _ & _ & _ & P5 & P6 & _).
  pose proof (poke_Ok _ _ _ _ P) as (b' & Hb' & _ & Hm).
  rewrite Hb in Hb'. injection Hb' as <-.
  pose proof (store_Zlength _ _ _ _ Hb) as HL.
  rewrite P6.
  destruct (filled t + Zlength bytes =? 0) eqn:E0.
  - split; [ | exact I]. unfold buffer_ok. simpl. rewrite Hm, P5. lia.
  - destruct (slice_safe (mem (buffer (with_block b t))) 0
                (filled t + Zlength bytes)) as (offered & Hs);
      [lia | lia | rewrite Hm; lia | ].
    simpl. rewrite Hs. simpl.
    pose proof (slice_Zlength _ _ _ _ Hs) as Ho.
    destruct (xfer_write w1 x offered) as [w2 r2] eqn:Ew.
    destruct r2 as [written | e].
    + apply write_bounded in Ew. simpl.
      destruct (filled t + Zlength bytes - written =? 0) eqn:E1.
      * match goal with
        | |- context [put_xfer_loop _ _ _ ?w ?x ?t] =>
            specialize (IH w x t)
        end.
        match type of IH with
        | ?A -> _ => assert (Hok : A)
        end.
        { unfold buffer_ok. simpl. rewrite Hm, P5. lia. }
        specialize (IH Hok).
        match goal with
        | |- context [put_xfer_loop _ _ _ ?w ?x ?t] =>
            destruct (put_xfer_loop sys_read xfer_write fuel w x t)
            as [[[[w3 t3] tr3] ex3] | | ]
        end; simpl; assumption.
      * split; [ | lia]. unfold buffer_ok. simpl. rewrite Hm, P5. lia.
    + split; [ | exact I]. unfold buffer_ok. simpl. rewrite Hm, P5. lia.
Qed.

(** With the buffer invariant and fuel beyond the length of the file, the
    step returns and keeps the invariant. *)
Theorem put_xfer_progress_returns
    (fuel : nat) (w : world) (x : GwObexXfer) (t : transfer_data) :
  buffer_ok t ->
  (remaining w + 2 <= fuel)%nat ->
  exists w' t' tr ex,
    put_xfer_progress sys_read xfer_write fuel w x t = Ok (w', t', tr, ex)
    /\ buffer_ok t'.
Proof.
  intros Hok Hfuel. unfold put_xfer_progress, progress_done.
  set (t0 := if buffer_len t =? 0 then _ else t).
  assert (Hok0 : buffer_ok t0).
  { subst t0. destruct (buffer_len t =? 0) eqn:E; [ | exact Hok].
    apply Z.eqb_eq in E. destruct Hok as ((I1 & I2) & I3).
    unfold buffer_ok.
    cbn [buffer filled buffer_len set_buffer set_buffer_len mem].
    rewrite g_new0_Zlength; unfold DEFAULT_BUFFER_SIZE; lia. }
  clearbody t0.
  pose proof (put_xfer_loop_returns fuel w x t0) as Hret.
  pose proof (put_xfer_loop_safe fuel w x t0 Hok0) as Hsafe.
  pose proof (put_xfer_loop_spec world sys_read xfer_write fuel w x t0)
    as Hspec.
  destruct (put_xfer_loop sys_read xfer_write fuel w x t0)
    as [[[[w1 t1] tr1] ex1] | f | ].
  - simpl. destruct Hsafe as (((S1 & S2) & S3) & S4).
    destruct ex1;
      try (do 4 eexists; split;
           [reflexivity | unfold buffer_ok; auto]).
    destruct (Hspec _ _ _ _ eq_refl)
      as (_ & _ & _ & _ & _ & Hne & _ & offered & _ & Hs).
    apply slice_Ok in Hs. destruct Hs as (_ & _ & Hfit & _).
    destruct (slice_safe (mem (buffer t1)) written (filled t1))
      as (bytes & Hb); [lia | lia | lia | ].
    pose proof (slice_Zlength _ _ _ _ Hb) as Hbl.
    destruct (store_safe (mem (buffer t1)) 0 bytes) as (b' & Hb');
      [lia | lia | ].
    unfold memmove. rewrite Hb. simpl. rewrite Hb'. simpl.
    do 4 eexists. split; [reflexivity | ].
    pose proof (store_Zlength _ _ _ _ Hb') as HL.
    destruct (with_block_fields b' t1)
      as (_ & _ & _ & _ & _ & _ & W1 & W2 & _).
    unfold buffer_ok. rewrite with_block_mem by exact HL.
    rewrite W1, W2. lia.
  - contradiction.
  - exfalso. apply Hret; [ | reflexivity].
    destruct (filled t0 =? 0); lia.
Qed.

End PutFileReturns.

(** ** A regular file and a flow-controlled sink *)

Lemma file_read_consumes (w : file_world) (fd' count : Z)
    (w' : file_world) (bytes : list byte) :
  file_read w fd' count = (w', SysReadOk bytes) ->
  (List.length (rest w') + List.length bytes <= List.length (rest w))%nat.
Proof.
  unfold file_read. intros H. injection H as <- <-. simpl.
  rewrite length_skipn, length_firstn. lia.
Qed.

Lemma sink_write_keeps (w : file_world) (x : GwObexXfer)
    (bytes : list byte) (w' : file_world) (r : xfer_write_res) :
  sink_write w x bytes = (w', r) ->
  (List.length (rest w') <= List.length (rest w))%nat.
Proof. unfold sink_write. intros H. injection H as <- _. lia. Qed.

Lemma file_read_bounded (w : file_world) (fd' count : Z)
    (w' : file_world) (bytes : list byte) :
  file_read w fd' count = (w', SysReadOk bytes) ->
  0 <= count -> Zlength bytes <= count.
Proof.
  unfold file_read. intros H Hc. injection H as _ <-.
  rewrite Zlength_correct, length_firstn. lia.
Qed.

Lemma sink_write_bounded (w : file_world) (x : GwObexXfer)
    (bytes : list byte) (w' : file_world) (written : Z) :
  sink_write w x bytes = (w', XferWriteOk written) ->
  0 <= written <= Zlength bytes.
Proof.
  unfold sink_write. intros H. injection H as _ <-.
  pose proof (Zlength_nonneg bytes). lia.
Qed.

(** On a regular file and such a sink every continuation step returns. *)
Corollary file_put_step_returns (w : file_world) (x : GwObexXfer)
    (t : transfer_data) :
  buffer_ok t ->
  exists w' t' tr ex,
    put_xfer_progress file_read sink_write (List.length (rest w) + 2)
                      w x t = Ok (w', t', tr, ex)
    /\ buffer_ok t'.
Proof.
  intros Hok.
  apply (put_xfer_progress_returns file_world file_read sink_write
           (fun w => List.length (rest w))
           file_read_consumes sink_write_keeps
           file_read_bounded sink_write_bounded); [exact Hok | lia].
Qed.

(** Scenario B: the 5000 bytes leave in writes of 2000, 2000 and 1000
    bytes; the third step, having flushed the buffer, reads once more, gets
    nothing and ends through the exhaustion exit. *)
Example scenario_b :
  file_put_steps 3 scenario_b_world file_put_transfer
  = [(2000, 2000, LoopEnded 2000); (2000, 4000, LoopEnded 2000);
     (1000, 5000, Exhausted)].
Proof. vm_compute. reflexivity. Qed.

(** ** The other handlers return *)

Lemma get_xfer_progress_safe (x : GwObexXfer) (t : transfer_data)
    (chunk : list byte) (osz w errno : Z) :
  buffer_ok t ->
  Zlength chunk
  <= (if buffer_len t =? 0 then DEFAULT_BUFFER_SIZE else buffer_len t)
     - filled t ->
  exists t' tr,
    get_xfer_progress x t (XferReadOk chunk) osz w errno = Ok (t', tr).
Proof.
  intros ((I1 & I2) & I3) Hfit.
  unfold get_xfer_progress, progress_done.
  set (t0 := if buffer_len t =? 0 then _ else t).
  assert (H0 : buffer_ok t0 /\ filled t0 = filled t /\
               buffer_len t0 = if buffer_len t =? 0
                               then DEFAULT_BUFFER_SIZE else buffer_len t).
  { subst t0. unfold buffer_ok.
    destruct (buffer_len t =? 0) eqn:E;
      cbn [buffer filled buffer_len set_buffer set_buffer_len mem].
    - apply Z.eqb_eq in E.
      rewrite g_new0_Zlength; unfold DEFAULT_BUFFER_SIZE; lia.
    - lia. }
  destruct H0 as (((J1 & J2) & J3) & J4 & J5). clearbody t0.
  rewrite <- J5 in Hfit.
  pose proof (Zlength_nonneg chunk) as Hlen.
  destruct (store_safe (mem (buffer t0)) (filled t0) chunk) as (b & Hb);
    [lia | lia | ].
  assert (P : poke t0 (filled t0) chunk = Ok (with_block b t0))
    by (unfold poke; rewrite Hb; reflexivity).
  rewrite P. simpl.
  pose proof (store_Zlength _ _ _ _ Hb) as HL.
  destruct (slice_safe (mem (buffer (with_block b t0))) 0 (Zlength chunk))
    as (bytes & Hs);
    [lia | lia | rewrite with_block_mem by exact HL; lia | ].
  destruct (size (with_block b t0) =? 0); simpl;
    destruct (0 <? fd (with_block b t0)); simpl;
    rewrite ?Hs; simpl;
    repeat match goal with
           | |- context [if ?c then _ else _] => destruct c
           end;
    do 2 eexists; reflexivity.
Qed.

(** C5 (as amended): a continuation step of a file-streaming GET in a
    consistent state, the transport delivering no more than it was offered,
    runs to its end and fires the callback, when one is registered, once and
    last, with the cumulative transferred count and the error field.  After
    a read that succeeded the count is the one before the step plus the
    bytes just read, these bytes are in the buffer behind the ones that
    were there, and size is the object size asked from the transport when
    it was 0 and unchanged otherwise.  With transferred equal to size no
    further transport request is issued; with transferred different from
    size the next chunk is requested exactly when neither the read nor the
    local write failed, and after a failure nothing is requested and the
    error is what the callback reports.  So a step that ends without
    failure and without a further request, that is a completed GET, has
    transferred = size at its callback. *)
Theorem get_xfer_progress_callback_and_completion
    (x : GwObexXfer) (t : transfer_data) (rd : xfer_read_res)
    (osz w errno : Z) :
  buffer_ok t ->
  (forall chunk,
      rd = XferReadOk chunk -> Zlength chunk <= capacity t - filled t) ->
  exists t' tr tr0,
    get_xfer_progress x t rd osz w errno = Ok (t', tr) /\
    tr = tr0 ++ invoke (callback t) (transferred t') (err t') /\
    callbacks tr0 = [] /\
    match rd with
    | XferReadFail e =>
        transferred t' = transferred t /\ size t' = size t /\
        err t' = e /\ filter is_flush tr = []
    | XferReadOk chunk =>
        transferred t' = transferred t + Zlength chunk /\
        size t' = (if size t =? 0 then osz else size t) /\
        firstn (Z.to_nat (filled t + Zlength chunk)) (mem (buffer t'))
        = buffered_bytes t ++ chunk /\
        if (0 <? fd t) && (w <? 0)
        then err t' = - errno /\ filter is_flush tr = []
        else
          err t' = err t /\
          filter is_flush tr
          = (if transferred t' =? size t' then [] else [XferFlush x]) /\
          (filter is_flush tr = [] <-> transferred t' = size t')
    end.
Proof.
  intros Hok Hfit. destruct rd as [chunk | e].
  - specialize (Hfit chunk eq_refl). unfold capacity in Hfit.
    destruct (get_xfer_progress_safe x t chunk osz w errno Hok Hfit)
      as (t' & tr & E).
    pose proof (get_xfer_progress_read _ _ _ _ _ _ _ _ E) as H.
    cbv zeta in H.
    destruct H as (t1 & Hp & Ht & Hs & Hb & H).
    assert (Hst : firstn (Z.to_nat (filled t + Zlength chunk))
                    (mem (buffer t'))
                  = buffered_bytes t ++ chunk).
    { rewrite Hb. destruct (poke_Ok _ _ _ _ Hp) as (b & Hstore & _ & ->).
      pose proof (store_extends _ _ _ _ Hstore) as Hx.
      unfold buffered_bytes.
      destruct Hok as ((I1 & I2) & I3).
      destruct (buffer_len t =? 0) eqn:E0.
      - apply Z.eqb_eq in E0.
        assert (Hf : filled t = 0) by lia.
        cbn [filled buffer set_buffer set_buffer_len mem] in Hx.
        rewrite Hf in *. exact Hx.
      - exact Hx. }
    assert (Hflush :
              forall (pre : trace) (b : bool),
                filter is_flush pre = [] ->
                filter is_flush
                  (pre ++ (if b then [] else [XferFlush x])
                   ++ invoke (callback t) (transferred t') (err t))
                = if b then [] else [XferFlush x]).
    { intros pre b Hpre. rewrite !filter_app, Hpre.
      destruct b; destruct (callback t); reflexivity. }
    assert (Hiff :
              forall l : trace,
                l = (if transferred t' =? size t'
                     then [] else [XferFlush x]) ->
                (l = [] <-> transferred t' = size t')).
    { intros l ->. destruct (transferred t' =? size t') eqn:Eq.
      - apply Z.eqb_eq in Eq. split; auto.
      - apply Z.eqb_neq in Eq.
        split; [intros C; discriminate C | intros C; contradiction]. }
    destruct (0 <? fd t) eqn:Efd.
    + destruct H as (bytes & _ & H).
      destruct (w <? 0) eqn:Ew; destruct H as (He & Hf & Htr).
      * exists t', tr. eexists.
        split; [exact E | ].
        split; [rewrite Htr, He, app_assoc; reflexivity | ].
        split; [destruct (size t =? 0); reflexivity | ].
        split; [exact Ht | ]. split; [exact Hs | ]. split; [exact Hst | ].
        cbn [andb]. split; [exact He | ].
        rewrite Htr, !filter_app.
        destruct (size t =? 0); destruct (callback t); reflexivity.
      * exists t', tr. eexists.
        split; [exact E | ].
        split; [rewrite Htr, He, !app_assoc; reflexivity | ].
        split.
        { unfold callbacks. rewrite !filter_app.
          destruct (size t =? 0);
            destruct (transferred t + Zlength chunk =? _); reflexivity. }
        split; [exact Ht | ]. split; [exact Hs | ]. split; [exact Hst | ].
        cbn [andb]. split; [exact He | ].
        assert (Hfl : filter is_flush tr
                      = (if transferred t' =? size t'
                         then [] else [XferFlush x])).
        { rewrite Hs, Ht, Htr, app_assoc. apply Hflush.
          rewrite filter_app. destruct (size t =? 0); reflexivity. }
        split; [exact Hfl | apply Hiff; exact Hfl].
    + destruct H as (He & Hf & Htr).
      exists t', tr. eexists.
      split; [exact E | ].
      split; [rewrite Htr, He, !app_assoc; reflexivity | ].
      split.
      { unfold callbacks. rewrite !filter_app.
        destruct (size t =? 0);
          destruct (transferred t + Zlength chunk =? _); reflexivity. }
      split; [exact Ht | ]. split; [exact Hs | ]. split; [exact Hst | ].
      cbn [andb]. split; [exact He | ].
      assert (Hfl : filter is_flush tr
                    = (if transferred t' =? size t'
                       then [] else [XferFlush x])).
      { rewrite Hs, Ht, Htr. apply Hflush.
        destruct (size t =? 0); reflexivity. }
      split; [exact Hfl | apply Hiff; exact Hfl].
  - assert (E : exists t' tr,
               get_xfer_progress x t (XferReadFail e) osz w errno
               = Ok (t', tr))
      by (unfold get_xfer_progress, progress_done; do 2 eexists;
          reflexivity).
    destruct E as (t' & tr & E).
    pose proof (get_xfer_progress_read_fail _ _ _ _ _ _ _ _ E)
      as (Ht & Hs & He & _ & bsize & Htr).
    exists t', tr, [XferRead x (filled t) bsize false 0].
    split; [exact E | ].
    split; [rewrite Htr, Ht, He; reflexivity | ].
    split; [reflexivity | ].
    split; [exact Ht | ]. split; [exact Hs | ]. split; [exact He | ].
    rewrite Htr. destruct (callback t); reflexivity.
Qed.

Lemma get_xfer_progress_callback_and_completion_witness :
  exists t' tr tr0,
    get_xfer_progress 7%nat receiving_file_transfer (XferReadOk last_chunk)
                      10000 1808 0 = Ok (t', tr) /\
    tr = tr0 ++ [Callback example_callback 10000 0] /\
    callbacks tr0 = [] /\
    filter is_flush tr = [] /\
    transferred t' = 10000 /\ size t' = 10000.
Proof.
  assert (Hok : buffer_ok receiving_file_transfer)
    by (vm_compute; repeat split; intros C; discriminate C).
  assert (Hfit : forall chunk,
             XferReadOk last_chunk = XferReadOk chunk ->
             Zlength chunk
             <= capacity receiving_file_transfer
                - filled receiving_file_transfer)
    by (intros chunk [= <-]; vm_compute; intros C; discriminate C).
  destruct (get_xfer_progress_callback_and_completion
              7%nat receiving_file_transfer (XferReadOk last_chunk)
              10000 1808 0 Hok Hfit)
    as (t' & tr & tr0 & E & Htr & Hcb & Ht & Hs & _ & Hrest).
  change ((0 <? fd receiving_file_transfer) && (1808 <? 0)) with false
    in Hrest.
  destruct Hrest as (He & _ & Hiff).
  assert (Ht' : transferred t' = 10000) by (rewrite Ht; reflexivity).
  assert (Hs' : size t' = 10000) by (rewrite Hs; reflexivity).
  exists t', tr, tr0. split; [exact E | ].
  split; [rewrite Htr, Ht', He; reflexivity | ].
  split; [exact Hcb | ].
  split; [apply Hiff; congruence | ]. split; assumption.
Defined.

(** C5 (as stated) fails after a failure: a step whose local write fails
    has transferred different from size, yet it requests no next chunk; it
    reports the error through the callback. *)
Lemma failed_write_requests_no_next_chunk :
  match get_xfer_progress 7%nat short_write_transfer (XferReadOk ten_bytes)
          100 (-1) ENOSPC with
  | Ok (t', tr) =>
      transferred t' = 10 /\ size t' = 100 /\
      filter is_flush tr = [] /\
      callbacks tr = [Callback example_callback 10 (- ENOSPC)]
  | _ => False
  end.
Proof. vm_compute. repeat split. Qed.


Lemma put_buf_xfer_progress_safe (x : GwObexXfer) (t : transfer_data)
    (wr : xfer_write_res) (fl : xfer_flush_res) :
  0 <= transferred t <= size t ->
  size t <= Zlength (mem (buffer t)) ->
  exists t' tr, put_buf_xfer_progress x t wr fl = Ok (t', tr).
Proof.
  intros (H1 & H2) H3. unfold put_buf_xfer_progress, progress_done.
  destruct (transferred t =? size t); [do 2 eexists; reflexivity | ].
  destruct (slice_safe (mem (buffer t)) (transferred t)
              (size t - transferred t)) as (bytes & Hs);
    [lia | lia | lia | ].
  rewrite Hs. simpl.
  destruct wr; [destruct fl | ]; do 2 eexists; reflexivity.
Qed.

(** * Further properties of the engine *)

(** ** Registration and release *)

Lemma g_slist_remove_absent (l : list nat) (x : nat) :
  ~ In x l -> g_slist_remove l x = l.
Proof.
  induction l as [ | y l IH]; simpl; intros H; [reflexivity | ].
  destruct (Nat.eqb y x) eqn:E.
  - apply Nat.eqb_eq in E. tauto.
  - f_equal. apply IH. tauto.
Qed.

Lemma g_slist_remove_appended (l : list nat) (x : nat) :
  ~ In x l -> g_slist_remove (g_slist_append l x) x = l.
Proof.
  unfold g_slist_append.
  induction l as [ | y l IH]; simpl; intros H.
  - rewrite Nat.eqb_refl. reflexivity.
  - destruct (Nat.eqb y x) eqn:E.
    + apply Nat.eqb_eq in E. tauto.
    + f_equal. apply IH. tauto.
Qed.

(** The g_free calls are none of the calls counted below. *)
Lemma filter_g_free (f : life_event -> bool) (l : list member) :
  (forall m, f (GFree m) = false) -> filter f (map GFree l) = [].
Proof.
  intros H. induction l as [ | m l IH]; simpl; [reflexivity | ].
  rewrite H. exact IH.
Qed.

Lemma filter_before_g_free (f : life_event -> bool)
    (tr : list life_event) (l : list member) :
  (forall m, f (GFree m) = false) ->
  filter f (tr ++ map GFree l) = filter f tr.
Proof.
  intros H. rewrite filter_app, (filter_g_free f l H). apply app_nil_r.
Qed.

(** The transfer and the counter of [transfer_register_session] are those
    of [transfer_register]. *)
Lemma transfer_register_session_agrees (self : nat) (pending : list nat)
    (counter : N) (filename' name' type' : option string)
    (params' : option (list byte)) (registered : bool) :
  fst (fst (transfer_register_session self pending counter filename' name'
                                      type' params' registered))
  = transfer_register counter filename' name' type' params' registered.
Proof.
  unfold transfer_register_session, transfer_register, transfer_free,
    transfer_path.
  destruct (obex_specific_type type'); [reflexivity | ].
  destruct registered; reflexivity.
Qed.

(** X1: a transfer registered with a session and later unregistered, whatever
    happened to its handle, descriptor and buffer in between, leaves the
    session as it was: the pending list is the one before registration, the
    reference taken is given back once, and the object path is unregistered
    exactly when one was registered. *)
Theorem register_unregister_round_trip
    (self : nat) (pending : list nat) (counter : N)
    (filename' name' type' : option string) (params' : option (list byte))
    (t t' : transfer_data) (c : N) (pending1 : list nat)
    (tr1 : list life_event) :
  ~ In self pending ->
  transfer_register_session self pending counter filename' name' type'
                            params' true = (Some t, c, pending1, tr1) ->
  path t' = path t ->
  let (pending2, tr2) := transfer_unregister self t' pending1 in
  pending1 = pending ++ [self] /\
  pending2 = pending /\
  filter is_session_ref (tr1 ++ tr2) = [SessionRef] /\
  filter is_session_unref (tr1 ++ tr2) = [SessionUnref] /\
  filter is_dbus (tr1 ++ tr2)
  = match path t with
    | Some p => [DBusRegister p true; DBusUnregister p]
    | None => []
    end.
Proof.
  intros Hnew H Hpath.
  unfold transfer_unregister, transfer_free. rewrite Hpath.
  unfold transfer_register_session in H.
  destruct (obex_specific_type type'); injection H as <- <- <- <-; simpl;
    rewrite (g_slist_remove_appended _ _ Hnew);
    (split; [reflexivity | ]); (split; [reflexivity | ]);
    (split; [ | split]);
    destruct (xfer t'); destruct (0 <? fd t'); simpl;
    rewrite ?filter_g_free by (intros m; reflexivity); reflexivity.
Qed.

Lemma register_unregister_round_trip_witness :
  exists t c pending1 tr1,
    transfer_register_session 31 [11; 12]%nat 0 (Some "card.vcf")
      (Some "/tmp/card.vcf") None None true = (Some t, c, pending1, tr1) /\
    pending1 = [11; 12; 31]%nat /\
    fst (transfer_unregister 31 started_file_transfer pending1)
    = [11; 12]%nat.
Proof.
  destruct (transfer_register_session 31 [11; 12]%nat 0 (Some "card.vcf")
              (Some "/tmp/card.vcf") None None true)
    as [[[r c] pending1] tr1] eqn:E.
  destruct r as [t | ]; [ | vm_compute in E; discriminate].
  assert (Hnew : ~ In 31%nat [11; 12]%nat)
    by (simpl; intros [H | [H | H]]; try discriminate; exact H).
  assert (Hpath : path started_file_transfer = path t)
    by (vm_compute in E; injection E as <- _ _ _; reflexivity).
  pose proof (register_unregister_round_trip
                31 [11; 12]%nat 0 (Some "card.vcf") (Some "/tmp/card.vcf")
                None None t started_file_transfer c pending1 tr1
                Hnew E Hpath) as H.
  destruct (transfer_unregister 31 started_file_transfer pending1)
    as [pending2 tr2] eqn:U.
  destruct H as (H1 & H2 & _).
  exists t, c, pending1, tr1.
  split; [reflexivity | ]. split; [exact H1 | rewrite U; exact H2].
Defined.

(** X2: when the D-Bus registration is refused, [transfer_register] returns
    NULL and leaves the session as it found it (pending list unchanged, the
    reference given back, nothing left published); no transport handle is
    freed and no descriptor closed, but the path number is used up (the
    counter has advanced) and [transfer_free] has released the record with
    everything it held: the copies of the three strings, the path, and the
    caller's [params] when one was passed, which the caller supplied and
    must not use or free again. *)
Theorem refused_registration_leaves_session
    (self : nat) (pending : list nat) (counter : N)
    (filename' name' type' : option string)
    (params' : option (list byte)) :
  ~ In self pending ->
  obex_specific_type type' = false ->
  exists tr,
    transfer_register_session self pending counter filename' name' type'
                              params' false
    = (None, ((counter + 1) mod 2 ^ 64)%N, pending, tr) /\
    filter is_session_ref tr = [SessionRef] /\
    filter is_session_unref tr = [SessionUnref] /\
    filter is_dbus tr = [DBusRegister (transfer_path counter) false] /\
    (forall x, frees x tr = O) /\ (forall d, closes d tr = O) /\
    filter is_g_free tr
    = map GFree (held params' MParams ++ held filename' MFilename
                 ++ held name' MName ++ held type' MType
                 ++ [MPath; MSelf]).
Proof.
  intros Hnew Hty. unfold transfer_register_session, transfer_free.
  rewrite Hty. simpl. rewrite (g_slist_remove_absent _ _ Hnew).
  eexists. split; [reflexivity | ].
  unfold frees, closes, released. cbn [params callback filename name type
                                       path buffer set_path held app].
  assert (Hg : forall l, filter is_g_free (map GFree l) = map GFree l).
  { induction l as [ | m l IH]; simpl; [reflexivity | ].
    rewrite IH. reflexivity. }
  repeat split; intros; simpl;
    rewrite ?filter_g_free by (intros m; reflexivity);
    try reflexivity.
  apply Hg.
Qed.

Lemma refused_registration_leaves_session_witness :
  exists tr,
    transfer_register_session 31 [11; 12]%nat 7 (Some "a.txt") None
      (Some "text/plain") (Some [x01]) false
    = (None, 8%N, [11; 12]%nat, tr) /\
    filter is_g_free tr
    = [GFree MParams; GFree MFilename; GFree MType; GFree MPath;
       GFree MSelf].
Proof.
  assert (Hnew : ~ In 31%nat [11; 12]%nat)
    by (simpl; intros [H | [H | H]]; try discriminate; exact H).
  destruct (refused_registration_leaves_session
              31 [11; 12]%nat 7 (Some "a.txt") None (Some "text/plain")
              (Some [x01]) Hnew eq_refl)
    as (tr & E & _ & _ & _ & _ & _ & Hg).
  exists tr. split; [exact E | exact Hg].
Defined.

Lemma transfer_register_fields (counter : N)
    (filename' name' type' : option string) (params' : option (list byte))
    (registered : bool) (t : transfer_data) (c : N) :
  transfer_register counter filename' name' type' params' registered
  = (Some t, c) ->
  type t = type' /\ xfer t = None /\ fd t = 0 /\ buffer t = None /\
  callback t = None /\
  (if obex_specific_type type'
   then path t = None /\ c = counter
   else path t = Some (transfer_path counter)
        /\ c = ((counter + 1) mod 2 ^ 64)%N).
Proof.
  unfold transfer_register, transfer_path.
  destruct (obex_specific_type type').
  - intros H. injection H as <- <-. simpl. auto 10.
  - destruct registered; [ | discriminate].
    intros H. injection H as <- <-. simpl. auto 10.
Qed.

(** X3: a transfer on which [transfer_get] installs the listing handler was
    never published: its type is one of the two listing types, both lie in
    the OBEX-specific families that [transfer_register] does not register on
    D-Bus, so it has no object path and used no path number.  In general a
    registered transfer has a path exactly when its type is not
    OBEX-specific. *)
Theorem listing_transfers_are_never_published
    (counter : N) (filename' name' type' : option string)
    (params' : option (list byte)) (registered : bool)
    (t : transfer_data) (c : N) :
  transfer_register counter filename' name' type' params' registered
  = (Some t, c) ->
  (path t = None <-> obex_specific_type type' = true) /\
  forall func' user_data e x,
    In (XferSetCallback x cb_get_xfer_listing_progress)
       (snd (transfer_get t func' user_data e)) ->
    path t = None /\ c = counter /\
    path (snd (fst (transfer_get t func' user_data e))) = None.
Proof.
  intros H. apply transfer_register_fields in H.
  destruct H as (Hty & Hx & _ & _ & _ & Hp).
  split.
  - destruct (obex_specific_type type'); destruct Hp as (Hp & _);
      rewrite Hp; split; intros; congruence.
  - intros func' user_data e x Hin.
    unfold transfer_get in *. rewrite Hx in *. rewrite Hty in *.
    destruct (g_strcmp0_eq type' "x-bt/vcard-listing"
              || g_strcmp0_eq type' "x-obex/folder-listing") eqn:El.
    + assert (Hs : obex_specific_type type' = true).
      { destruct type' as [s | ]; [ | discriminate]. simpl in *.
        apply orb_true_iff in El. destruct El as [El | El];
          apply String.eqb_eq in El; subst s; reflexivity. }
      rewrite Hs in Hp. destruct Hp as (Hp & Hc).
      split; [exact Hp | ]. split; [exact Hc | ].
      simpl. destruct (begun e); [destruct func' | ]; simpl; exact Hp.
    + exfalso. simpl in Hin.
      destruct (fd t <? 0); simpl in Hin;
        [destruct Hin as [Hin | []]; discriminate | ].
      destruct (begun e); simpl in Hin.
      * destruct Hin as [Hin | [Hin | [Hin | []]]]; discriminate.
      * destruct Hin as [Hin | [Hin | []]]; discriminate.
Qed.

Lemma listing_transfers_are_never_published_witness :
  path started_listing_transfer = None /\
  path created_file_transfer <> None.
Proof.
  destruct (listing_transfers_are_never_published
              1 (Some "telecom/pb") None (Some "x-bt/vcard-listing") None
              true
              (registered (transfer_register 1 (Some "telecom/pb") None
                             (Some "x-bt/vcard-listing") None true))
              1 eq_refl) as (H1 & _).
  destruct (listing_transfers_are_never_published
              0 (Some "card.vcf") (Some "/tmp/card.vcf") None None true
              created_file_transfer 1 eq_refl) as (H2 & _).
  split.
  - exact (proj2 H1 eq_refl).
  - intros C. apply H2 in C. discriminate.
Defined.

Lemma string_append_inj (s a b : string) :
  (s ++ a)%string = (s ++ b)%string -> a = b.
Proof.
  induction s as [ | ch s IH]; simpl; intros H; [exact H | ].
  injection H as H. apply IH. exact H.
Qed.

Lemma N_to_uint_nonnil (n : N) : N.to_uint n <> Decimal.Nil.
Proof.
  destruct n as [ | p]; simpl; [discriminate | ].
  apply DecimalPos.Unsigned.to_uint_nonnil.
Qed.

Lemma transfer_path_inj (c1 c2 : N) :
  transfer_path c1 = transfer_path c2 -> c1 = c2.
Proof.
  unfold transfer_path. intros H.
  apply string_append_inj in H. apply string_append_inj in H.
  apply (f_equal NilZero.uint_of_string) in H.
  rewrite !NilZero.usu in H by apply N_to_uint_nonnil.
  injection H as H.
  apply DecimalN.Unsigned.to_uint_inj. exact H.
Qed.

(** X4: the object path of a published transfer names the counter value it
    was registered with, different values give different paths, and two
    transfers published one right after the other never share a path. *)
Theorem successive_registrations_get_distinct_paths
    (counter : N)
    (filename1 name1 type1 : option string) (params1 : option (list byte))
    (filename2 name2 type2 : option string) (params2 : option (list byte))
    (t1 t2 : transfer_data) (c1 c2 : N) :
  (counter < 2 ^ 64)%N ->
  obex_specific_type type1 = false ->
  obex_specific_type type2 = false ->
  transfer_register counter filename1 name1 type1 params1 true
  = (Some t1, c1) ->
  transfer_register c1 filename2 name2 type2 params2 true = (Some t2, c2) ->
  path t1 = Some (transfer_path counter) /\
  path t2 = Some (transfer_path c1) /\
  path t1 <> path t2.
Proof.
  intros Hc H1 H2 R1 R2.
  apply transfer_register_fields in R1, R2.
  rewrite H1 in R1. rewrite H2 in R2.
  destruct R1 as (_ & _ & _ & _ & _ & P1 & C1).
  destruct R2 as (_ & _ & _ & _ & _ & P2 & _).
  split; [exact P1 | ]. split; [exact P2 | ].
  rewrite P1, P2. intros E.
  assert (E' : transfer_path counter = transfer_path c1) by congruence.
  clear E. apply transfer_path_inj in E'. rename E' into E. subst c1.
  assert (K : (counter + 1 = 2 ^ 64 \/ counter + 1 < 2 ^ 64)%N) by lia.
  destruct K as [K | K].
  - rewrite K, N.Div0.mod_same in E. lia.
  - rewrite N.mod_small in E by exact K. lia.
Qed.

Lemma successive_registrations_get_distinct_paths_witness :
  path (registered (transfer_register 41 (Some "a") None None None true))
  <> path (registered (transfer_register 42 (Some "b") None None None
                                         true)).
Proof.
  assert (Hc : (41 < 2 ^ 64)%N) by (vm_compute; reflexivity).
  exact (proj2 (proj2 (successive_registrations_get_distinct_paths
                         41 (Some "a") None None None
                         (Some "b") None None None
                         _ _ 42 43 Hc eq_refl eq_refl eq_refl eq_refl))).
Defined.

(** X5: the transport handle of a transfer is freed exactly once, whether
    the transfer is unregistered while the handle is set or aborted first:
    after an abort [transfer_unregister] finds the handle cleared and frees
    nothing. *)
Theorem transport_handle_freed_exactly_once
    (self : nat) (pending : list nat) (t : transfer_data)
    (x : GwObexXfer) :
  xfer t = Some x ->
  frees x (snd (transfer_unregister self t pending)) = 1%nat /\
  let (t1, tr1) := transfer_abort t in
  frees x (map Io tr1) = 1%nat /\
  forall y, frees y (snd (transfer_unregister self t1 pending)) = 0%nat.
Proof.
  intros Hx. rewrite (transfer_abort_set t x Hx).
  unfold transfer_unregister, transfer_free, frees. rewrite Hx. simpl.
  split; [ | split].
  - destruct (path t); destruct (0 <? fd t); simpl;
      rewrite Nat.eqb_refl; simpl;
      rewrite ?filter_g_free by (intros m; reflexivity); reflexivity.
  - destruct (callback t); simpl; rewrite Nat.eqb_refl; reflexivity.
  - intros y. destruct (path t); destruct (0 <? fd t); simpl;
      rewrite ?filter_g_free by (intros m; reflexivity); reflexivity.
Qed.

Lemma transport_handle_freed_exactly_once_witness :
  frees 7%nat (snd (transfer_unregister 31 started_file_transfer [31%nat]))
  = 1%nat /\
  frees 7%nat (snd (transfer_unregister
                  31 (fst (transfer_abort started_file_transfer))
                  [31%nat]))
  = 0%nat.
Proof.
  pose proof (transport_handle_freed_exactly_once
                31 [31%nat] started_file_transfer 7%nat eq_refl) as H.
  simpl in H. destruct H as (H1 & _ & H3).
  split; [exact H1 | exact (H3 7%nat)].
Defined.

(** X6: the descriptor a start call opens is closed exactly once over the
    start call and the unregistration that ends the transfer, whatever the
    start call returned: PUT closes it itself when fstat fails and stores it
    otherwise, GET stores it, and [transfer_free] closes a stored positive
    descriptor.  Descriptor 0 counts as none: stored by a start call, it is
    never closed. *)
Theorem opened_descriptor_closed_exactly_once
    (self : nat) (pending : list nat) (t : transfer_data)
    (func' : option nat) (user_data : nat) (e : start_env) :
  xfer t = None -> fd t = 0 -> 0 <= open_ret e ->
  (buffer t = None ->
   let '(_, t', tr) := transfer_put t func' user_data e in
   (closes (open_ret e) (map Io tr)
    + closes (open_ret e) (snd (transfer_unregister self t' pending)))%nat
   = if (0 <? open_ret e) || (fstat_ret e <? 0) then 1%nat else 0%nat) /\
  (g_strcmp0_eq (type t) "x-bt/vcard-listing" = false ->
   g_strcmp0_eq (type t) "x-obex/folder-listing" = false ->
   let '(_, t', tr) := transfer_get t func' user_data e in
   (closes (open_ret e) (map Io tr)
    + closes (open_ret e) (snd (transfer_unregister self t' pending)))%nat
   = if 0 <? open_ret e then 1%nat else 0%nat).
Proof.
  intros Hx Hfd Ho. split.
  - intros Hb. unfold transfer_put. rewrite Hx, Hb.
    destruct (open_ret e <? 0) eqn:E; [apply Z.ltb_lt in E; lia | ].
    unfold transfer_unregister, transfer_free, closes.
    destruct (fstat_ret e <? 0) eqn:Ef.
    + rewrite Hx, Hfd, orb_true_r. simpl.
      rewrite Z.eqb_refl. destruct (path t); simpl;
        rewrite ?filter_g_free by (intros m; reflexivity); reflexivity.
    + rewrite orb_false_r.
      destruct (begun e) as [x | ]; [destruct func' | ]; simpl;
        destruct (0 <? open_ret e); destruct (path t); simpl;
        rewrite ?Z.eqb_refl; simpl;
        rewrite ?filter_g_free by (intros m; reflexivity); reflexivity.
  - intros H1 H2. unfold transfer_get. rewrite Hx, H1, H2, Hfd. simpl.
    unfold transfer_unregister, transfer_free, closes.
    destruct (begun e) as [x | ]; [destruct func' | ]; simpl;
      destruct (0 <? open_ret e); destruct (path t); simpl;
      rewrite ?Z.eqb_refl; simpl;
      rewrite ?filter_g_free by (intros m; reflexivity); reflexivity.
Qed.

Lemma opened_descriptor_closed_exactly_once_witness :
  (closes 4 (map Io (snd (transfer_put created_file_transfer (Some 1%nat)
                            2%nat refusing_env)))
   + closes 4 (snd (transfer_unregister
                      31 (snd (fst (transfer_put created_file_transfer
                                      (Some 1%nat) 2%nat refusing_env)))
                      [31%nat])))%nat
  = 1%nat.
Proof.
  assert (Ho : 0 <= open_ret refusing_env) by (simpl; lia).
  pose proof (proj1 (opened_descriptor_closed_exactly_once
                       31 [31%nat] created_file_transfer (Some 1%nat) 2%nat
                       refusing_env eq_refl eq_refl Ho) eq_refl) as H.
  exact H.
Defined.

(** X7: a Cancel request from anyone but the session's agent is answered
    with the NotAuthorized error and reaches nothing: the transfer is as it
    was and no call is made.  A Cancel from the agent on a started transfer
    aborts it, which delivers the cancellation callback once; a second
    Cancel is answered like the first and delivers nothing.  When no reply
    can be built the transfer is not aborted either. *)
Theorem cancel_reaches_abort_only_from_the_agent
    (t : transfer_data) (sender agent : string) (reply_ok : bool) :
  (sender <> agent ->
   transfer_cancel t sender agent reply_ok
   = (Some (ErrorReply "org.openobex.Error.NotAuthorized"
                       "Not Authorized"), t, [])) /\
  (transfer_cancel t agent agent false = (None, t, [])) /\
  (forall x cb,
      xfer t = Some x -> callback t = Some cb ->
      let '(r1, t1, tr1) := transfer_cancel t agent agent true in
      let '(r2, t2, tr2) := transfer_cancel t1 agent agent true in
      r1 = Some MethodReturn /\ r2 = Some MethodReturn /\
      xfer t1 = None /\
      callbacks tr1 = [Callback cb (transferred t) (- ECANCELED)] /\
      t2 = t1 /\ tr2 = []).
Proof.
  unfold transfer_cancel. split; [ | split].
  - intros H. apply String.eqb_neq in H. rewrite H. reflexivity.
  - rewrite String.eqb_refl. reflexivity.
  - intros x cb Hx Hcb. rewrite String.eqb_refl. simpl.
    rewrite (transfer_abort_set t x Hx), Hcb.
    rewrite ?String.eqb_refl. simpl.
    rewrite ?transfer_abort_unset by reflexivity.
    repeat split.
Qed.

Lemma cancel_reaches_abort_only_from_the_agent_witness :
  transfer_cancel started_file_transfer ":1.7" ":1.3" true
  = (Some (ErrorReply "org.openobex.Error.NotAuthorized" "Not Authorized"),
     started_file_transfer, []) /\
  callbacks (snd (transfer_cancel started_file_transfer ":1.3" ":1.3" true))
  = [Callback example_callback 0 (- ECANCELED)].
Proof.
  destruct (cancel_reaches_abort_only_from_the_agent
              started_file_transfer ":1.7" ":1.3" true) as (H1 & _ & _).
  destruct (cancel_reaches_abort_only_from_the_agent
              started_file_transfer ":1.3" ":1.3" true) as (_ & _ & H3).
  split.
  - apply H1. discriminate.
  - specialize (H3 7%nat example_callback eq_refl eq_refl).
    simpl in H3. destruct H3 as (_ & _ & _ & H & _). exact H.
Defined.

(** ** Start *)

(** X8: a start call on a transfer without handle either installs a
    continuation, and then it returns 0, holds the handle the transport gave
    and has the callback registered as asked, or it installs none, and then
    the handle is still NULL and the callback registered before is
    untouched.  The descriptor is not restored: [transfer_get] on a transfer
    that is no listing stores what open() returned whether or not a
    continuation is installed, and once a failed open has left a negative
    descriptor behind a refused start, every later [transfer_get] opens the
    file again, returns minus errno, changes nothing and starts nothing. *)
Theorem failed_start_keeps_handle_and_callback
    (t : transfer_data) (func' : option nat) (user_data : nat)
    (e : start_env) :
  xfer t = None ->
  (let '(code, t', tr) := transfer_get t func' user_data e in
   (scheduled tr = [] -> xfer t' = None /\ callback t' = callback t) /\
   (scheduled tr <> [] ->
    code = 0 /\ xfer t' = begun e /\ xfer t' <> None /\
    callback t' = callback_after_start func' user_data t)) /\
  (let '(code, t', tr) := transfer_put t func' user_data e in
   (scheduled tr = [] -> xfer t' = None /\ callback t' = callback t) /\
   (scheduled tr <> [] ->
    code = 0 /\ xfer t' = begun e /\ xfer t' <> None /\
    callback t' = callback_after_start func' user_data t)) /\
  (g_strcmp0_eq (type t) "x-bt/vcard-listing" = false ->
   g_strcmp0_eq (type t) "x-obex/folder-listing" = false ->
   0 <= fd t ->
   let t' := snd (fst (transfer_get t func' user_data e)) in
   fd t' = open_ret e /\
   (open_ret e < 0 -> begun e = None ->
    forall func2 user_data2 e2,
      transfer_get t' func2 user_data2 e2
      = (- open_errno e2, t',
         [SysOpen (match name t with
                   | Some n => Some n
                   | None => filename t
                   end) O_WRONLY_CREAT_0600 (open_ret e2)]))).
Proof.
  intros Hx. unfold callback_after_start. split; [ | split].
  - unfold transfer_get. rewrite Hx.
    destruct (_ || _); simpl;
      [ | destruct (fd t <? 0); simpl;
          [split; [auto | intros C; contradiction] | ]];
      (destruct (begun e) as [x | ]; simpl;
       [destruct func'; simpl;
        (split; [intros C; discriminate | intros _; repeat split;
                                          discriminate])
       | split; [auto | intros C; contradiction]]).
  - unfold transfer_put. rewrite Hx.
    destruct (buffer t); simpl;
      [ | destruct (open_ret e <? 0); simpl;
          [split; [auto | intros C; contradiction] | ];
          destruct (fstat_ret e <? 0); simpl;
          [split; [auto | intros C; contradiction] | ]];
      (destruct (begun e) as [x | ]; simpl;
       [destruct func'; simpl;
        (split; [intros C; discriminate | intros _; repeat split;
                                          discriminate])
       | split; [auto | intros C; contradiction]]).
  - intros H1 H2 Hfd.
    assert (C : (fd t <? 0) = false) by (apply Z.ltb_ge; exact Hfd).
    cbv zeta. split.
    + unfold transfer_get. rewrite Hx, H1, H2, C. cbn [orb].
      destruct (begun e) as [x | ]; [destruct func' | ]; reflexivity.
    + intros Ho Hb func2 user_data2 e2.
      assert (E : exists c tr,
                 transfer_get t func' user_data e
                 = (c, set_xfer None (set_fd (open_ret e) t), tr)).
      { unfold transfer_get. rewrite Hx, H1, H2, C. cbn [orb].
        rewrite Hb. do 2 eexists; reflexivity. }
      destruct E as (c & tr & ->). cbn [fst snd].
      unfold transfer_get.
      cbn [xfer set_xfer set_fd type fd name filename].
      rewrite H1, H2. cbn [orb].
      assert (C2 : (open_ret e <? 0) = true) by (apply Z.ltb_lt; exact Ho).
      rewrite C2. reflexivity.
Qed.

Lemma failed_start_keeps_handle_and_callback_witness :
  let t' := snd (fst (transfer_get created_file_transfer (Some 1%nat) 2%nat
                        unwritable_refusing_env)) in
  xfer t' = None /\ callback t' = callback created_file_transfer /\
  fd t' = -1 /\
  transfer_get t' (Some 1%nat) 2%nat refusing_env
  = (0, t', [SysOpen (Some "/tmp/card.vcf") O_WRONLY_CREAT_0600 4]).
Proof.
  assert (Hfd : 0 <= fd created_file_transfer) by (simpl; lia).
  assert (Ho : open_ret unwritable_refusing_env < 0) by (simpl; lia).
  destruct (failed_start_keeps_handle_and_callback
              created_file_transfer (Some 1%nat) 2%nat
              unwritable_refusing_env eq_refl) as (Hg & _ & Hd).
  destruct (Hd eq_refl eq_refl Hfd) as (Hfd' & Hretry).
  specialize (Hretry Ho eq_refl (Some 1%nat) 2%nat refusing_env).
  cbv zeta.
  destruct (transfer_get created_file_transfer (Some 1%nat) 2%nat
              unwritable_refusing_env) as [[code t'] tr] eqn:E.
  assert (Hs : scheduled tr = [])
    by (vm_compute in E; injection E as _ _ <-; reflexivity).
  destruct Hg as (Hg & _). destruct (Hg Hs) as (G1 & G2).
  cbn [fst snd] in *.
  split; [exact G1 | ]. split; [exact G2 | ].
  split; [exact Hfd' | exact Hretry].
Defined.

(** ** Listing GET, chunk after chunk *)

Lemma strlen_cstrlen (b : block) (m n : Z) :
  strlen b = Ok m -> m <= n ->
  cstrlen (firstn (Z.to_nat n) b) = m.
Proof.
  revert m n. induction b as [ | c b IH]; intros m n H Hle;
    cbn [strlen] in H; [discriminate | ].
  destruct (Byte.eqb c NUL) eqn:E.
  - injection H as <-.
    destruct (Z.to_nat n); simpl; [reflexivity | rewrite E; reflexivity].
  - bind_inv H. injection H as <-.
    pose proof (strlen_Ok _ _ Ha) as (Hnn & _).
    replace (Z.to_nat n) with (S (Z.to_nat (n - 1))) by lia.
    simpl. rewrite E. rewrite (IH a (n - 1) Ha) by lia. reflexivity.
Qed.

(** One step that does not end the object. *)
Lemma listing_step_accumulates (junk : nat -> byte) (x : GwObexXfer)
    (t : transfer_data) (c : list byte) :
  buffer_ok t ->
  Zlength c <= snd (listing_reserve junk t) ->
  exists t',
    get_xfer_listing_progress junk x t (XferReadOk c) false
    = Ok (t', [XferRead x (filled t) (snd (listing_reserve junk t)) true
                        (Zlength c)]) /\
    buffer_ok t' /\
    buffered_bytes t' = buffered_bytes t ++ c /\
    filled t' = filled t + Zlength c /\
    transferred t' = transferred t /\ size t' = size t /\
    err t' = err t /\ callback t' = callback t /\
    (buffer_len t' = buffer_len t
     \/ buffer_len t' = buffer_len t + DEFAULT_BUFFER_SIZE).
Proof.
  intros ((I1 & I2) & I3) Hfit.
  unfold get_xfer_listing_progress.
  assert (R : buffer_ok (fst (listing_reserve junk t)) /\
              filled (fst (listing_reserve junk t)) = filled t /\
              filled t + snd (listing_reserve junk t)
              <= buffer_len (fst (listing_reserve junk t)) /\
              buffered_bytes (fst (listing_reserve junk t))
              = buffered_bytes t /\
              transferred (fst (listing_reserve junk t)) = transferred t /\
              size (fst (listing_reserve junk t)) = size t /\
              err (fst (listing_reserve junk t)) = err t /\
              callback (fst (listing_reserve junk t)) = callback t /\
              (buffer_len (fst (listing_reserve junk t)) = buffer_len t
               \/ buffer_len (fst (listing_reserve junk t))
                  = buffer_len t + DEFAULT_BUFFER_SIZE)).
  { unfold listing_reserve, buffer_ok, buffered_bytes.
    destruct (buffer_len t - filled t <? DEFAULT_BUFFER_SIZE) eqn:E;
      simpl.
    - rewrite g_realloc_Zlength. unfold DEFAULT_BUFFER_SIZE.
      split; [lia | ]. split; [reflexivity | ]. split; [lia | ].
      split; [ | auto 10].
      apply g_realloc_prefix.
      + rewrite Zlength_correct in I3. lia.
      + pose proof (g_realloc_Zlength junk (mem (buffer t))
                      (buffer_len t + 4096)) as G.
        rewrite Zlength_correct in G. lia.
    - split; [lia | ]. split; [reflexivity | ]. split; [lia | auto 10]. }
  destruct (listing_reserve junk t) as [t0 bsize]. simpl in *.
  destruct R as (((J1 & J2) & J3) & J4 & J5 & J6 & J7 & J8 & J9 & J10 & J11).
  pose proof (Zlength_nonneg c) as Hlen.
  destruct (store_safe (mem (buffer t0)) (filled t0) c) as (b & Hb);
    [lia | lia | ].
  pose proof (store_Zlength _ _ _ _ Hb) as HL.
  assert (A : listing_accept t0 c
              = Ok (set_filled (filled t0 + Zlength c) (with_block b t0)))
    by (unfold listing_accept, poke; rewrite Hb; simpl;
        destruct (with_block_fields b t0) as (_ & _ & _ & _ & _ & _ & _
                                              & -> & _); reflexivity).
  rewrite A. simpl. rewrite J4.
  eexists. split; [reflexivity | ].
  destruct (with_block_fields b t0)
    as (_ & W1 & _ & _ & W2 & W3 & W4 & W5 & W6).
  unfold buffer_ok, buffered_bytes. simpl.
  rewrite (with_block_mem b t0 HL), W2, W3, W4, W6, W1.
  split; [lia | ]. split.
  - rewrite <- J4. rewrite (store_extends _ _ _ _ Hb).
    unfold buffered_bytes in J6. rewrite J4 in *. rewrite J6. reflexivity.
  - repeat split; assumption.
Qed.




Lemma listing_chunks_accumulate (junk : nat -> byte) (x : GwObexXfer)
    (chunks : list (list byte)) :
  forall t,
    buffer_ok t -> offered_fits junk x t chunks ->
    exists t' tr,
      listing_chunks junk x t chunks = Ok (t', tr) /\
      buffer_ok t' /\
      buffered_bytes t' = buffered_bytes t ++ List.concat chunks /\
      transferred t' = transferred t /\ err t' = err t /\
      callback t' = callback t /\ callbacks tr = [] /\
      exists k, 0 <= k /\
                buffer_len t' = buffer_len t + k * DEFAULT_BUFFER_SIZE.
Proof.
  induction chunks as [ | c cs IH]; intros t Hok Hfit; simpl.
  - exists t, []. rewrite app_nil_r.
    split; [reflexivity | ]. split; [exact Hok | ].
    do 5 (split; [reflexivity | ]).
    exists 0. lia.
  - simpl in Hfit. destruct Hfit as (Hc & Hrest).
    destruct (listing_step_accumulates junk x t c Hok Hc)
      as (t1 & E1 & Ok1 & B1 & _ & T1 & _ & Er1 & C1 & L1).
    rewrite E1 in *. simpl.
    destruct (IH t1 Ok1 Hrest)
      as (t2 & tr2 & E2 & Ok2 & B2 & T2 & Er2 & C2 & Cb2 & k & Hk & L2).
    rewrite E2. simpl. do 2 eexists. split; [reflexivity | ].
    split; [exact Ok2 | ].
    split; [rewrite B2, B1, <- app_assoc; reflexivity | ].
    split; [congruence | ]. split; [congruence | ].
    split; [congruence | ]. split; [exact Cb2 | ].
    destruct L1 as [L1 | L1].
    + exists k. split; [lia | ]. rewrite L2, L1. reflexivity.
    + exists (k + 1). split; [lia | ]. rewrite L2, L1. lia.
Qed.

Lemma listing_terminate_transferred (junk : nat -> byte)
    (t : transfer_data) (tr : trace) (t' : transfer_data) (tr' : trace) :
  listing_terminate junk t tr = Ok (t', tr') ->
  transferred t' = transferred t.
Proof.
  unfold listing_terminate, listing_done. intros H. bind_inv H.
  destruct (Byte.eqb a NUL).
  - bind_inv H. injection H as <- _. reflexivity.
  - bind_inv H. bind_inv H. injection H as <- _. simpl.
    apply poke_fields in Ha0.
    destruct Ha0 as (_ & _ & _ & _ & _ & -> & _).
    destruct (_ <? 1); reflexivity.
Qed.

Lemma offered_fits_app (junk : nat -> byte) (x : GwObexXfer)
    (chunks : list (list byte)) (last : list byte) :
  forall t,
    offered_fits junk x t (chunks ++ [last]) ->
    offered_fits junk x t chunks /\
    forall t1 tr1,
      listing_chunks junk x t chunks = Ok (t1, tr1) ->
      Zlength last <= snd (listing_reserve junk t1).
Proof.
  induction chunks as [ | c cs IH]; intros t H; simpl in *.
  - split; [exact I | ]. intros t1 tr1 [= <- <-]. tauto.
  - destruct H as (Hc & H).
    destruct (get_xfer_listing_progress junk x t (XferReadOk c) false)
      as [[ta tra] | | ]; simpl.
    + destruct (IH ta H) as (H1 & H2). split; [tauto | ].
      intros t1 tr1 E.
      destruct (listing_chunks junk x ta cs) as [[tb trb] | | ];
        simpl in E; try discriminate.
      injection E as <- <-. eapply H2. reflexivity.
    + split; [tauto | discriminate].
    + split; [tauto | discriminate].
Qed.

Lemma listing_step_final (junk : nat -> byte) (x : GwObexXfer)
    (t : transfer_data) (c : list byte) (ta : transfer_data)
    (tra : trace) :
  get_xfer_listing_progress junk x t (XferReadOk c) false = Ok (ta, tra) ->
  get_xfer_listing_progress junk x t (XferReadOk c) true
  = listing_terminate junk ta tra.
Proof.
  unfold get_xfer_listing_progress.
  destruct (listing_reserve junk t) as [t0 bsize].
  destruct (listing_accept t0 c); simpl; intros H; try discriminate.
  injection H as <- <-. reflexivity.
Qed.

Lemma buffered_bytes_Zlength (t : transfer_data) :
  buffer_ok t -> Zlength (buffered_bytes t) = filled t.
Proof.
  intros ((I1 & I2) & I3). unfold buffered_bytes.
  rewrite Zlength_correct, length_firstn.
  rewrite Zlength_correct in I3. lia.
Qed.

(** X9: a listing GET, from the first chunk to the one that ends the
    object, with a transport that keeps to the sizes it is offered: the
    handler never leaves the buffer, the buffer ends up holding every byte
    delivered, in order, followed by a terminator, and the one callback of
    the whole exchange reports the length of those bytes read as a C string
    (up to the first zero byte, or all of them when none is zero), with
    [transferred] never advanced. *)
Theorem listing_get_reports_string_length
    (junk : nat -> byte) (x : GwObexXfer) (t : transfer_data)
    (chunks : list (list byte)) (last : list byte)
    (cb : transfer_callback) :
  buffer_ok t -> callback t = Some cb ->
  offered_fits junk x t (chunks ++ [last]) ->
  buffered_bytes t ++ List.concat chunks ++ last <> [] ->
  exists t' tr,
    listing_get junk x t chunks last = Ok (t', tr) /\
    buffer_ok t' /\
    buffered_bytes t' = buffered_bytes t ++ List.concat chunks ++ last /\
    size t' = cstrlen (buffered_bytes t') /\
    load (mem (buffer t')) (size t') = Ok NUL /\
    callbacks tr = [Callback cb (size t') (err t)] /\
    transferred t' = transferred t.
Proof.
  intros Hok Hcb Hfit Hne. unfold listing_get.
  destruct (offered_fits_app junk x chunks last t Hfit) as (Hfit1 & Hlast).
  destruct (listing_chunks_accumulate junk x chunks t Hok Hfit1)
    as (t1 & tr1 & E1 & Ok1 & B1 & T1 & Er1 & C1 & Cb1 & _).
  rewrite E1. simpl. specialize (Hlast t1 tr1 E1).
  destruct (listing_step_accumulates junk x t1 last Ok1 Hlast)
    as (ta & Ea & Oka & Ba & Fa & Ta & _ & Era & Ca & _).
  assert (Hall : buffered_bytes ta
                 = buffered_bytes t ++ List.concat chunks ++ last)
    by (rewrite Ba, B1, <- app_assoc; reflexivity).
  assert (Hone : 1 <= filled t1 + Zlength last).
  { rewrite <- Fa, <- (buffered_bytes_Zlength ta Oka), Hall.
    destruct (buffered_bytes t ++ List.concat chunks ++ last) as [ | c l];
      [contradiction | ].
    rewrite Zlength_cons. pose proof (Zlength_nonneg l). lia. }
  destruct (get_xfer_listing_progress_safe junk x t1 last true
              Ok1 Hlast Hone) as (t' & tr' & E' & Ok').
  rewrite E'. simpl. exists t', (tr1 ++ tr').
  split; [reflexivity | ]. split; [exact Ok' | ].
  rewrite (listing_step_final _ _ _ _ _ _ Ea) in E'.
  pose proof (listing_terminate_transferred _ _ _ _ _ E') as Ht.
  apply listing_terminate_Ok in E'. cbv zeta in E'.
  destruct E' as (H1 & H2 & H3 & H4 & H5 & H6 & H7).
  assert (Hbuf : buffered_bytes t' = buffered_bytes ta).
  { unfold buffered_bytes. rewrite H2.
    destruct (Byte.eqb (nth (Z.to_nat (filled ta - 1)) (mem (buffer ta))
                            NUL) NUL) eqn:E.
    - apply Byte.byte_dec_bl in E. destruct (H3 E) as (-> & _).
      reflexivity.
    - assert (Hn : nth (Z.to_nat (filled ta - 1)) (mem (buffer ta)) NUL
                   <> NUL)
        by (intros C; rewrite C in E; vm_compute in E; discriminate).
      destruct (H4 Hn) as (_ & -> & _). reflexivity. }
  split; [rewrite Hbuf; exact Hall | ].
  assert (Hsize : size t' = cstrlen (buffered_bytes t')).
  { unfold buffered_bytes. rewrite H2. symmetry.
    apply strlen_cstrlen; [exact H5 | lia]. }
  split; [exact Hsize | ].
  split.
  - pose proof (strlen_Ok _ _ H5) as (Hb & Hn & _).
    unfold load.
    destruct (0 <=? size t') eqn:A1; [ | apply Z.leb_gt in A1; lia].
    destruct (size t' <? Zlength (mem (buffer t'))) eqn:A2;
      [ | apply Z.ltb_ge in A2; lia].
    simpl. rewrite Hn. reflexivity.
  - split.
    + unfold callbacks in *. rewrite filter_app, Cb1, H7, filter_app.
      rewrite Ca, C1, Hcb, Era, Er1. reflexivity.
    + congruence.
Qed.

Lemma listing_get_reports_string_length_witness :
  exists t' tr,
    listing_get example_junk 7%nat started_listing_transfer [alice_chunk]
                bob_chunk = Ok (t', tr) /\
    buffered_bytes t' = alice_chunk ++ bob_chunk /\
    size t' = 5 /\
    callbacks tr = [Callback example_callback (size t') 0].
Proof.
  assert (Hok : buffer_ok started_listing_transfer)
    by (vm_compute; repeat split; intros C; discriminate C).
  assert (Hfit : offered_fits example_junk 7%nat started_listing_transfer
                   ([alice_chunk] ++ [bob_chunk]))
    by (vm_compute; repeat split; intros C; discriminate C).
  assert (Hne : buffered_bytes started_listing_transfer
                ++ List.concat [alice_chunk] ++ bob_chunk <> [])
    by (vm_compute; discriminate).
  destruct (listing_get_reports_string_length
              example_junk 7%nat started_listing_transfer [alice_chunk]
              bob_chunk example_callback Hok eq_refl Hfit Hne)
    as (t' & tr & E & _ & Hb & Hs & _ & Hcb & _).
  exists t', tr. split; [exact E | ].
  split; [rewrite Hb; reflexivity | ].
  split; [rewrite Hs, Hb; reflexivity | exact Hcb].
Defined.

(** ** Listing GET, a read failure before anything arrived *)

Lemma strlen_first_nul (b : block) :
  forall k : nat,
    (k < List.length b)%nat -> nth k b NUL = NUL ->
    (forall i, (i < k)%nat -> nth i b NUL <> NUL) ->
    strlen b = Ok (Z.of_nat k).
Proof.
  induction b as [ | c b IH]; intros k Hk Hn Hfirst; simpl in Hk;
    [lia | ].
  cbn [strlen]. destruct (Byte.eqb c NUL) eqn:E.
  - apply Byte.byte_dec_bl in E. destruct k as [ | k]; [reflexivity | ].
    exfalso. apply (Hfirst O); [lia | exact E].
  - destruct k as [ | k].
    + simpl in Hn. subst c. vm_compute in E. discriminate.
    + rewrite (IH k); [ | lia | exact Hn | ].
      * simpl. f_equal. lia.
      * intros i Hi. apply (Hfirst (S i)). lia.
Qed.

Lemma strlen_no_nul (b : block) :
  (forall i, (i < List.length b)%nat -> nth i b NUL <> NUL) ->
  strlen b = Fault Unterminated.
Proof.
  induction b as [ | c b IH]; intros H; cbn [strlen]; [reflexivity | ].
  destruct (Byte.eqb c NUL) eqn:E.
  - apply Byte.byte_dec_bl in E. exfalso.
    apply (H O); [simpl; lia | exact E].
  - rewrite IH; [reflexivity | ].
    intros i Hi. apply (H (S i)). simpl. lia.
Qed.

Lemma g_realloc_fresh (junk : nat -> byte) (m : Z) :
  List.length (g_realloc junk [] m) = Z.to_nat m /\
  forall i, (i < Z.to_nat m)%nat -> nth i (g_realloc junk [] m) NUL = junk i.
Proof.
  unfold g_realloc. cbn [List.length app]. rewrite Nat.sub_0_r.
  rewrite firstn_all2 by (rewrite length_map, length_seq; lia).
  split; [rewrite length_map, length_seq; reflexivity | ].
  intros i Hi.
  rewrite (nth_indep _ NUL (junk O))
    by (rewrite length_map, length_seq; exact Hi).
  rewrite map_nth, seq_nth by exact Hi. reflexivity.
Qed.

(** X10: when the very first read of a listing GET fails, the buffer has
    just been allocated and holds nothing, yet the handler takes its string
    length: the size the callback reports is the offset of the first zero
    byte the allocator happened to leave in the fresh block, any value below
    4096, and with no zero byte in the block the scan leaves the block. *)
Theorem listing_read_failure_reports_heap_garbage
    (junk : nat -> byte) (x : GwObexXfer) (t : transfer_data) (e : Z)
    (od : bool) (cb : transfer_callback) :
  buffer t = None -> buffer_len t = 0 -> filled t = 0 ->
  callback t = Some cb ->
  (forall k : nat,
      (k < Z.to_nat DEFAULT_BUFFER_SIZE)%nat -> junk k = NUL ->
      (forall i, (i < k)%nat -> junk i <> NUL) ->
      exists t',
        get_xfer_listing_progress junk x t (XferReadFail e) od
        = Ok (t', [XferRead x 0 DEFAULT_BUFFER_SIZE false 0;
                   Callback cb (Z.of_nat k) e]) /\
        size t' = Z.of_nat k /\ filled t' = 0) /\
  ((forall i, (i < Z.to_nat DEFAULT_BUFFER_SIZE)%nat -> junk i <> NUL) ->
   get_xfer_listing_progress junk x t (XferReadFail e) od
   = Fault Unterminated).
Proof.
  intros Hb Hl Hf Hcb.
  assert (Hstep : get_xfer_listing_progress junk x t (XferReadFail e) od
                  = listing_done (set_err e (grow junk t))
                      [XferRead x 0 DEFAULT_BUFFER_SIZE false 0]).
  { unfold get_xfer_listing_progress, listing_reserve.
    rewrite Hl, Hf.
    change (0 - 0 <? DEFAULT_BUFFER_SIZE) with true. cbv beta iota.
    cbn [filled grow set_buffer set_buffer_len]. rewrite Hf. reflexivity. }
  assert (Hmem : mem (buffer (set_err e (grow junk t)))
                 = g_realloc junk [] DEFAULT_BUFFER_SIZE).
  { unfold grow. cbn [buffer set_err set_buffer set_buffer_len mem
                       buffer_len].
    rewrite Hb, Hl. reflexivity. }
  rewrite Hstep. unfold listing_done. rewrite Hmem.
  destruct (g_realloc_fresh junk DEFAULT_BUFFER_SIZE) as (Glen & Gnth).
  split.
  - intros k Hk Hn Hfirst.
    rewrite (strlen_first_nul _ k).
    + cbn [bind]. eexists. split; [ | split].
      * cbn [callback set_size set_err grow set_buffer set_buffer_len
             size err].
        rewrite Hcb. reflexivity.
      * reflexivity.
      * cbn [filled set_size set_err grow set_buffer set_buffer_len].
        exact Hf.
    + rewrite Glen. exact Hk.
    + rewrite Gnth by exact Hk. exact Hn.
    + intros i Hi. rewrite Gnth by lia. apply Hfirst. exact Hi.
  - intros Hnone. rewrite strlen_no_nul; [reflexivity | ].
    intros i Hi. rewrite Glen in Hi. rewrite Gnth by exact Hi.
    apply Hnone. exact Hi.
Qed.

Lemma listing_read_failure_reports_heap_garbage_witness :
  exists t',
    get_xfer_listing_progress
      (fun i => if Nat.eqb i 37 then NUL else "?"%byte) 7%nat
      started_listing_transfer (XferReadFail (- EIO)) false
    = Ok (t', [XferRead 7%nat 0 DEFAULT_BUFFER_SIZE false 0;
               Callback example_callback 37 (- EIO)]).
Proof.
  destruct (listing_read_failure_reports_heap_garbage
              (fun i => if Nat.eqb i 37 then NUL else "?"%byte) 7%nat
              started_listing_transfer (- EIO) false example_callback
              eq_refl eq_refl eq_refl eq_refl) as (H & _).
  destruct (H 37%nat) as (t' & E & _).
  - unfold DEFAULT_BUFFER_SIZE. lia.
  - reflexivity.
  - intros i Hi. destruct (Nat.eqb i 37) eqn:C.
    + apply Nat.eqb_eq in C. lia.
    + discriminate.
  - exists t'. exact E.
Defined.

(** ** File-streaming GET, chunk after chunk *)

Lemma written_bytes_app (tr1 tr2 : trace) :
  written_bytes (tr1 ++ tr2) = written_bytes tr1 ++ written_bytes tr2.
Proof.
  induction tr1 as [ | e tr1 IH]; simpl; [reflexivity | ].
  destruct e; try exact IH. rewrite IH, app_assoc. reflexivity.
Qed.

(** One step with an open descriptor, an empty buffer and a write that does
    not fail. *)
Lemma get_step_writes_chunk (x : GwObexXfer) (t : transfer_data)
    (c : list byte) (osz w errno : Z) (cb : transfer_callback) :
  0 < fd t -> filled t = 0 -> buffer_ok t -> callback t = Some cb ->
  Zlength c <= capacity t -> 0 <= w ->
  exists t' tr,
    get_xfer_progress x t (XferReadOk c) osz w errno = Ok (t', tr) /\
    fd t' = fd t /\ filled t' = 0 /\ buffer_ok t' /\
    callback t' = Some cb /\ capacity t' = capacity t /\
    err t' = err t /\
    transferred t' = transferred t + Zlength c /\
    written_bytes tr = c /\
    callbacks tr = [Callback cb (transferred t + Zlength c) (err t)].
Proof.
  intros Hfd Hf ((I1 & I2) & I3) Hcb Hfit Hw.
  unfold get_xfer_progress, progress_done, capacity in *.
  set (t0 := if buffer_len t =? 0 then _ else t).
  assert (H0 : filled t0 = 0 /\ fd t0 = fd t /\ callback t0 = Some cb /\
               err t0 = err t /\ transferred t0 = transferred t /\
               size t0 = size t /\
               buffer_len t0 = (if buffer_len t =? 0
                                then DEFAULT_BUFFER_SIZE
                                else buffer_len t) /\
               Zlength (mem (buffer t0)) = buffer_len t0 /\
               0 < buffer_len t0).
  { subst t0. destruct (buffer_len t =? 0) eqn:E;
      cbn [buffer filled buffer_len set_buffer set_buffer_len mem fd
           callback err transferred size].
    - rewrite g_new0_Zlength by (unfold DEFAULT_BUFFER_SIZE; lia).
      unfold DEFAULT_BUFFER_SIZE. repeat split; try assumption; lia.
    - apply Z.eqb_neq in E. repeat split; try assumption; lia. }
  destruct H0 as (J1 & J2 & J3 & J4 & J5 & J6 & J7 & J8 & J9).
  clearbody t0. rewrite <- J7 in Hfit.
  pose proof (Zlength_nonneg c) as Hlen.
  destruct (store_safe (mem (buffer t0)) (filled t0) c) as (b & Hb);
    [lia | lia | ].
  assert (P : poke t0 (filled t0) c = Ok (with_block b t0))
    by (unfold poke; rewrite Hb; reflexivity).
  rewrite P. cbn [bind].
  pose proof (store_Zlength _ _ _ _ Hb) as HL.
  pose proof (with_block_mem b t0 HL) as Hm.
  destruct (with_block_fields b t0)
    as (_ & W1 & W2 & _ & W3 & W4 & W5 & W6 & W7).
  destruct (slice_safe (mem (buffer (with_block b t0))) 0 (Zlength c))
    as (bytes & Hs); [lia | lia | rewrite Hm; lia | ].
  assert (Hbytes : bytes = c).
  { apply slice_Ok in Hs. destruct Hs as (_ & _ & _ & ->).
    rewrite Hm. rewrite J1 in Hb. apply store_written in Hb.
    simpl in Hb. rewrite Zlength_correct, Nat2Z.id. exact Hb. }
  assert (Hfdb : (0 <? fd t) = true) by (apply Z.ltb_lt; exact Hfd).
  assert (Hwb : (w <? 0) = false) by (apply Z.ltb_ge; exact Hw).
  assert (Hcap : forall v, 0 < v ->
                 (if v =? 0 then DEFAULT_BUFFER_SIZE else v) = v)
    by (intros v Hv; destruct (v =? 0) eqn:E;
        [apply Z.eqb_eq in E; lia | reflexivity]).
  cbn [size set_transferred set_filled]. rewrite W3.
  destruct (size t0 =? 0); cbv beta iota;
    cbn [fd buffer set_size set_transferred set_filled];
    rewrite W2, J2, Hfdb, Hs; cbn [bind]; rewrite Hwb;
    cbn [transferred size set_filled set_size set_transferred];
    match goal with
    | |- context [if ?c then _ else _] => destruct c
    end;
    do 2 eexists; (split; [reflexivity | ]);
    unfold buffer_ok;
    cbn [fd filled callback err transferred buffer buffer_len
         set_filled set_size set_transferred];
    rewrite ?W1, ?W2, ?W4, ?W5, ?W7, ?Hm, ?HL, ?J2, ?J3, ?J4, ?J5, ?J8,
      ?Hbytes;
    rewrite ?(Hcap _ J9);
    repeat split; try lia; try reflexivity;
    rewrite ?written_bytes_app; cbn [written_bytes];
    rewrite ?app_nil_r; try reflexivity;
    unfold callbacks; rewrite ?filter_app; reflexivity.
Qed.

(** X11: a file-streaming GET with an open descriptor and an empty buffer,
    chunk after chunk, each chunk within the capacity offered and each
    write() returning no error: the bytes handed to write() are, in order,
    exactly the bytes the transport delivered; the buffer is empty again
    after every step; and each step delivers one callback, carrying the
    running total of bytes received. *)
Theorem get_chunks_stream_to_the_descriptor
    (x : GwObexXfer) (cb : transfer_callback) (steps : list get_step) :
  forall t,
    0 < fd t -> filled t = 0 -> buffer_ok t -> callback t = Some cb ->
    Forall (fun s => Zlength (step_chunk s) <= capacity t
                     /\ 0 <= step_write_ret s) steps ->
    exists t' tr,
      get_chunks x t steps = Ok (t', tr) /\
      written_bytes tr = List.concat (map step_chunk steps) /\
      transferred t'
      = transferred t + Zlength (List.concat (map step_chunk steps)) /\
      filled t' = 0 /\ err t' = err t /\
      callbacks tr
      = map (fun n => Callback cb n (err t))
            (running_totals (transferred t)
               (map (fun s => Zlength (step_chunk s)) steps)).
Proof.
  induction steps as [ | s steps IH]; intros t Hfd Hf Hok Hcb Hall.
  - exists t, []. simpl. repeat split; try assumption.
    rewrite Zlength_nil. lia.
  - cbn [get_chunks map List.concat running_totals].
    inversion Hall as [ | s' l' (Hs1 & Hs2) Hrest]; subst.
    destruct (get_step_writes_chunk x t (step_chunk s) (step_object_size s)
                (step_write_ret s) (step_write_errno s) cb
                Hfd Hf Hok Hcb Hs1 Hs2)
      as (t1 & tr1 & E1 & F1 & Fl1 & Ok1 & C1 & Cap1 & Er1 & T1 & W1 & Cb1).
    rewrite E1. cbn [bind].
    assert (Hrest' : Forall (fun s => Zlength (step_chunk s) <= capacity t1
                                     /\ 0 <= step_write_ret s) steps)
      by (rewrite Cap1; exact Hrest).
    assert (Hfd1 : 0 < fd t1) by lia.
    destruct (IH t1 Hfd1 Fl1 Ok1 C1 Hrest')
      as (t2 & tr2 & E2 & W2 & T2 & Fl2 & Er2 & Cb2).
    rewrite E2. cbn [bind]. exists t2, (tr1 ++ tr2).
    split; [reflexivity | ].
    split; [rewrite written_bytes_app, W1, W2; reflexivity | ].
    split; [rewrite T2, T1, Zlength_app; lia | ].
    split; [exact Fl2 | ]. split; [congruence | ].
    unfold callbacks in *. rewrite filter_app, Cb1, Cb2, T1, Er1.
    reflexivity.
Qed.

Lemma get_chunks_stream_to_the_descriptor_witness :
  exists t' tr,
    get_chunks 7%nat short_write_transfer scenario_a_steps = Ok (t', tr) /\
    written_bytes tr = List.concat (map step_chunk scenario_a_steps) /\
    transferred t' = 10000 /\
    callbacks tr = [Callback example_callback 4096 0;
                    Callback example_callback 8192 0;
                    Callback example_callback 10000 0].
Proof.
  assert (Hfd : 0 < fd short_write_transfer) by (vm_compute; reflexivity).
  assert (Hok : buffer_ok short_write_transfer)
    by (vm_compute; repeat split; intros C; discriminate C).
  assert (Hall : Forall (fun s => Zlength (step_chunk s)
                                  <= capacity short_write_transfer
                                  /\ 0 <= step_write_ret s)
                        scenario_a_steps)
    by (repeat constructor; vm_compute; intros C; discriminate C).
  destruct (get_chunks_stream_to_the_descriptor
              7%nat example_callback scenario_a_steps short_write_transfer
              Hfd eq_refl Hok eq_refl Hall)
    as (t' & tr & E & Hw & Ht & _ & _ & Hcb).
  exists t', tr. split; [exact E | ]. split; [exact Hw | ].
  split; [rewrite Ht; vm_compute; reflexivity | ].
  rewrite Hcb. vm_compute. reflexivity.
Defined.

(** X12: what follows a GET start whose open() failed unnoticed.  The
    transfer carries the negative descriptor, so every continuation step
    skips the write: the bytes received are counted in [transferred] and
    reported through the callback with the error field untouched, and none
    of them is written anywhere; the descriptor stays negative, so the same
    holds for every later step. *)
Theorem unnoticed_open_failure_discards_data
    (t : transfer_data) (func' : option nat) (user_data : nat)
    (e : start_env) (x : GwObexXfer) :
  xfer t = None ->
  g_strcmp0_eq (type t) "x-bt/vcard-listing" = false ->
  g_strcmp0_eq (type t) "x-obex/folder-listing" = false ->
  0 <= fd t -> open_ret e < 0 -> begun e = Some x ->
  let t1 := snd (fst (transfer_get t func' user_data e)) in
  fst (fst (transfer_get t func' user_data e)) = 0 /\
  fd t1 = open_ret e /\
  forall chunk osz w errno t' tr,
    get_xfer_progress x t1 (XferReadOk chunk) osz w errno = Ok (t', tr) ->
    filter is_sys_write tr = [] /\
    transferred t' = transferred t + Zlength chunk /\
    err t' = err t /\ fd t' = open_ret e /\
    callbacks tr
    = invoke (callback_after_start func' user_data t) (transferred t')
             (err t).
Proof.
  intros Hx H1 H2 Hfd Ho Hb.
  assert (E : transfer_get t func' user_data e
              = (0,
                 match func' with
                 | Some f => transfer_set_callback f user_data
                               (set_xfer (Some x) (set_fd (open_ret e) t))
                 | None => set_xfer (Some x) (set_fd (open_ret e) t)
                 end,
                 [SysOpen (match name t with
                           | Some n => Some n
                           | None => filename t
                           end) O_WRONLY_CREAT_0600 (open_ret e);
                  ObexGetAsync (filename t) (type t) (params t) (Some x);
                  XferSetCallback x cb_get_xfer_progress])).
  { unfold transfer_get. rewrite Hx, H1, H2. simpl.
    destruct (fd t <? 0) eqn:C; [apply Z.ltb_lt in C; lia | ].
    simpl. rewrite Hb. simpl. destruct func'; reflexivity. }
  rewrite E. cbn [fst snd].
  set (t1 := match func' with
             | Some f => _
             | None => _
             end).
  assert (F : fd t1 = open_ret e /\ transferred t1 = transferred t /\
              err t1 = err t /\
              callback t1 = callback_after_start func' user_data t)
    by (subst t1; unfold callback_after_start; destruct func'; simpl;
        auto).
  destruct F as (F1 & F2 & F3 & F4). clearbody t1.
  split; [reflexivity | ]. split; [exact F1 | ].
  intros chunk osz w errno t' tr H.
  pose proof (get_xfer_progress_same_handles _ _ _ _ _ _ _ _ H)
    as (_ & _ & S3).
  apply get_xfer_progress_read in H. cbv zeta in H.
  destruct H as (ta & _ & Ht & _ & _ & H).
  assert (C : (0 <? fd t1) = false) by (apply Z.ltb_ge; lia).
  rewrite C in H. destruct H as (He & _ & ->).
  rewrite F4, F3, F2 in *.
  split; [ | split; [exact Ht | split; [exact He | split; [lia | ]]]].
  - destruct (size t1 =? 0); destruct (_ + _ =? _);
      destruct (callback_after_start func' user_data t); reflexivity.
  - destruct (size t1 =? 0); destruct (_ + _ =? _);
      destruct (callback_after_start func' user_data t); reflexivity.
Qed.

Lemma unnoticed_open_failure_discards_data_witness :
  let t1 := snd (fst (transfer_get created_file_transfer (Some 1%nat) 2%nat
                        unwritable_env)) in
  exists t' tr,
    get_xfer_progress 7%nat t1 (XferReadOk ten_bytes) 100 10 0
    = Ok (t', tr) /\
    filter is_sys_write tr = [] /\ transferred t' = 10 /\
    callbacks tr = [Callback example_callback 10 0].
Proof.
  intros t1.
  destruct (get_xfer_progress 7%nat t1 (XferReadOk ten_bytes) 100 10 0)
    as [[t' tr] | | ] eqn:E; try (vm_compute in E; discriminate).
  assert (Hfd : 0 <= fd created_file_transfer) by (vm_compute; discriminate).
  assert (Ho : open_ret unwritable_env < 0) by (vm_compute; reflexivity).
  destruct (unnoticed_open_failure_discards_data
              created_file_transfer (Some 1%nat) 2%nat unwritable_env 7%nat
              eq_refl eq_refl eq_refl Hfd Ho eq_refl) as (_ & _ & H).
  destruct (H ten_bytes 100 10 0 t' tr E) as (H1 & H2 & _ & _ & H5).
  exists t', tr. split; [reflexivity | ]. split; [exact H1 | ].
  split; [exact H2 | ]. rewrite H5, H2. reflexivity.
Defined.

(** ** PUT from memory, step after step *)

Lemma sent_app (tr1 tr2 : trace) :
  sent (tr1 ++ tr2) = sent tr1 ++ sent tr2.
Proof.
  induction tr1 as [ | e tr1 IH]; simpl; [reflexivity | ].
  destruct e as [ | | | | | | | | | | x' bytes ok' written | | | | ];
    try exact IH.
  destruct ok'; [ | exact IH].
  rewrite IH, app_assoc. reflexivity.
Qed.

Lemma firstn_plus (A : Type) (n m : nat) :
  forall l : list A,
    firstn (n + m) l = firstn n l ++ firstn m (skipn n l).
Proof.
  induction n as [ | n IH]; intros l; [reflexivity | ].
  destruct l as [ | a l]; simpl; [rewrite firstn_nil; reflexivity | ].
  rewrite IH. reflexivity.
Qed.

Lemma firstn_skipn_add (A : Type) (l : list A) (a n m : nat) :
  firstn n (skipn a l) ++ firstn m (skipn (a + n) l)
  = firstn (n + m) (skipn a l).
Proof.
  rewrite firstn_plus, skipn_skipn. f_equal. f_equal. f_equal. lia.
Qed.

Lemma within_budget_total (ws : list Z) :
  forall remaining,
    0 <= remaining ->
    within_budget remaining ws -> 0 <= total ws <= remaining.
Proof.
  induction ws as [ | w ws IH]; intros remaining Hr H.
  - unfold total. simpl. lia.
  - destruct H as (Hw & H). apply IH in H; [ | lia].
    unfold total in *. simpl. lia.
Qed.

(** One step of a PUT from memory whose write and flush succeed. *)
Lemma put_buf_step_sends (x : GwObexXfer) (t : transfer_data) (w : Z) :
  0 <= transferred t <= size t ->
  size t <= Zlength (mem (buffer t)) ->
  0 <= w <= size t - transferred t ->
  exists t' tr,
    put_buf_xfer_progress x t (XferWriteOk w) XferFlushOk = Ok (t', tr) /\
    transferred t' = transferred t + w /\
    size t' = size t /\ buffer t' = buffer t /\ err t' = err t /\
    callback t' = callback t /\
    sent tr = firstn (Z.to_nat w)
                (skipn (Z.to_nat (transferred t)) (mem (buffer t))) /\
    callbacks tr = invoke (callback t) (transferred t + w) (err t).
Proof.
  intros (H1 & H2) H3 (H4 & H5).
  unfold put_buf_xfer_progress, progress_done.
  destruct (transferred t =? size t) eqn:E.
  - apply Z.eqb_eq in E. assert (w = 0) by lia. subst w.
    exists t, ([] ++ invoke (callback t) (transferred t) (err t)).
    rewrite Z.add_0_r. repeat split;
      destruct (callback t); reflexivity.
  - destruct (slice_safe (mem (buffer t)) (transferred t)
                (size t - transferred t)) as (bytes & Hs);
      [lia | lia | lia | ].
    rewrite Hs. cbn [bind]. apply slice_Ok in Hs.
    destruct Hs as (_ & _ & _ & ->).
    do 2 eexists. split; [reflexivity | ].
    cbn [transferred size buffer err callback set_transferred].
    repeat split.
    + rewrite !sent_app. cbn [sent].
      replace (sent (invoke (callback t) (transferred t + w) (err t)))
        with (@nil byte) by (destruct (callback t); reflexivity).
      rewrite !app_nil_r, firstn_firstn. f_equal. lia.
    + unfold callbacks. rewrite !filter_app. simpl.
      destruct (callback t); reflexivity.
Qed.

(** X13: a PUT from memory, step after step, with a transport that never
    reports more bytes taken than it was offered and flushes that succeed.
    No step reads outside the source buffer; [transferred] never passes
    [size]; the bytes the transport took are, in order and without gap or
    repetition, the bytes of the source buffer from the starting offset
    on; and each step delivers one callback carrying the running total. *)
Theorem put_buf_delivers_the_buffer_in_order
    (x : GwObexXfer) (cb : transfer_callback) (ws : list Z) :
  forall t,
    callback t = Some cb ->
    0 <= transferred t <= size t ->
    size t <= Zlength (mem (buffer t)) ->
    within_budget (size t - transferred t) ws ->
    exists t' tr,
      put_buf_steps x t ws = Ok (t', tr) /\
      transferred t' = transferred t + total ws /\
      transferred t' <= size t /\
      sent tr = firstn (Z.to_nat (total ws))
                  (skipn (Z.to_nat (transferred t)) (mem (buffer t))) /\
      callbacks tr
      = map (fun n => Callback cb n (err t))
            (running_totals (transferred t) ws).
Proof.
  induction ws as [ | w ws IH]; intros t Hcb Ht Hsz Hb.
  - exists t, []. simpl. repeat split; lia.
  - destruct Hb as (Hw & Hb).
    destruct (put_buf_step_sends x t w Ht Hsz Hw)
      as (t1 & tr1 & E1 & T1 & S1 & B1 & Er1 & C1 & Se1 & Cb1).
    cbn [put_buf_steps]. rewrite E1. cbn [bind].
    assert (Ht1 : 0 <= transferred t1 <= size t1) by lia.
    assert (Hsz1 : size t1 <= Zlength (mem (buffer t1)))
      by (rewrite S1, B1; exact Hsz).
    assert (Hb1 : within_budget (size t1 - transferred t1) ws)
      by (rewrite S1, T1;
          replace (size t - (transferred t + w))
            with (size t - transferred t - w) by lia; exact Hb).
    assert (Hcb1 : callback t1 = Some cb) by congruence.
    destruct (IH t1 Hcb1 Ht1 Hsz1 Hb1)
      as (t2 & tr2 & E2 & T2 & L2 & Se2 & Cb2).
    rewrite E2. cbn [bind]. exists t2, (tr1 ++ tr2).
    assert (Htot : 0 <= total ws)
      by (apply within_budget_total in Hb; lia).
    split; [reflexivity | ]. cbn [total fold_right]. fold (total ws).
    split; [lia | ]. split; [lia | ]. split.
    + rewrite sent_app, Se1, Se2, B1, T1.
      rewrite Z2Nat.inj_add by lia.
      rewrite firstn_skipn_add. f_equal. lia.
    + unfold callbacks in *. rewrite filter_app, Cb1, Cb2, Hcb, T1, Er1.
      reflexivity.
Qed.

Lemma put_buf_delivers_the_buffer_in_order_witness :
  exists t' tr,
    put_buf_steps 7%nat memory_put_transfer [5; 0; 6; 0] = Ok (t', tr) /\
    transferred t' = 11 /\
    sent tr = list_byte_of_string "hello world" /\
    callbacks tr = [Callback example_callback 5 0;
                    Callback example_callback 5 0;
                    Callback example_callback 11 0;
                    Callback example_callback 11 0].
Proof.
  assert (Ht : 0 <= transferred memory_put_transfer
               <= size memory_put_transfer)
    by (vm_compute; split; intros C; discriminate C).
  assert (Hsz : size memory_put_transfer
                <= Zlength (mem (buffer memory_put_transfer)))
    by (vm_compute; intros C; discriminate C).
  assert (Hb : within_budget (size memory_put_transfer
                              - transferred memory_put_transfer)
                             [5; 0; 6; 0])
    by (vm_compute; repeat split; intros C; discriminate C).
  destruct (put_buf_delivers_the_buffer_in_order
              7%nat example_callback [5; 0; 6; 0] memory_put_transfer
              eq_refl Ht Hsz Hb)
    as (t' & tr & E & Htr & _ & Hs & Hcb).
  exists t', tr. split; [exact E | ].
  split; [rewrite Htr; reflexivity | ].
  split; [rewrite Hs; reflexivity | ].
  rewrite Hcb. reflexivity.
Defined.

(** ** PUT from a local file, step after step *)

Section PutFileDelivery.

Variable world : Type.
Variable sys_read : world -> Z -> Z -> world * sys_read_res.
Variable xfer_write : world -> GwObexXfer -> list byte
                      -> world * xfer_write_res.

(** The bytes of the local file not yet read.  A read returns the next of
    them; a failed read and the transport leave them alone. *)
Variable unread : world -> list byte.

Hypothesis read_next :
  forall w fd' count w' bytes,
    sys_read w fd' count = (w', SysReadOk bytes) ->
    unread w = bytes ++ unread w'.

Hypothesis read_fail_keeps :
  forall w fd' count w' errno,
    sys_read w fd' count = (w', SysReadFail errno) -> unread w' = unread w.

Hypothesis write_keeps_unread :
  forall w x bytes w' r,
    xfer_write w x bytes = (w', r) -> unread w' = unread w.

Lemma put_xfer_loop_conserves (fuel : nat) :
  forall (w : world) (x : GwObexXfer) (t : transfer_data)
         (w' : world) (t' : transfer_data) (tr : trace) (ex : loop_exit),
    put_xfer_loop sys_read xfer_write fuel w x t = Ok (w', t', tr, ex) ->
    buffered_bytes t ++ unread w
    = sent tr ++ pending_bytes t' ex ++ unread w' /\
    (List.length (unread w') <= List.length (unread w))%nat.
Proof.
  induction fuel as [ | fuel IH]; intros w x t w' t' tr ex H;
    simpl in H; [discriminate | ].
  destruct (sys_read w (fd t) (buffer_len t - filled t)) as [w1 r] eqn:Er.
  destruct r as [bytes | errno].
  - apply read_next in Er. bind_inv H.
    pose proof (poke_fields _ _ _ _ Ha)
      as (_ & _ & _ & _ & _ & _ & _ & P6 & _).
    destruct (poke_Ok _ _ _ _ Ha) as (b & Hst & _ & Hb).
    pose proof (store_extends _ _ _ _ Hst) as Hext.
    assert (Hbuf : firstn (Z.to_nat (filled a + Zlength bytes))
                     (mem (buffer a))
                   = buffered_bytes t ++ bytes)
      by (rewrite Hb, P6; exact Hext).
    assert (Hlen : (List.length (unread w1) <= List.length (unread w))%nat)
      by (rewrite Er, length_app; lia).
    simpl in H.
    destruct (filled a + Zlength bytes =? 0) eqn:E0.
    + injection H as <- <- <- <-. split; [ | exact Hlen].
      unfold pending_bytes, buffered_bytes at 2.
      cbn [filled buffer set_filled sent app].
      rewrite Hbuf, Er, app_assoc. reflexivity.
    + bind_inv H. rename a0 into offered.
      pose proof (slice_Zlength _ _ _ _ Ha0) as Hol.
      apply slice_Ok in Ha0. destruct Ha0 as (_ & _ & _ & Hoff).
      change (Z.to_nat 0) with O in Hoff. cbn [skipn] in Hoff.
      rewrite Hbuf in Hoff.
      destruct (xfer_write w1 x offered) as [w2 r2] eqn:Ew.
      apply write_keeps_unread in Ew.
      assert (Hl2 : List.length (unread w2) = List.length (unread w1))
        by (rewrite Ew; reflexivity).
      destruct r2 as [written | e].
      * destruct (filled a + Zlength bytes - written =? 0) eqn:E1.
        -- apply Z.eqb_eq in E1. bind_inv H.
           destruct a0 as [[[w3 t3] tr3] ex3].
           injection H as <- <- <- <-.
           apply IH in Ha0. destruct Ha0 as (Hc & Hl).
           unfold buffered_bytes at 1 in Hc.
           cbn [filled buffer set_filled set_transferred] in Hc.
           rewrite E1 in Hc. cbn [Z.to_nat firstn app] in Hc.
           split; [ | lia].
           cbn [sent]. rewrite firstn_all2
             by (rewrite Zlength_correct in Hol; lia).
           rewrite <- app_assoc, <- Hc, Ew, Hoff, Er, app_assoc.
           reflexivity.
        -- injection H as <- <- <- <-. split; [ | lia].
           unfold pending_bytes.
           cbn [filled buffer set_filled set_transferred sent].
           replace (filled a + Zlength bytes - written + written)
             with (filled a + Zlength bytes) by lia.
           rewrite Hbuf, <- Hoff, app_nil_r, app_assoc, firstn_skipn.
           rewrite Ew, Hoff, Er, app_assoc. reflexivity.
      * injection H as <- <- <- <-. split; [ | lia].
        unfold pending_bytes, buffered_bytes at 2.
        cbn [filled buffer set_filled sent app].
        rewrite Hbuf, Ew, Er, app_assoc. reflexivity.
  - apply read_fail_keeps in Er. injection H as <- <- <- <-.
    split; [ | rewrite Er; lia]. unfold pending_bytes. cbn [sent app].
    rewrite Er. reflexivity.
Qed.

Lemma sent_invoke (cb : option transfer_callback) (n e : Z) :
  sent (invoke cb n e) = [].
Proof. destruct cb; reflexivity. Qed.

(** One continuation step: the bytes buffered and unread before it are the
    bytes the transport took, then those buffered and unread after it. *)
Lemma put_step_conserves
    (fuel : nat) (w : world) (x : GwObexXfer) (t : transfer_data)
    (w' : world) (t' : transfer_data) (tr : trace) (ex : loop_exit) :
  (buffer_len t = 0 -> filled t = 0) ->
  put_xfer_progress sys_read xfer_write fuel w x t = Ok (w', t', tr, ex) ->
  buffered_bytes t ++ unread w
  = sent tr ++ buffered_bytes t' ++ unread w' /\
  (List.length (unread w') <= List.length (unread w))%nat /\
  buffer_len t' <> 0.
Proof.
  intros Hpre H. unfold put_xfer_progress, progress_done in H.
  set (t0 := if buffer_len t =? 0 then _ else t) in H.
  assert (F0 : buffered_bytes t0 = buffered_bytes t /\ buffer_len t0 <> 0).
  { subst t0. destruct (buffer_len t =? 0) eqn:E.
    - apply Z.eqb_eq in E. unfold buffered_bytes.
      cbn [filled buffer buffer_len set_buffer set_buffer_len].
      rewrite (Hpre E).
      split; [reflexivity | unfold DEFAULT_BUFFER_SIZE; lia].
    - apply Z.eqb_neq in E. auto. }
  destruct F0 as (F1 & F2). clearbody t0.
  bind_inv H. destruct a as [[[w1 t1] tr1] ex1].
  pose proof (put_xfer_loop_spec _ _ _ _ _ _ _ _ _ _ _ Ha)
    as (Sbl & _ & _ & _ & _ & Sex).
  apply put_xfer_loop_conserves in Ha. destruct Ha as (Hc & Hl).
  rewrite F1 in Hc.
  assert (Hsimple :
            forall t2,
              t2 = t1 -> pending_bytes t1 ex1 = buffered_bytes t1 ->
              Ok (w1, t2,
                  tr1 ++ invoke (callback t2) (transferred t2)
                                (exit_err ex1), ex1)
              = Ok (w', t', tr, ex) ->
              buffered_bytes t ++ unread w
              = sent tr ++ buffered_bytes t' ++ unread w' /\
              (List.length (unread w') <= List.length (unread w))%nat /\
              buffer_len t' <> 0).
  { intros t2 -> Hp E. injection E as <- <- <- <-.
    rewrite sent_app, sent_invoke, app_nil_r, <- Hp.
    split; [exact Hc | ]. split; [exact Hl | congruence]. }
  destruct ex1 as [errno | | e | written];
    try (bind_inv H; injection Ha as <-;
         apply (Hsimple t1 eq_refl eq_refl H)).
  bind_inv H. bind_inv Ha. rename a0 into b. injection Ha as <-.
  destruct Sex as (_ & tr0 & offered & _ & Hs).
  destruct (memmove_front _ _ _ _ _ Ha0 Hs) as (Hbl & Hfront).
  destruct (with_block_fields b t1)
    as (_ & _ & _ & _ & _ & _ & W1 & W2 & _).
  injection H as <- <- <- <-.
  rewrite sent_app, sent_invoke, app_nil_r.
  split; [ | split; [exact Hl | congruence]].
  rewrite Hc. unfold pending_bytes, buffered_bytes.
  rewrite with_block_mem by exact Hbl. rewrite W2, Hfront.
  apply slice_Ok in Hs. destruct Hs as (_ & _ & _ & ->).
  reflexivity.
Qed.

(** X14: a PUT from a local file, any number of continuation steps in a
    row, whatever their exits (short writes, failed writes, failed reads).
    No byte of the file is lost, repeated or reordered on its way through
    the buffer: what was buffered and unread before the run is what the
    transport took during it, followed by what is buffered and unread
    after it. *)
Theorem put_file_run_loses_no_byte (n fuel : nat) (x : GwObexXfer) :
  forall (w : world) (t : transfer_data)
         (w' : world) (t' : transfer_data) (tr : trace)
         (exs : list loop_exit),
    (buffer_len t = 0 -> filled t = 0) ->
    put_file_run sys_read xfer_write n fuel w x t = Ok (w', t', tr, exs) ->
    buffered_bytes t ++ unread w
    = sent tr ++ buffered_bytes t' ++ unread w'.
Proof.
  induction n as [ | n IH]; intros w t w' t' tr exs Hpre H.
  - simpl in H. injection H as <- <- <- <-. reflexivity.
  - cbn [put_file_run] in H. bind_inv H.
    destruct a as [[[w1 t1] tr1] ex1].
    apply (put_step_conserves _ _ _ _ _ _ _ _ Hpre) in Ha.
    destruct Ha as (Hc & _ & Hbl).
    bind_inv H. destruct a as [[[w2 t2] tr2] exs2].
    injection H as <- <- <- <-.
    apply IH in Ha; [ | intros C; contradiction].
    rewrite sent_app, Hc, Ha, !app_assoc. reflexivity.
Qed.

(** The file is a regular one and the transport is live: no read and no
    write fails, a read returns no more than it was asked for and at least
    one byte while any is left, the transport takes no more than it was
    offered and at least one byte of a non-empty offer. *)
Hypothesis read_succeeds :
  forall w fd' count w' r,
    sys_read w fd' count = (w', r) -> exists bytes, r = SysReadOk bytes.

Hypothesis read_bounded :
  forall w fd' count w' bytes,
    sys_read w fd' count = (w', SysReadOk bytes) ->
    0 <= count -> Zlength bytes <= count.

Hypothesis read_progress :
  forall w fd' count w' bytes,
    sys_read w fd' count = (w', SysReadOk bytes) ->
    0 < count -> unread w <> [] -> bytes <> [].

Hypothesis write_succeeds :
  forall w x bytes w' r,
    xfer_write w x bytes = (w', r) -> exists written, r = XferWriteOk written.

Hypothesis write_bounded :
  forall w x bytes w' written,
    xfer_write w x bytes = (w', XferWriteOk written) ->
    0 <= written <= Zlength bytes.

Hypothesis write_progress :
  forall w x bytes w' written,
    xfer_write w x bytes = (w', XferWriteOk written) ->
    bytes <> [] -> 0 < written.

Lemma Zlength_firstn_within (l : list byte) (n : Z) :
  0 <= n <= Zlength l -> Zlength (firstn (Z.to_nat n) l) = n.
Proof.
  intros H. rewrite !Zlength_correct in *. rewrite length_firstn. lia.
Qed.

Lemma Zlength_zero_nil (l : list byte) : Zlength l = 0 -> l = [].
Proof. apply Zlength_nil_inv. Qed.

Lemma put_xfer_loop_advances (fuel : nat) :
  forall (w : world) (x : GwObexXfer) (t : transfer_data)
         (w' : world) (t' : transfer_data) (tr : trace) (ex : loop_exit),
    buffer_ok t -> 0 < buffer_len t ->
    put_xfer_loop sys_read xfer_write fuel w x t = Ok (w', t', tr, ex) ->
    transferred t' = transferred t + Zlength (sent tr) /\
    match ex with
    | Exhausted => unread w' = []
    | LoopEnded _ => sent tr <> []
    | _ => False
    end.
Proof.
  induction fuel as [ | fuel IH];
    intros w x t w' t' tr ex ((I1 & I2) & I3) Hcap H;
    simpl in H; [discriminate | ].
  destruct (sys_read w (fd t) (buffer_len t - filled t)) as [w1 r] eqn:Er.
  destruct (read_succeeds _ _ _ _ _ Er) as (bytes & ->).
  pose proof (read_bounded _ _ _ _ _ Er) as Hrb.
  pose proof (read_progress _ _ _ _ _ Er) as Hrp.
  apply read_next in Er. bind_inv H.
  pose proof (Zlength_nonneg bytes) as Hlen.
  pose proof (poke_fields _ _ _ _ Ha)
    as (_ & _ & _ & _ & _ & P4 & P5 & P6 & _).
  destruct (poke_Ok _ _ _ _ Ha) as (b & Hst & _ & Hb).
  apply store_Zlength in Hst.
  simpl in H. rewrite P6, P4 in H.
  destruct (filled t + Zlength bytes =? 0) eqn:E0.
  - apply Z.eqb_eq in E0. injection H as <- <- <- <-.
    cbn [transferred set_filled sent]. rewrite P4, Zlength_nil.
    split; [lia | ].
    assert (Hnil : bytes = []) by (apply Zlength_zero_nil; lia).
    destruct (unread w) as [ | c u] eqn:Eu.
    + rewrite Hnil in Er. simpl in Er. symmetry. exact Er.
    + exfalso. apply Hrp; [lia | discriminate | exact Hnil].
  - apply Z.eqb_neq in E0. bind_inv H. rename a0 into offered.
    pose proof (slice_Zlength _ _ _ _ Ha0) as Hol.
    assert (Hne : offered <> [])
      by (intros ->; rewrite Zlength_nil in Hol; lia).
    destruct (xfer_write w1 x offered) as [w2 r2] eqn:Ew.
    destruct (write_succeeds _ _ _ _ _ Ew) as (written & ->).
    pose proof (write_bounded _ _ _ _ _ Ew) as Hwb.
    pose proof (write_progress _ _ _ _ _ Ew Hne) as Hwp.
    assert (Hfl : Zlength (firstn (Z.to_nat written) offered) = written)
      by (apply Zlength_firstn_within; exact Hwb).
    assert (Hfne : firstn (Z.to_nat written) offered <> [])
      by (intros C; rewrite C, Zlength_nil in Hfl; lia).
    destruct (filled t + Zlength bytes - written =? 0) eqn:E1.
    + apply Z.eqb_eq in E1. bind_inv H.
      destruct a0 as [[[w3 t3] tr3] ex3].
      injection H as <- <- <- <-.
      apply IH in Ha1.
      * destruct Ha1 as (Ht & Hex).
        cbn [transferred set_filled set_transferred] in Ht.
        cbn [sent]. rewrite Zlength_app, Hfl.
        split; [lia | ].
        destruct ex3; try exact Hex.
        intros C. apply app_eq_nil in C. destruct C as (C & _).
        exact (Hfne C).
      * unfold buffer_ok.
        cbn [filled buffer buffer_len set_filled set_transferred].
        rewrite Hb, P5, Hst. lia.
      * cbn [buffer_len set_filled set_transferred]. lia.
    + injection H as <- <- <- <-.
      cbn [transferred set_filled set_transferred sent].
      rewrite app_nil_r, Hfl. split; [lia | exact Hfne].
Qed.

Lemma put_step_advances
    (fuel : nat) (w : world) (x : GwObexXfer) (t : transfer_data)
    (w' : world) (t' : transfer_data) (tr : trace) (ex : loop_exit) :
  buffer_ok t ->
  put_xfer_progress sys_read xfer_write fuel w x t = Ok (w', t', tr, ex) ->
  transferred t' = transferred t + Zlength (sent tr) /\
  match ex with
  | Exhausted => unread w' = [] /\ filled t' = 0
  | LoopEnded _ => sent tr <> []
  | _ => False
  end.
Proof.
  intros Hok H. unfold put_xfer_progress, progress_done in H.
  set (t0 := if buffer_len t =? 0 then _ else t) in H.
  assert (F0 : buffer_ok t0 /\ 0 < buffer_len t0 /\
               transferred t0 = transferred t).
  { subst t0. destruct Hok as ((I1 & I2) & I3).
    destruct (buffer_len t =? 0) eqn:E.
    - apply Z.eqb_eq in E. unfold buffer_ok.
      cbn [filled buffer buffer_len transferred set_buffer set_buffer_len
           mem].
      rewrite g_new0_Zlength; unfold DEFAULT_BUFFER_SIZE; lia.
    - apply Z.eqb_neq in E. unfold buffer_ok. repeat split; lia. }
  destruct F0 as (Hok0 & Hcap & F3). clearbody t0.
  bind_inv H. destruct a as [[[w1 t1] tr1] ex1].
  pose proof (put_xfer_loop_spec _ _ _ _ _ _ _ _ _ _ _ Ha)
    as (_ & _ & _ & _ & _ & Sex).
  apply (put_xfer_loop_advances _ _ _ _ _ _ _ _ Hok0 Hcap) in Ha.
  destruct Ha as (Ht & Hex). rewrite F3 in Ht.
  destruct ex1 as [errno | | e | written]; try contradiction.
  - bind_inv H. injection Ha as <-. injection H as <- <- <- <-.
    rewrite sent_app, sent_invoke, app_nil_r.
    split; [exact Ht | ]. split; [exact Hex | apply Sex].
  - bind_inv H. bind_inv Ha. rename a0 into b. injection Ha as <-.
    destruct (with_block_fields b t1)
      as (_ & _ & _ & _ & _ & W0 & _).
    injection H as <- <- <- <-.
    rewrite sent_app, sent_invoke, app_nil_r, W0.
    split; [exact Ht | exact Hex].
Qed.

Lemma read_shortens (w : world) (fd' count : Z) (w' : world)
    (bytes : list byte) :
  sys_read w fd' count = (w', SysReadOk bytes) ->
  (List.length (unread w') + List.length bytes
   <= List.length (unread w))%nat.
Proof. intros H. apply read_next in H. rewrite H, length_app. lia. Qed.

Lemma write_does_not_lengthen (w : world) (x : GwObexXfer)
    (bytes : list byte) (w' : world) (r : xfer_write_res) :
  xfer_write w x bytes = (w', r) ->
  (List.length (unread w') <= List.length (unread w))%nat.
Proof. intros H. apply write_keeps_unread in H. rewrite H. lia. Qed.


Lemma put_file_run_completes (x : GwObexXfer) (m : nat) :
  forall (w : world) (t : transfer_data) (fuel : nat),
    List.length (buffered_bytes t ++ unread w) = m ->
    buffer_ok t ->
    (List.length (unread w) + 2 <= fuel)%nat ->
    exists n w' t' tr exs,
      put_file_run sys_read xfer_write n fuel w x t
      = Ok (w', t', tr, exs ++ [Exhausted]) /\
      Forall (fun ex => exists written, ex = LoopEnded written) exs /\
      sent tr = buffered_bytes t ++ unread w /\
      unread w' = [] /\ filled t' = 0 /\
      transferred t'
      = transferred t + Zlength (buffered_bytes t ++ unread w).
Proof.
  induction m as [m IH] using lt_wf_ind. intros w t fuel Hm Hok Hfuel.
  destruct (put_xfer_progress_returns world sys_read xfer_write
              (fun w => List.length (unread w))
              read_shortens write_does_not_lengthen
              read_bounded write_bounded fuel w x t Hok Hfuel)
    as (w1 & t1 & tr1 & ex1 & E1 & Hok1).
  assert (Hpre : buffer_len t = 0 -> filled t = 0)
    by (destruct Hok as ((I1 & I2) & _); lia).
  destruct (put_step_conserves _ _ _ _ _ _ _ _ Hpre E1) as (Hc & Hl & _).
  destruct (put_step_advances _ _ _ _ _ _ _ _ Hok E1) as (Ht & Hex).
  destruct ex1 as [errno | | e | written]; try contradiction.
  - destruct Hex as (Hu & Hf).
    assert (Hb1 : buffered_bytes t1 = [])
      by (unfold buffered_bytes; rewrite Hf; reflexivity).
    rewrite Hb1, Hu in Hc. cbn [app] in Hc. rewrite app_nil_r in Hc.
    exists 1%nat, w1, t1, (tr1 ++ []), [].
    cbn [put_file_run]. rewrite E1. cbn [bind app].
    split; [reflexivity | ]. split; [constructor | ].
    rewrite app_nil_r. split; [symmetry; exact Hc | ].
    split; [exact Hu | ]. split; [exact Hf | ].
    rewrite Hc. exact Ht.
  - assert (Hlt : (List.length (buffered_bytes t1 ++ unread w1) < m)%nat).
    { rewrite <- Hm, Hc, !length_app.
      destruct (sent tr1); [contradiction | cbn [List.length]; lia]. }
    destruct (IH _ Hlt w1 t1 fuel eq_refl Hok1)
      as (n & w2 & t2 & tr2 & exs & E2 & Hall & Hs & Hu & Hf & Ht2);
      [lia | ].
    exists (S n), w2, t2, (tr1 ++ tr2), (LoopEnded written :: exs).
    cbn [put_file_run]. rewrite E1. cbn [bind]. rewrite E2. cbn [bind].
    split; [reflexivity | ].
    split; [constructor; [eexists; reflexivity | exact Hall] | ].
    split; [rewrite sent_app, Hs; symmetry; exact Hc | ].
    split; [exact Hu | ]. split; [exact Hf | ].
    rewrite Ht2, Ht, Hc, !Zlength_app. lia.
Qed.

(** X15: a PUT from a regular local file through a live transport runs to
    completion.  From any consistent state of the transfer some number of
    continuation steps, all but the last ending on a short write, reaches
    the exhaustion exit; by then the transport has taken, in order, exactly
    the bytes that were buffered followed by the rest of the file, the
    buffer is empty, and [transferred] has grown by that number of
    bytes. *)
Theorem put_file_run_delivers_the_file
    (x : GwObexXfer) (w : world) (t : transfer_data) :
  buffer_ok t ->
  exists n w' t' tr exs,
    put_file_run sys_read xfer_write n (List.length (unread w) + 2) w x t
    = Ok (w', t', tr, exs ++ [Exhausted]) /\
    Forall (fun ex => exists written, ex = LoopEnded written) exs /\
    sent tr = buffered_bytes t ++ unread w /\
    unread w' = [] /\ filled t' = 0 /\
    transferred t'
    = transferred t + Zlength (buffered_bytes t ++ unread w).
Proof.
  intros Hok.
  apply (put_file_run_completes x _ w t _ eq_refl Hok). lia.
Qed.

End PutFileDelivery.

(** A file read to its end and a transport with a window are such a
    world. *)
Lemma plain_read_next (w : list byte) (fd' count : Z) (w' bytes : list byte) :
  plain_read w fd' count = (w', SysReadOk bytes) -> w = bytes ++ w'.
Proof.
  unfold plain_read. intros H. injection H as <- <-.
  symmetry. apply firstn_skipn.
Qed.

Lemma plain_read_never_fails (w : list byte) (fd' count : Z)
    (w' : list byte) (errno : Z) :
  plain_read w fd' count = (w', SysReadFail errno) -> w' = w.
Proof. unfold plain_read. intros H. discriminate H. Qed.

Lemma plain_read_succeeds (w : list byte) (fd' count : Z) (w' : list byte)
    (r : sys_read_res) :
  plain_read w fd' count = (w', r) -> exists bytes, r = SysReadOk bytes.
Proof.
  unfold plain_read. intros H. injection H as _ <-. eexists; reflexivity.
Qed.

Lemma plain_read_bounded (w : list byte) (fd' count : Z)
    (w' bytes : list byte) :
  plain_read w fd' count = (w', SysReadOk bytes) ->
  0 <= count -> Zlength bytes <= count.
Proof.
  unfold plain_read. intros H Hc. injection H as _ <-.
  rewrite Zlength_correct, length_firstn. lia.
Qed.

Lemma plain_read_progress (w : list byte) (fd' count : Z)
    (w' bytes : list byte) :
  plain_read w fd' count = (w', SysReadOk bytes) ->
  0 < count -> w <> [] -> bytes <> [].
Proof.
  unfold plain_read. intros H Hc Hw. injection H as _ <-.
  destruct w as [ | c w]; [contradiction | ].
  destruct (Z.to_nat count) eqn:E; [lia | discriminate].
Qed.

Lemma paced_write_keeps (limit : Z) (w : list byte) (x : GwObexXfer)
    (bytes w' : list byte) (r : xfer_write_res) :
  paced_write limit w x bytes = (w', r) -> w' = w.
Proof. unfold paced_write. intros H. injection H as <- _. reflexivity. Qed.

Lemma paced_write_succeeds (limit : Z) (w : list byte) (x : GwObexXfer)
    (bytes w' : list byte) (r : xfer_write_res) :
  paced_write limit w x bytes = (w', r) ->
  exists written, r = XferWriteOk written.
Proof.
  unfold paced_write. intros H. injection H as _ <-. eexists; reflexivity.
Qed.

Lemma paced_write_bounded (limit : Z) (w : list byte) (x : GwObexXfer)
    (bytes w' : list byte) (written : Z) :
  0 < limit ->
  paced_write limit w x bytes = (w', XferWriteOk written) ->
  0 <= written <= Zlength bytes.
Proof.
  unfold paced_write. intros Hl H. injection H as _ <-.
  pose proof (Zlength_nonneg bytes). lia.
Qed.

Lemma paced_write_progress (limit : Z) (w : list byte) (x : GwObexXfer)
    (bytes w' : list byte) (written : Z) :
  0 < limit ->
  paced_write limit w x bytes = (w', XferWriteOk written) ->
  bytes <> [] -> 0 < written.
Proof.
  unfold paced_write. intros Hl H Hne. injection H as _ <-.
  destruct bytes as [ | c bytes]; [contradiction | ].
  rewrite Zlength_cons. pose proof (Zlength_nonneg bytes). lia.
Qed.


Lemma put_file_run_loses_no_byte_witness :
  exists w' t' tr exs,
    put_file_run plain_read (paced_write 4) 2 8 ten_bytes 7%nat
                 small_file_put_transfer = Ok (w', t', tr, exs) /\
    ten_bytes = sent tr ++ buffered_bytes t' ++ w'.
Proof.
  destruct (put_file_run plain_read (paced_write 4) 2 8 ten_bytes 7%nat
              small_file_put_transfer)
    as [[[[w' t'] tr] exs] | | ] eqn:E; try (vm_compute in E; discriminate).
  exists w', t', tr, exs. split; [reflexivity | ].
  exact (put_file_run_loses_no_byte
           (list byte) plain_read (paced_write 4) (fun w => w)
           plain_read_next plain_read_never_fails (paced_write_keeps 4)
           2%nat 8%nat 7%nat ten_bytes small_file_put_transfer w' t' tr exs
           (fun _ => eq_refl) E).
Defined.

Lemma put_file_run_delivers_the_file_witness :
  exists n w' t' tr exs,
    put_file_run plain_read (paced_write 4) n (List.length ten_bytes + 2)
                 ten_bytes 7%nat small_file_put_transfer
    = Ok (w', t', tr, exs ++ [Exhausted]) /\
    sent tr = ten_bytes /\ w' = [] /\ transferred t' = 10.
Proof.
  assert (Hok : buffer_ok small_file_put_transfer)
    by (vm_compute; repeat split; intros C; discriminate C).
  assert (Hl : 0 < 4) by reflexivity.
  destruct (put_file_run_delivers_the_file
              (list byte) plain_read (paced_write 4) (fun w => w)
              plain_read_next plain_read_never_fails (paced_write_keeps 4)
              plain_read_succeeds plain_read_bounded plain_read_progress
              (paced_write_succeeds 4)
              (fun w x bytes w' written => paced_write_bounded 4 w x bytes
                                             w' written Hl)
              (fun w x bytes w' written => paced_write_progress 4 w x bytes
                                             w' written Hl)
              7%nat ten_bytes small_file_put_transfer Hok)
    as (n & w' & t' & tr & exs & E & _ & Hs & Hu & _ & Ht).
  exists n, w', t', tr, exs. split; [exact E | ].
  split; [exact Hs | ]. split; [exact Hu | ].
  rewrite Ht. reflexivity.
Defined.

(** * hcid: expansion of the device name *)

Lemma load_skipn (str : block) (sp : Z) (c : byte) (r : list byte) :
  0 <= sp -> skipn (Z.to_nat sp) str = c :: r ->
  load str sp = Ok c /\ skipn (Z.to_nat (sp + 1)) str = r.
Proof.
  intros Hsp H. unfold load.
  assert (Hlen : (Z.to_nat sp < List.length str)%nat).
  { destruct (Nat.lt_ge_cases (Z.to_nat sp) (List.length str)) as [L | G];
      [exact L | ].
    rewrite skipn_all2 in H by exact G. discriminate H. }
  assert (C1 : (0 <=? sp) = true) by (apply Z.leb_le; exact Hsp).
  assert (C2 : (sp <? Zlength str) = true)
    by (apply Z.ltb_lt; rewrite Zlength_correct; lia).
  rewrite C1, C2. cbn [andb]. split.
  - f_equal. rewrite <- (firstn_skipn (Z.to_nat sp) str) at 1.
    rewrite app_nth2 by (rewrite length_firstn; lia).
    rewrite length_firstn, H.
    replace (Z.to_nat sp - Nat.min (Z.to_nat sp) (List.length str))%nat
      with O by lia.
    reflexivity.
  - replace (Z.to_nat (sp + 1)) with (1 + Z.to_nat sp)%nat by lia.
    rewrite <- skipn_skipn, H. reflexivity.
Qed.

Lemma load_end (str : block) (sp : Z) :
  0 <= sp -> skipn (Z.to_nat sp) str = [] ->
  load str sp = Fault (OutOfBounds sp 1).
Proof.
  intros Hsp H. unfold load.
  assert (Hlen : (List.length str <= Z.to_nat sp)%nat).
  { apply (f_equal (@List.length byte)) in H.
    rewrite length_skipn in H. simpl in H. lia. }
  assert (C2 : (sp <? Zlength str) = false)
    by (apply Z.ltb_ge; rewrite Zlength_correct; lia).
  rewrite C2, andb_false_r. reflexivity.
Qed.

Lemma store_placed (dst : block) (np : Z) (bytes : list byte) :
  0 <= np -> np + Zlength bytes <= Zlength dst ->
  store dst np bytes = Ok (placed dst np bytes).
Proof.
  intros H1 H2. unfold store, placed.
  apply Z.leb_le in H1, H2. rewrite H1, H2. reflexivity.
Qed.

Lemma placed_Zlength (dst : block) (np : Z) (bytes : list byte) :
  0 <= np -> np + Zlength bytes <= Zlength dst ->
  Zlength (placed dst np bytes) = Zlength dst.
Proof.
  intros H1 H2.
  apply (store_Zlength dst np bytes). apply store_placed; assumption.
Qed.

Lemma placed_nil (dst : block) (np : Z) : placed dst np [] = dst.
Proof.
  unfold placed. rewrite Zlength_nil, Z.add_0_r. cbn [app].
  apply firstn_skipn.
Qed.

Lemma placed_placed (dst : block) (np : Z) (X Y : list byte) :
  0 <= np -> np + Zlength X + Zlength Y <= Zlength dst ->
  placed (placed dst np X) (np + Zlength X) Y = placed dst np (X ++ Y).
Proof.
  intros H1 H2. pose proof (Zlength_nonneg X) as HX.
  pose proof (Zlength_nonneg Y) as HY.
  assert (Hs : store dst np X = Ok (placed dst np X))
    by (apply store_placed; lia).
  unfold placed at 1.
  rewrite (store_extends _ _ _ _ Hs).
  unfold placed. rewrite Zlength_app, <- !app_assoc.
  f_equal. f_equal. f_equal.
  rewrite !Zlength_correct in *.
  rewrite !skipn_app, !length_firstn.
  rewrite (skipn_all2 (firstn _ _)) by (rewrite length_firstn; lia).
  rewrite (skipn_all2 X) by lia. cbn [app].
  rewrite skipn_skipn. f_equal. lia.
Qed.

Section ExpandName.

Variable host_name : list byte.
Variable size : Z.
Variable dev_id : Z.

Hypothesis dev_id_fits : Zlength (decimal dev_id) <= 9.

Lemma sprintf_d_fits : sprintf_d dev_id = Ok (decimal dev_id).
Proof.
  unfold sprintf_d.
  destruct (Zlength (decimal dev_id) + 1 <=? 10) eqn:E; [reflexivity | ].
  apply Z.leb_gt in E. lia.
Qed.

(** The loop from [sp] on, where the rest of the name is [s]: with room
    for all of its expansion the loop lays the expansion over [dst]; when
    the name ends in a backslash that escapes nothing, the loop copies the
    terminator and reads on behind it. *)
Lemma expand_loop_whole (str : block) (tail : list byte) (fuel : nat) :
  forall (s : list byte) (dst : block) (sp np : Z),
    0 <= sp -> 0 <= np ->
    skipn (Z.to_nat sp) str = s ++ NUL :: tail ->
    ~ In NUL s ->
    (List.length s + 1 < fuel)%nat ->
    size <= Zlength dst ->
    np + Zlength (expansion host_name dev_id s)
    + (if dangling s then 1 else 0) < size - 1 ->
    (dangling s = true -> tail = []) ->
    expand_loop fuel host_name size str dev_id dst sp np
    = if dangling s
      then Fault (OutOfBounds (sp + Zlength s + 1) 1)
      else Ok (placed dst np (expansion host_name dev_id s),
               np + Zlength (expansion host_name dev_id s)).
Proof.
  induction fuel as [ | fuel IH];
    intros s dst sp np Hsp Hnp Hstr Hnul Hfuel Hdst Hroom Htail; [lia | ].
  cbn [expand_loop].
  pose proof (Zlength_nonneg (expansion host_name dev_id s)) as Hexp.
  assert (Hin : (np <? size - 1) = true)
    by (apply Z.ltb_lt; destruct (dangling s); lia).
  rewrite Hin.
  destruct s as [ | c s'].
  - destruct (load_skipn _ _ _ _ Hsp Hstr) as (-> & _).
    cbn [bind dangling expansion]. change (Byte.eqb NUL NUL) with true.
    cbv iota. rewrite placed_nil, Zlength_nil, Z.add_0_r. reflexivity.
  - cbn [app] in Hstr.
    destruct (load_skipn _ _ _ _ Hsp Hstr) as (-> & Hstr1).
    assert (Hsp1 : 0 <= sp + 1) by lia.
    assert (Hc : Byte.eqb c NUL = false).
    { destruct (Byte.eqb c NUL) eqn:E; [ | reflexivity].
      apply Byte.byte_dec_bl in E. subst c. exfalso. apply Hnul.
      left; reflexivity. }
    assert (Hnul' : ~ In NUL s') by (intros C; apply Hnul; right; exact C).
    assert (Hstep :
              forall (X r : list byte) (sp' : Z),
                0 <= sp' ->
                skipn (Z.to_nat sp') str = r ++ NUL :: tail ->
                ~ In NUL r -> (List.length r + 1 < fuel)%nat ->
                np + Zlength X + Zlength (expansion host_name dev_id r)
                + (if dangling r then 1 else 0) < size - 1 ->
                (dangling r = true -> tail = []) ->
                (dst0 <- store dst np X ;;
                 expand_loop fuel host_name size str dev_id dst0 sp'
                             (np + Zlength X))
                = if dangling r
                  then Fault (OutOfBounds (sp' + Zlength r + 1) 1)
                  else Ok (placed dst np
                             (X ++ expansion host_name dev_id r),
                           np + Zlength
                                  (X ++ expansion host_name dev_id r))).
    { intros X r sp' H1 H2 H3 H4 H5 H6.
      pose proof (Zlength_nonneg X) as HX.
      pose proof (Zlength_nonneg (expansion host_name dev_id r)) as Hr.
      assert (Hfit : np + Zlength X <= Zlength dst)
        by (destruct (dangling r); lia).
      rewrite store_placed by lia. cbn [bind].
      rewrite (IH r); try assumption; try lia;
        [ | rewrite placed_Zlength by lia; exact Hdst].
      destruct (dangling r); [reflexivity | ].
      rewrite placed_placed, Zlength_app by lia.
      f_equal. f_equal. lia. }
    cbn [bind]. rewrite Hc.
    cbn [expansion dangling] in *. cbn [List.length] in Hfuel.
    rewrite Zlength_cons.
    destruct (Byte.eqb c PERCENT) eqn:E1.
    + destruct s' as [ | c1 s''].
      * destruct (load_skipn _ _ _ _ Hsp1 Hstr1) as (-> & _).
        cbn [bind]. apply (IH [] dst (sp + 1) np); try assumption; try lia;
          try (cbn [List.length]; lia); intros C; discriminate C.
      * cbn [app] in Hstr1.
        destruct (load_skipn _ _ _ _ Hsp1 Hstr1) as (-> & Hstr2).
        replace (sp + 1 + 1) with (sp + 2) in Hstr2 by lia.
        assert (Hnul2 : ~ In NUL s'')
          by (intros C; apply Hnul'; right; exact C).
        cbn [List.length] in Hfuel. rewrite Zlength_cons.
        replace (sp + Z.succ (Z.succ (Zlength s'')) + 1)
          with (sp + 2 + Zlength s'' + 1) by lia.
        cbn [bind].
        destruct (Byte.eqb c1 LETTER_d) eqn:E2;
          [ | destruct (Byte.eqb c1 LETTER_h) eqn:E3;
              [ | destruct (Byte.eqb c1 PERCENT) eqn:E4]];
          cbn [orb] in *.
        -- rewrite sprintf_d_fits. cbn [bind].
           rewrite Zlength_app in Hroom.
           pose proof (Zlength_nonneg (expansion host_name dev_id s'')).
           assert (Ht : (np + Zlength (decimal dev_id) <? size - 1) = true)
             by (apply Z.ltb_lt; destruct (dangling s''); lia).
           rewrite Ht. apply Hstep; try assumption; lia.
        -- rewrite Zlength_app in Hroom.
           pose proof (Zlength_nonneg (expansion host_name dev_id s'')).
           assert (Ht : (np + Zlength host_name <? size - 1) = true)
             by (apply Z.ltb_lt; destruct (dangling s''); lia).
           rewrite Ht. apply Hstep; try assumption; lia.
        -- rewrite Zlength_cons in Hroom.
           change (np + 1) with (np + Zlength [c]).
           change (c :: expansion host_name dev_id s'')
             with ([c] ++ expansion host_name dev_id s'').
           apply Hstep; try assumption; try lia.
           change (Zlength [c]) with 1. lia.
        -- replace (sp + 2 + Zlength s'' + 1)
             with (sp + 1 + Zlength (c1 :: s'') + 1)
             by (rewrite Zlength_cons; lia).
           apply (IH (c1 :: s'') dst (sp + 1) np); try assumption;
             cbn [List.length]; lia.
    + destruct (Byte.eqb c BACKSLASH) eqn:E2.
      * destruct s' as [ | c1 s''].
        -- destruct (load_skipn _ _ _ _ Hsp1 Hstr1) as (-> & Hstr2).
           rewrite (Htail eq_refl) in Hstr2.
           replace (sp + 1 + 1) with (sp + 2) in Hstr2 by lia.
           cbn [bind]. rewrite Zlength_nil in *.
           rewrite store_placed
             by (change (Zlength [NUL]) with 1; lia).
           cbn [bind]. destruct fuel as [ | fuel']; [simpl in Hfuel; lia | ].
           cbn [expand_loop].
           assert (Ht : (np + 1 <? size - 1) = true)
             by (apply Z.ltb_lt; lia).
           rewrite Ht, (load_end str (sp + 2)) by (try lia; exact Hstr2).
           cbn [bind]. f_equal. f_equal. lia.
        -- cbn [app] in Hstr1.
           destruct (load_skipn _ _ _ _ Hsp1 Hstr1) as (-> & Hstr2).
           replace (sp + 1 + 1) with (sp + 2) in Hstr2 by lia.
           assert (Hnul2 : ~ In NUL s'')
             by (intros C; apply Hnul'; right; exact C).
           cbn [List.length] in Hfuel. rewrite Zlength_cons.
           replace (sp + Z.succ (Z.succ (Zlength s'')) + 1)
             with (sp + 2 + Zlength s'' + 1) by lia.
           rewrite Zlength_cons in Hroom. cbn [bind].
           change (np + 1) with (np + Zlength [c1]).
           change (c1 :: expansion host_name dev_id s'')
             with ([c1] ++ expansion host_name dev_id s'').
           apply Hstep; try assumption; try lia.
           change (Zlength [c1]) with 1. lia.
      * rewrite Zlength_cons in Hroom.
        replace (sp + Z.succ (Zlength s') + 1)
          with (sp + 1 + Zlength s' + 1) by lia.
        change (np + 1) with (np + Zlength [c]).
        change (c :: expansion host_name dev_id s')
          with ([c] ++ expansion host_name dev_id s').
        apply Hstep; try assumption; try lia.
        change (Zlength [c]) with 1. lia.
Qed.

(** X16: [expand_name] on a name whose expansion fits.  For a terminated
    name without a dangling backslash whose expansion is shorter than
    [size - 1], and a destination of at least [size] bytes, the result is
    the destination holding the expansion ([%d] the device id in decimal,
    [%h] the host name, [%%] a percent sign, a backslash the character
    after it, a percent sign before anything else dropped) followed by a
    terminator, the bytes behind it left as they were. *)
Theorem expand_name_expands (s tail : list byte) (d : block) :
  ~ In NUL s -> dangling s = false ->
  size <= Zlength d ->
  Zlength (expansion host_name dev_id s) < size - 1 ->
  expand_name host_name (Some d) size (Some (s ++ NUL :: tail)) dev_id
  = Ok (Some (expansion host_name dev_id s
              ++ NUL :: skipn (Z.to_nat
                                 (Zlength (expansion host_name dev_id s)
                                  + 1)) d)).
Proof.
  intros Hnul Hd Hdst Hroom. unfold expand_name. cbn [mem].
  pose proof (Zlength_nonneg (expansion host_name dev_id s)) as Hexp.
  rewrite (expand_loop_whole (s ++ NUL :: tail) tail _ s d 0 0);
    try assumption; try lia; try reflexivity.
  - rewrite Hd. cbn [bind]. rewrite Z.add_0_l.
    rewrite store_placed;
      [ | lia
        | rewrite placed_Zlength by lia; change (Zlength [NUL]) with 1;
          lia].
    cbn [bind].
    replace (Zlength (expansion host_name dev_id s))
      with (0 + Zlength (expansion host_name dev_id s)) at 1 by lia.
    rewrite placed_placed by (change (Zlength [NUL]) with 1; lia).
    unfold placed. rewrite Zlength_app, <- app_assoc.
    change (Zlength [NUL]) with 1. reflexivity.
  - rewrite length_app. cbn [List.length]. lia.
  - rewrite Hd. lia.
  - rewrite Hd. intros C; discriminate C.
Qed.

(** X17: a name that ends in a backslash.  With room left in the
    destination the loop copies the terminator as the escaped character,
    steps over it and tests the byte behind the terminator: a read outside
    the string. *)
Theorem expand_name_reads_behind_dangling_backslash
    (s : list byte) (d : block) :
  ~ In NUL s -> dangling s = true ->
  size <= Zlength d ->
  Zlength (expansion host_name dev_id s) + 1 < size - 1 ->
  expand_name host_name (Some d) size (Some (s ++ [NUL])) dev_id
  = Fault (OutOfBounds (Zlength (s ++ [NUL])) 1).
Proof.
  intros Hnul Hd Hdst Hroom. unfold expand_name. cbn [mem].
  rewrite (expand_loop_whole (s ++ [NUL]) [] _ s d 0 0);
    try assumption; try lia; try reflexivity.
  - rewrite Hd. cbn [bind]. rewrite Zlength_app.
    change (Zlength [NUL]) with 1. reflexivity.
  - rewrite length_app. cbn [List.length]. lia.
  - rewrite Hd. lia.
Qed.

Lemma is_plain_tests (c : byte) :
  is_plain c = true ->
  Byte.eqb c NUL = false /\ Byte.eqb c PERCENT = false /\
  Byte.eqb c BACKSLASH = false.
Proof.
  unfold is_plain. intros H. apply negb_true_iff in H.
  apply orb_false_iff in H. destruct H as (H & H3).
  apply orb_false_iff in H. destruct H as (H1 & H2). auto.
Qed.

(** A stretch of characters that stand for themselves is copied as it
    is. *)
Lemma expand_loop_plain (str : block) (lit : list byte) :
  forall (fuel : nat) (dst : block) (sp np : Z) (rest : list byte),
    0 <= sp -> 0 <= np ->
    skipn (Z.to_nat sp) str = lit ++ rest ->
    forallb is_plain lit = true ->
    np + Zlength lit <= size - 1 -> size <= Zlength dst ->
    expand_loop (List.length lit + fuel) host_name size str dev_id dst sp np
    = expand_loop fuel host_name size str dev_id (placed dst np lit)
                  (sp + Zlength lit) (np + Zlength lit).
Proof.
  induction lit as [ | c lit IH];
    intros fuel dst sp np rest Hsp Hnp Hstr Hpl Hroom Hdst.
  - cbn [List.length Nat.add].
    rewrite placed_nil, Zlength_nil, !Z.add_0_r. reflexivity.
  - cbn [forallb] in Hpl. apply andb_true_iff in Hpl.
    destruct Hpl as (Hc & Hpl).
    destruct (is_plain_tests c Hc) as (T1 & T2 & T3).
    rewrite Zlength_cons in *. pose proof (Zlength_nonneg lit) as Hl.
    cbn [app] in Hstr.
    destruct (load_skipn _ _ _ _ Hsp Hstr) as (Hload & Hstr1).
    cbn [List.length Nat.add expand_loop].
    assert (Hin : (np <? size - 1) = true) by (apply Z.ltb_lt; lia).
    rewrite Hin, Hload. cbn [bind]. rewrite T1, T2, T3.
    rewrite store_placed by (change (Zlength [c]) with 1; lia).
    cbn [bind].
    rewrite (IH fuel _ (sp + 1) (np + 1) rest); try assumption; try lia;
      [ | rewrite placed_Zlength
            by (change (Zlength [c]) with 1; lia); exact Hdst].
    change (np + 1) with (np + Zlength [c]) at 1.
    rewrite placed_placed by (change (Zlength [c]) with 1; lia).
    cbn [app]. f_equal; lia.
Qed.

(** X18: a substitution that does not fit.  After a stretch of plain
    characters shorter than [size - 1], a [%h] or [%d] whose text would
    reach offset [size - 1] or beyond is not copied, yet [np] is advanced
    by its length; the loop ends there, whatever follows in the name, and
    the terminator is stored at that offset: outside the destination when
    the offset is not below its length, and otherwise behind a gap of
    bytes the function never wrote. *)
Theorem expand_name_counts_a_substitution_it_skipped
    (lit opt rest : list byte) (k : byte) (d : block) :
  forallb is_plain lit = true ->
  (k = LETTER_h /\ opt = host_name) \/
  (k = LETTER_d /\ opt = decimal dev_id) ->
  size <= Zlength d ->
  Zlength lit < size - 1 <= Zlength lit + Zlength opt ->
  match expand_name host_name (Some d) size
          (Some (lit ++ PERCENT :: k :: rest)) dev_id with
  | Ok (Some d') =>
      Zlength lit + Zlength opt < Zlength d /\
      d' = lit ++ firstn (Z.to_nat (Zlength opt))
                    (skipn (Z.to_nat (Zlength lit)) d)
           ++ NUL :: skipn (Z.to_nat (Zlength lit + Zlength opt + 1)) d
  | Fault f =>
      Zlength d <= Zlength lit + Zlength opt /\
      f = OutOfBounds (Zlength lit + Zlength opt) 1
  | _ => False
  end.
Proof.
  intros Hpl Hk Hdst (Hlit & Hover). unfold expand_name. cbn [mem].
  pose proof (Zlength_nonneg lit) as Hl.
  pose proof (Zlength_nonneg opt) as Ho.
  rewrite length_app. cbn [List.length].
  replace (S (List.length lit + S (S (List.length rest))))
    with (List.length lit + S (S (S (List.length rest))))%nat by lia.
  generalize (S (List.length rest)). intros f.
  rewrite (expand_loop_plain _ lit _ d 0 0 (PERCENT :: k :: rest));
    try assumption; try lia; try reflexivity.
  rewrite !Z.add_0_l.
  assert (H0 : 0 <= Zlength lit) by lia.
  assert (Hs0 : skipn (Z.to_nat (Zlength lit))
                  (lit ++ PERCENT :: k :: rest) = PERCENT :: k :: rest).
  { rewrite Zlength_correct, Nat2Z.id, skipn_app, skipn_all, Nat.sub_diag.
    reflexivity. }
  destruct (load_skipn _ _ _ _ H0 Hs0) as (L0 & Hs1).
  assert (H1 : 0 <= Zlength lit + 1) by lia.
  destruct (load_skipn _ _ _ _ H1 Hs1) as (L1 & _).
  assert (Hin : (Zlength lit <? size - 1) = true) by (apply Z.ltb_lt; lia).
  assert (Hnofit : (Zlength lit + Zlength opt <? size - 1) = false)
    by (apply Z.ltb_ge; lia).
  assert (Hloop :
            expand_loop (S (S f)) host_name size
              (lit ++ PERCENT :: k :: rest) dev_id (placed d 0 lit)
              (Zlength lit) (Zlength lit)
            = Ok (placed d 0 lit, Zlength lit + Zlength opt)).
  { cbn [expand_loop]. rewrite Hin, L0. cbn [bind].
    change (Byte.eqb PERCENT NUL) with false.
    change (Byte.eqb PERCENT PERCENT) with true. cbv iota.
    rewrite L1. cbn [bind].
    destruct Hk as [(-> & ->) | (-> & ->)].
    - change (Byte.eqb LETTER_h LETTER_d) with false.
      change (Byte.eqb LETTER_h LETTER_h) with true. cbv iota.
      rewrite Hnofit. cbn [bind]. reflexivity.
    - change (Byte.eqb LETTER_d LETTER_d) with true. cbv iota.
      rewrite sprintf_d_fits. cbn [bind].
      rewrite Hnofit. cbn [bind]. reflexivity. }
  rewrite Hloop. cbn [bind].
  assert (Hpl0 : Zlength (placed d 0 lit) = Zlength d)
    by (apply placed_Zlength; lia).
  destruct (Z.lt_ge_cases (Zlength lit + Zlength opt) (Zlength d))
    as [Hin' | Hout'].
  - rewrite store_placed
      by (rewrite ?Hpl0; change (Zlength [NUL]) with 1; lia).
    cbn [bind]. split; [exact Hin' | ].
    unfold placed. change (Z.to_nat 0) with O. cbn [firstn app].
    rewrite Z.add_0_l. change (Zlength [NUL]) with 1.
    rewrite !Zlength_correct in *.
    rewrite firstn_app, skipn_app.
    rewrite (firstn_all2 (n := Z.to_nat _) lit) by lia.
    rewrite (skipn_all2 (n := Z.to_nat _) lit) by lia.
    cbn [app]. rewrite skipn_skipn, <- app_assoc.
    f_equal. f_equal; [f_equal; lia | f_equal; f_equal; lia].
  - unfold store.
    assert (C : (Zlength lit + Zlength opt + Zlength [NUL]
                 <=? Zlength (placed d 0 lit)) = false)
      by (apply Z.leb_gt; rewrite Hpl0; change (Zlength [NUL]) with 1; lia).
    rewrite C, andb_false_r. cbn [bind].
    split; [lia | reflexivity].
Qed.

(** X19: a name of plain characters is cut to the room there is.  For a
    terminated name without percent sign or backslash and a destination of
    at least [size] bytes ([size] at least 1) the result holds the first
    [size - 1] characters of the name, or all of it when it is shorter,
    followed by a terminator. *)
Theorem expand_name_truncates_plain (s tail : list byte) (d : block) :
  forallb is_plain s = true ->
  1 <= size <= Zlength d ->
  let kept := firstn (Z.to_nat (size - 1)) s in
  expand_name host_name (Some d) size (Some (s ++ NUL :: tail)) dev_id
  = Ok (Some (kept ++ NUL :: skipn (Z.to_nat (Zlength kept + 1)) d)).
Proof.
  intros Hpl (Hsz & Hdst) kept. unfold expand_name. cbn [mem].
  assert (Hs : s = kept ++ skipn (Z.to_nat (size - 1)) s)
    by (symmetry; apply firstn_skipn).
  assert (Hkl : Zlength kept <= size - 1)
    by (subst kept; rewrite Zlength_correct, length_firstn; lia).
  pose proof (Zlength_nonneg kept) as Hk0.
  assert (Hkp : forallb is_plain kept = true).
  { rewrite Hs, forallb_app in Hpl. apply andb_true_iff in Hpl.
    apply Hpl. }
  assert (Hstr : s ++ NUL :: tail
                 = kept ++ (skipn (Z.to_nat (size - 1)) s ++ NUL :: tail))
    by (rewrite app_assoc, <- Hs; reflexivity).
  assert (Hfuel : S (List.length (s ++ NUL :: tail))
                  = (List.length kept
                     + S (S (List.length (skipn (Z.to_nat (size - 1)) s)
                             + List.length tail)))%nat).
  { rewrite Hstr, !length_app. cbn [List.length]. lia. }
  rewrite Hfuel.
  rewrite (expand_loop_plain _ kept _ d 0 0
             (skipn (Z.to_nat (size - 1)) s ++ NUL :: tail));
    try assumption; try lia; try reflexivity; try exact Hstr.
  rewrite !Z.add_0_l. cbn [expand_loop].
  assert (Hend : (if Zlength kept <? size - 1
                  then
                    c <- load (s ++ NUL :: tail) (Zlength kept) ;;
                    (if Byte.eqb c NUL
                     then Ok (placed d 0 kept, Zlength kept)
                     else Fault Unterminated)
                  else Ok (placed d 0 kept, Zlength kept))
                 = Ok (placed d 0 kept, Zlength kept)).
  { destruct (Zlength kept <? size - 1) eqn:E; [ | reflexivity].
    apply Z.ltb_lt in E.
    assert (Hall : kept = s).
    { subst kept. apply firstn_all2.
      rewrite Zlength_correct, length_firstn in E. lia. }
    assert (Hsk : skipn (Z.to_nat (Zlength kept)) (s ++ NUL :: tail)
                  = NUL :: tail).
    { rewrite Hall, Zlength_correct, Nat2Z.id, skipn_app, skipn_all,
        Nat.sub_diag. reflexivity. }
    destruct (load_skipn _ _ _ _ Hk0 Hsk) as (-> & _). reflexivity. }
  destruct (Zlength kept <? size - 1) eqn:E.
  - destruct (load (s ++ NUL :: tail) (Zlength kept)) as [c | f | ];
      cbn [bind] in Hend |- *; try discriminate Hend.
    destruct (Byte.eqb c NUL); [ | discriminate Hend].
    cbn [bind]. rewrite store_placed
      by (rewrite ?placed_Zlength by lia;
          change (Zlength [NUL]) with 1; lia).
    cbn [bind].
    replace (Zlength kept) with (0 + Zlength kept) at 1 by lia.
    rewrite placed_placed by (change (Zlength [NUL]) with 1; lia).
    unfold placed. rewrite Zlength_app, <- app_assoc.
    change (Zlength [NUL]) with 1. reflexivity.
  - cbn [bind]. rewrite store_placed
      by (rewrite ?placed_Zlength by lia;
          change (Zlength [NUL]) with 1; lia).
    cbn [bind].
    replace (Zlength kept) with (0 + Zlength kept) at 1 by lia.
    rewrite placed_placed by (change (Zlength [NUL]) with 1; lia).
    unfold placed. rewrite Zlength_app, <- app_assoc.
    change (Zlength [NUL]) with 1. reflexivity.
Qed.

End ExpandName.

Lemma expand_name_expands_witness :
  expand_name example_host (Some (g_new0 32)) 32
              (Some (example_name ++ [NUL])) 0
  = Ok (Some (list_byte_of_string "BlueZ (box) 0%" ++ g_new0 18)).
Proof.
  assert (Hfit : Zlength (decimal 0) <= 9)
    by (vm_compute; intros C; discriminate C).
  assert (Hnul : ~ In NUL example_name)
    by (intros C; vm_compute in C; intuition discriminate).
  assert (Hdst : 32 <= Zlength (g_new0 32))
    by (vm_compute; intros C; discriminate C).
  assert (Hroom : Zlength (expansion example_host 0 example_name) < 32 - 1)
    by (vm_compute; reflexivity).
  rewrite (expand_name_expands example_host 32 0 Hfit example_name []
             (g_new0 32) Hnul eq_refl Hdst Hroom).
  vm_compute. reflexivity.
Defined.

Lemma expand_name_reads_behind_dangling_backslash_witness :
  expand_name example_host (Some (g_new0 32)) 32
              (Some ((example_name ++ [BACKSLASH]) ++ [NUL])) 0
  = Fault (OutOfBounds 17 1).
Proof.
  assert (Hfit : Zlength (decimal 0) <= 9)
    by (vm_compute; intros C; discriminate C).
  assert (Hnul : ~ In NUL (example_name ++ [BACKSLASH]))
    by (intros C; vm_compute in C; intuition discriminate).
  assert (Hdst : 32 <= Zlength (g_new0 32))
    by (vm_compute; intros C; discriminate C).
  assert (Hroom : Zlength (expansion example_host 0
                             (example_name ++ [BACKSLASH])) + 1 < 32 - 1)
    by (vm_compute; reflexivity).
  rewrite (expand_name_reads_behind_dangling_backslash
             example_host 32 0 Hfit (example_name ++ [BACKSLASH])
             (g_new0 32) Hnul eq_refl Hdst Hroom).
  vm_compute. reflexivity.
Defined.

Lemma expand_name_counts_a_substitution_it_skipped_witness :
  expand_name example_host (Some (g_new0 9)) 9
              (Some (list_byte_of_string "BlueZ ("
                     ++ PERCENT :: LETTER_h
                        :: list_byte_of_string ") %d%%" ++ [NUL])) 0
  = Fault (OutOfBounds 10 1).
Proof.
  assert (Hfit : Zlength (decimal 0) <= 9)
    by (vm_compute; intros C; discriminate C).
  assert (Hdst : 9 <= Zlength (g_new0 9))
    by (vm_compute; intros C; discriminate C).
  assert (Hover : Zlength (list_byte_of_string "BlueZ (") < 9 - 1
                  <= Zlength (list_byte_of_string "BlueZ (")
                     + Zlength example_host)
    by (vm_compute; split; [reflexivity | intros C; discriminate C]).
  pose proof (expand_name_counts_a_substitution_it_skipped
                example_host 9 0 Hfit (list_byte_of_string "BlueZ (")
                example_host (list_byte_of_string ") %d%%" ++ [NUL])
                LETTER_h (g_new0 9) eq_refl
                (or_introl (conj eq_refl eq_refl)) Hdst Hover) as H.
  destruct (expand_name example_host (Some (g_new0 9)) 9
              (Some (list_byte_of_string "BlueZ ("
                     ++ PERCENT :: LETTER_h
                        :: list_byte_of_string ") %d%%" ++ [NUL])) 0)
    as [[d' | ] | f | ]; try contradiction.
  - destruct H as (C & _). vm_compute in C. discriminate C.
  - destruct H as (_ & ->). vm_compute. reflexivity.
Defined.

Lemma expand_name_truncates_plain_witness :
  expand_name example_host (Some (g_new0 4)) 4
              (Some (list_byte_of_string "BlueZ" ++ [NUL])) 0
  = Ok (Some (list_byte_of_string "Blu" ++ [NUL])).
Proof.
  assert (Hsz : 1 <= 4 <= Zlength (g_new0 4))
    by (vm_compute; split; intros C; discriminate C).
  rewrite (expand_name_truncates_plain example_host 4 0
             (list_byte_of_string "BlueZ") [] (g_new0 4) eq_refl Hsz).
  vm_compute. reflexivity.
Defined.

(** * hcid: per-device options *)

Section DeviceOptionsFacts.

Variable device_opts : Type.
Variable discovto : device_opts -> Z.
Variable HCID_DEFAULT_DISCOVERABLE_TIMEOUT : Z.

(** X20: options allocated for an address are the ones the device gets.
    After [alloc_device_opts(addr)] a device that reports this address is
    given the copy of the defaults made at allocation, whatever the
    defaults are by then and whatever was configured for its [hciN] name or
    earlier for the same address; every other reference resolves as
    before.  A device whose address cannot be asked for, or has no entry,
    gets the entry of its [hciN] name, and the defaults when there is
    none. *)
Theorem allocated_address_options_take_precedence
    (copied current : device_opts) (l l' : device_list device_opts)
    (addr : string) (o : device_opts) :
  alloc_device_opts true copied l addr = Some (l', o) ->
  o = copied /\
  (forall hdev, get_device_opts current l' 0 addr hdev = copied) /\
  (forall ref, ref <> addr ->
               find_device_opts l' ref = find_device_opts l ref) /\
  (forall ioctl_ret addr' hdev,
      ioctl_ret <> 0 \/ find_device_opts l' addr' = None ->
      get_device_opts current l' ioctl_ret addr' hdev
      = match find_device_opts l' (hci_ref hdev) with
        | Some o' => o'
        | None => current
        end).
Proof.
  unfold alloc_device_opts. intros H. injection H as <- <-.
  split; [reflexivity | ]. split; [ | split].
  - intros hdev. unfold get_device_opts. cbn [find_device_opts Z.eqb].
    rewrite String.eqb_refl. reflexivity.
  - intros ref Hne. cbn [find_device_opts].
    destruct (String.eqb ref addr) eqn:E; [ | reflexivity].
    apply String.eqb_eq in E. contradiction.
  - intros ioctl_ret addr' hdev Hno. unfold get_device_opts.
    destruct (ioctl_ret =? 0) eqn:E; [ | reflexivity].
    apply Z.eqb_eq in E. destruct Hno as [C | ->]; [contradiction | ].
    reflexivity.
Qed.

(** X21: the discoverable timeout is that of the options the device is
    configured with.  For a device id that is not negative, a socket that
    opened, an HCIGETDEVINFO that did not return a positive value and no
    stored timeout, [get_discoverable_timeout] returns the [discovto] of
    the options [get_device_opts] resolves from the same answers; a stored
    timeout takes precedence over all configured options, and a negative
    device id gives the built-in default. *)
Theorem discoverable_timeout_follows_device_options
    (default_device : device_opts) (l : device_list device_opts)
    (sock ioctl_ret : Z) (addr : string) (read_ret timeout hdev : Z) :
  0 <= hdev -> 0 <= sock -> ioctl_ret <= 0 ->
  get_discoverable_timeout discovto HCID_DEFAULT_DISCOVERABLE_TIMEOUT
    default_device l sock ioctl_ret addr read_ret timeout hdev
  = if (ioctl_ret =? 0) && (read_ret =? 0) then timeout
    else discovto (get_device_opts default_device l ioctl_ret addr hdev).
Proof.
  intros Hh Hs Hi. unfold get_discoverable_timeout, get_device_opts.
  assert (C1 : (hdev <? 0) = false) by (apply Z.ltb_ge; lia).
  assert (C2 : (sock <? 0) = false) by (apply Z.ltb_ge; lia).
  rewrite C1, C2.
  destruct (ioctl_ret <? 0) eqn:E.
  - apply Z.ltb_lt in E.
    assert (C3 : (ioctl_ret =? 0) = false) by (apply Z.eqb_neq; lia).
    rewrite C3. reflexivity.
  - apply Z.ltb_ge in E.
    assert (C3 : (ioctl_ret =? 0) = true) by (apply Z.eqb_eq; lia).
    rewrite C3. cbn [andb].
    destruct (read_ret =? 0); reflexivity.
Qed.

End DeviceOptionsFacts.

Lemma allocated_address_options_take_precedence_witness :
  exists l',
    alloc_device_opts true 30 [("hci0", 60)] "00:11:22:33:44:55"
    = Some (l', 30) /\
    get_device_opts 0 l' 0 "00:11:22:33:44:55" 0 = 30 /\
    get_device_opts 0 l' (-1) "00:11:22:33:44:55" 0 = 60.
Proof.
  exists [("00:11:22:33:44:55", 30); ("hci0", 60)].
  destruct (allocated_address_options_take_precedence
              Z 30 0 [("hci0", 60)]
              [("00:11:22:33:44:55", 30); ("hci0", 60)]
              "00:11:22:33:44:55" 30 eq_refl) as (_ & H1 & _ & H3).
  split; [reflexivity | ]. split; [apply H1 | ].
  rewrite H3 by (left; intros C; discriminate C). reflexivity.
Defined.

Lemma discoverable_timeout_follows_device_options_witness :
  get_discoverable_timeout (fun o : Z => o) 180 0
    [("00:11:22:33:44:55", 30); ("hci0", 60)] 5 0 "00:11:22:33:44:55"
    (-1) 0 0
  = 30.
Proof.
  assert (H0 : 0 <= 0) by reflexivity.
  assert (H5 : 0 <= 5) by (intros C; discriminate C).
  rewrite (discoverable_timeout_follows_device_options
             Z (fun o : Z => o) 180 0
             [("00:11:22:33:44:55", 30); ("hci0", 60)] 5 0
             "00:11:22:33:44:55" (-1) 0 0 H0 H5 H0).
  reflexivity.
Defined.
